(** * matrix-wechat-agent: message extractors and media acquisition

    A shallow embedding of [internal/util.go]: the markup extractors
    ([getMentions], [parseLocation], [parseReply], [parsePrivateVoIP]),
    the media resolvers ([downloadImage], [downloadVoice], [downloadVideo],
    [downloadFile], [downloadSticker]) and blob persistence ([saveBlob]).

    Go strings are byte sequences: they are modelled as [string] (a list
    of 8-bit [ascii]); binary content is [list byte]. *)

From Stdlib Require Import String Ascii List ZArith Lia Bool PrimFloat.
From Stdlib Require Import Strings.Byte.
Import ListNotations.
Set Warnings "-register-all".
Local Open Scope string_scope.
Local Open Scope list_scope.

(* ================================================================== *)
(** * Go's [strings] package (the functions [util.go] calls) *)
(* ================================================================== *)

Module strings.

Definition strRev (s : string) : string :=
  string_of_list_ascii (rev (list_ascii_of_string s)).

(** [strings.HasPrefix]. *)
Fixpoint HasPrefix (s prefix : string) : bool :=
  match prefix, s with
  | EmptyString, _ => true
  | String _ _, EmptyString => false
  | String p prefix', String c s' => Ascii.eqb p c && HasPrefix s' prefix'
  end.

(** [strings.HasSuffix]. *)
Definition HasSuffix (s suffix : string) : bool :=
  HasPrefix (strRev s) (strRev suffix).

(** [strings.TrimSuffix]: [s] without the trailing [suffix], or [s]
    itself when it does not end with [suffix]. *)
Definition TrimSuffix (s suffix : string) : string :=
  if HasSuffix s suffix
  then substring 0 (String.length s - String.length suffix) s
  else s.

(** The six ASCII characters of Go's [asciiSpace] table:
    tab, line feed, vertical tab, form feed, carriage return, space. *)
Definition isASCIISpace (c : ascii) : bool :=
  match nat_of_ascii c with
  | 9 | 10 | 11 | 12 | 13 | 32 => true
  | _ => false
  end.

Definition bytes3 (a b c : nat) : string :=
  String (ascii_of_nat a) (String (ascii_of_nat b) (String (ascii_of_nat c) "")).

(** UTF-8 encodings of the non-ASCII runes for which [unicode.IsSpace]
    holds: U+0085, U+00A0, U+1680, U+2000..U+200A, U+2028, U+2029,
    U+202F, U+205F, U+3000. *)
Definition unicodeSpaces : list string :=
  [ String (ascii_of_nat 194) (String (ascii_of_nat 133) "");
    String (ascii_of_nat 194) (String (ascii_of_nat 160) "");
    bytes3 225 154 128;
    bytes3 226 128 128; bytes3 226 128 129; bytes3 226 128 130;
    bytes3 226 128 131; bytes3 226 128 132; bytes3 226 128 133;
    bytes3 226 128 134; bytes3 226 128 135; bytes3 226 128 136;
    bytes3 226 128 137; bytes3 226 128 138;
    bytes3 226 128 168; bytes3 226 128 169; bytes3 226 128 175;
    bytes3 226 129 159; bytes3 227 128 128 ].

(** One white-space rune removed from the front of [s], if there is one.
    [seqs] are the multi-byte encodings to recognise. *)
Definition dropSpace (seqs : list string) (s : string) : option string :=
  match s with
  | EmptyString => None
  | String c s' =>
      if isASCIISpace c then Some s'
      else
        match find (HasPrefix s) seqs with
        | Some q => Some (substring (String.length q) (String.length s - String.length q) s)
        | None => None
        end
  end.

Fixpoint trimN (seqs : list string) (n : nat) (s : string) : string :=
  match n with
  | O => s
  | S n' =>
      match dropSpace seqs s with
      | Some r => trimN seqs n' r
      | None => s
      end
  end.

Definition TrimLeftSpace (s : string) : string :=
  trimN unicodeSpaces (String.length s) s.

Definition TrimRightSpace (s : string) : string :=
  strRev (trimN (map strRev unicodeSpaces) (String.length s) (strRev s)).

(** [strings.TrimSpace]: all leading and trailing white space removed,
    as defined by Unicode. *)
Definition TrimSpace (s : string) : string :=
  TrimRightSpace (TrimLeftSpace s).

(** The scan of [strings.FieldsFunc]: [cur] is the field being read
    ([None] is Go's [start < 0]).  The predicate of [getMentions] tests
    for an ASCII comma, a byte that occurs in no multi-byte UTF-8
    sequence, so scanning bytes and scanning runes split alike. *)
Fixpoint fieldsScan (f : ascii -> bool) (s : string) (cur : option string)
  : list string :=
  match s with
  | EmptyString =>
      match cur with
      | Some w => [w]
      | None => []
      end
  | String c s' =>
      if f c then
        match cur with
        | Some w => w :: fieldsScan f s' None
        | None => fieldsScan f s' None
        end
      else
        fieldsScan f s'
          (Some (match cur with
                 | Some w => (w ++ String c "")%string
                 | None => String c ""
                 end))
  end.

(** [strings.FieldsFunc]: the maximal runs of characters that do not
    satisfy [f].  The Go function returns [make([]string, len(spans))],
    a non-nil slice even when there is no field. *)
Definition FieldsFunc (s : string) (f : ascii -> bool) : list string :=
  fieldsScan f s None.

(** [strings.Join]. *)
Definition Join (elems : list string) (sep : string) : string :=
  String.concat sep elems.

(** Does some character of [s] satisfy [f]? *)
Fixpoint existsb (f : ascii -> bool) (s : string) : bool :=
  match s with
  | EmptyString => false
  | String c s' => f c || existsb f s'
  end.

End strings.

(* ================================================================== *)
(** * Go's [strconv.ParseUint] at base 10 and 64 bits *)
(* ================================================================== *)

Module strconv.

Local Open Scope Z_scope.

Definition maxUint64 : Z := 2 ^ 64 - 1.

(** The digit value of a byte, for base 10. *)
Definition digit (c : ascii) : option Z :=
  let n := Z.of_nat (nat_of_ascii c) in
  if (48 <=? n) && (n <=? 57) then Some (n - 48) else None.

(** The loop of [ParseUint]: [n] is the value read so far; a byte that
    is not a decimal digit is a syntax error, a value above
    [maxUint64] a range error. Both are [None]. *)
Fixpoint parseDigits (s : string) (n : Z) : option Z :=
  match s with
  | EmptyString => Some n
  | String c s' =>
      match digit c with
      | None => None
      | Some d =>
          if maxUint64 / 10 + 1 <=? n then None
          else
            let n1 := n * 10 + d in
            if maxUint64 <? n1 then None else parseDigits s' n1
      end
  end.

(** [strconv.ParseUint(s, 10, 64)]. *)
Definition ParseUint (s : string) : option Z :=
  match s with
  | EmptyString => None
  | _ => parseDigits s 0
  end.

End strconv.

(* ================================================================== *)
(** * The markup query primitive ([github.com/antchfx/xmlquery]) *)
(* ================================================================== *)

Module xmlquery.

(** A parsed node.  An attribute is not a child of its element; the
    query engine builds an [AttributeNode] when a path selects one. *)
Inductive Node : Type :=
| ElementNode (Data : string) (Attr : list (string * string))
              (children : list Node)
| TextNode (Data : string)
| CharDataNode (Data : string)
| CommentNode (Data : string)
| AttributeNode (Data : string) (value : string).

(** The children of the document node. *)
Definition Document : Type := list Node.

(** [Node.InnerText]: the text of the node and of its descendants;
    comments contribute nothing. *)
Fixpoint InnerText (n : Node) : string :=
  match n with
  | ElementNode _ _ children =>
      (fix texts (l : list Node) : string :=
         match l with
         | [] => ""
         | c :: l' => (InnerText c ++ texts l')%string
         end) children
  | TextNode d => d
  | CharDataNode d => d
  | CommentNode _ => ""
  | AttributeNode _ v => v
  end.

Definition isElement (name : string) (n : Node) : bool :=
  match n with
  | ElementNode d _ _ => String.eqb d name
  | _ => false
  end.

Definition childNodes (n : Node) : list Node :=
  match n with
  | ElementNode _ _ children => children
  | _ => []
  end.

(** The attribute [name] of an element, as the node the engine builds. *)
Definition attribute (name : string) (n : Node) : list Node :=
  match n with
  | ElementNode _ attrs _ =>
      match find (fun kv => String.eqb (fst kv) name) attrs with
      | Some kv => [AttributeNode name (snd kv)]
      | None => []
      end
  | _ => []
  end.

(** The elements selected by the child steps [names], in document
    order, starting from the node list [nodes]. *)
Fixpoint selectPath (names : list string) (nodes : list Node) : list Node :=
  match names with
  | [] => []
  | [name] => filter (isElement name) nodes
  | name :: rest =>
      flat_map (fun e => selectPath rest (childNodes e))
               (filter (isElement name) nodes)
  end.

(** Every node below [nodes], in document (pre-)order. *)
Fixpoint descendantsOf (n : Node) : list Node :=
  n :: match n with
       | ElementNode _ _ children =>
           (fix all (l : list Node) : list Node :=
              match l with
              | [] => []
              | c :: l' => descendantsOf c ++ all l'
              end) children
       | _ => []
       end.

Definition descendants (nodes : Document) : list Node :=
  flat_map descendantsOf nodes.

(** The four shapes of path expression that [util.go] uses:
    [/a/b/c], [/a/b/@x], [//@x] and [//a]. *)
Inductive XPath : Type :=
| Path (steps : list string)
| PathAttr (steps : list string) (attr : string)
| AnyAttr (attr : string)
| AnyElement (name : string).

Definition Find (doc : Document) (expr : XPath) : list Node :=
  match expr with
  | Path steps => selectPath steps doc
  | PathAttr steps attr => flat_map (attribute attr) (selectPath steps doc)
  | AnyAttr attr => flat_map (attribute attr) (descendants doc)
  | AnyElement name => filter (isElement name) (descendants doc)
  end.

(** [xmlquery.FindOne]: the first selected node, [None] for Go's nil. *)
Definition FindOne (doc : Document) (expr : XPath) : option Node :=
  hd_error (Find doc expr).

End xmlquery.

Import xmlquery.

(* ================================================================== *)
(** * Go's [path/filepath] package on Windows, lexical part *)
(* ================================================================== *)

(** The agent builds for Windows only (it imports the registry package),
    so these are the functions of [path_windows.go] and [path.go] as of
    Go 1.22: the separator is the backslash, both slashes separate path
    elements, and a path begins with a volume name, which may be empty:
    a drive letter and its colon, the host and share of a UNC path, or a
    device path.  [Clean] works element by element on what follows the
    volume name. *)
Module filepath.

Definition Separator : ascii := "\"%char.

Definition IsPathSeparator (c : ascii) : bool :=
  Ascii.eqb c "\" || Ascii.eqb c "/".

(** [s[n:]] and [s[:n]]. *)
Fixpoint from (n : nat) (s : string) : string :=
  match n, s with
  | S n', String _ s' => from n' s'
  | _, _ => s
  end.

Fixpoint upto (n : nat) (s : string) : string :=
  match n, s with
  | S n', String c s' => String c (upto n' s')
  | _, _ => EmptyString
  end.

(** [toUpper] of [path_windows.go]: ASCII letters only. *)
Definition toUpper (c : ascii) : ascii :=
  let n := nat_of_ascii c in
  if ((97 <=? n) && (n <=? 122))%nat then ascii_of_nat (n - 32) else c.

(** [pathHasPrefixFold]: does [s] begin with [prefix], ignoring case
    and taking every separator for every other, and end there or go on
    with a separator? *)
Fixpoint pathHasPrefixFold (s prefix : string) : bool :=
  match prefix, s with
  | EmptyString, EmptyString => true
  | EmptyString, String c _ => IsPathSeparator c
  | String _ _, EmptyString => false
  | String p prefix', String c s' =>
      (if IsPathSeparator p then IsPathSeparator c
       else Ascii.eqb (toUpper p) (toUpper c))
      && pathHasPrefixFold s' prefix'
  end.

(** The loop of [uncLen]: [s] is the path from index [i] on, [count]
    the separators passed; the index of the second separator, or the
    length of the path. *)
Fixpoint uncScan (s : string) (i count : nat) : nat :=
  match s with
  | EmptyString => i
  | String c s' =>
      if IsPathSeparator c then
        if (count =? 1)%nat then i else uncScan s' (S i) (S count)
      else uncScan s' (S i) count
  end.

Definition uncLen (path : string) (prefixLen : nat) : nat :=
  if (prefixLen <=? String.length path)%nat
  then uncScan (from prefixLen path) prefixLen 0
  else String.length path.

(** The index of the first separator of [s]: what [cutPath] cuts at. *)
Fixpoint indexSep (s : string) : option nat :=
  match s with
  | EmptyString => None
  | String c s' =>
      if IsPathSeparator c then Some O else option_map S (indexSep s')
  end.

(** [volumeNameLen]: the length of the leading volume name: a drive
    letter and its colon, a UNC host and share, or a device path.  As
    in Go, the byte before the colon is not required to be a letter. *)
Definition volumeNameLen (path : string) : nat :=
  match path with
  | String _ (String ":" _) => 2
  | EmptyString => 0
  | String c0 rest =>
      if negb (IsPathSeparator c0) then 0
      else if pathHasPrefixFold path "\\.\UNC" then uncLen path 8
      else if pathHasPrefixFold path "\\."
              || pathHasPrefixFold path "\\?"
              || pathHasPrefixFold path "\??" then
        if (String.length path =? 3)%nat then 3
        else
          match indexSep (from 4 path) with
          | Some i => 4 + i
          | None => String.length path
          end
      else
        match rest with
        | String c1 _ => if IsPathSeparator c1 then uncLen path 2 else 0
        | EmptyString => 0
        end
  end.

(** [filepath.FromSlash]: every slash becomes a backslash. *)
Fixpoint FromSlash (s : string) : string :=
  match s with
  | EmptyString => EmptyString
  | String c s' => String (if Ascii.eqb c "/" then Separator else c) (FromSlash s')
  end.

(** [filepath.VolumeName]. *)
Definition VolumeName (path : string) : string :=
  FromSlash (upto (volumeNameLen path) path).

(** The path elements: the pieces between separators, empty ones
    included. *)
Fixpoint split (path : string) : list string :=
  match path with
  | EmptyString => [EmptyString]
  | String c rest =>
      if IsPathSeparator c then EmptyString :: split rest
      else
        match split rest with
        | e :: es => String c e :: es
        | [] => [String c EmptyString]
        end
  end.

(** The text of the output buffer of [Clean] that holds the elements
    [elems]: they follow the root separator of a rooted path and are
    separated by one separator. *)
Definition render (root : bool) (elems : list string) : string :=
  ((if root then String Separator EmptyString else EmptyString)
   ++ String.concat (String Separator EmptyString) elems)%string.

(** The [lazybuf] of [Clean]: the elements written so far, last first,
    and whether the buffer is still the input itself ([buf == nil]):
    every byte written so far was the byte of the input at its place. *)
Record lazybuf : Type := mkbuf { elems : list string; lazy : bool }.

(** An element, after a separator unless it is the first, is written
    at the end of the buffer. *)
Definition append (path : string) (root : bool) (b : lazybuf) (e : string)
  : lazybuf :=
  let w := String.length (render root (rev (elems b))) in
  let bytes :=
    match elems b with
    | [] => e
    | _ => String Separator e
    end in
  {| elems := e :: elems b;
     lazy := lazy b
             && String.eqb (substring w (String.length bytes) path) bytes |}.

(** One round of the loop of [Clean], on the element [e] of [path].  An
    empty element and [.] are skipped; [..] removes the element before
    it, is dropped at the root, and is kept at the front of a path
    that is not rooted. *)
Definition cleanStep (path : string) (root : bool) (b : lazybuf) (e : string)
  : lazybuf :=
  if String.eqb e EmptyString || String.eqb e "." then b
  else if String.eqb e ".." then
    match elems b with
    | top :: below =>
        if String.eqb top ".." then append path root b e
        else {| elems := below; lazy := lazy b |}
    | [] => if root then b else append path root b e
    end
  else append path root b e.

(** Is there a colon in the first element of [s]? *)
Fixpoint colonInFirst (s : string) : bool :=
  match s with
  | EmptyString => false
  | String c s' =>
      if IsPathSeparator c then false
      else if Ascii.eqb c ":" then true
      else colonInFirst s'
  end.

(** Does [s] begin with a separator and two question marks? *)
Definition rootLocal (s : string) : bool :=
  match s with
  | String c (String "?" (String "?" _)) => IsPathSeparator c
  | _ => false
  end.

(** [postClean]: a cleaned path without a volume is kept from looking
    like one with a drive or like a Root Local Device path. *)
Definition postClean (volLen : nat) (lazy : bool) (out : string) : string :=
  if negb (volLen =? 0)%nat || lazy then out
  else if colonInFirst out then (".\" ++ out)%string
  else if rootLocal out then ("\." ++ out)%string
  else out.

(** [filepath.Clean]. *)
Definition Clean (path : string) : string :=
  let volLen := volumeNameLen path in
  match from volLen path with
  | EmptyString =>
      match path with
      | String c0 (String c1 _) =>
          if (1 <? volLen)%nat && IsPathSeparator c0 && IsPathSeparator c1
          then FromSlash path
          else (path ++ ".")%string
      | _ => (path ++ ".")%string
      end
  | String c _ as rest =>
      let root := IsPathSeparator c in
      let b := fold_left (cleanStep rest root) (split rest)
                 {| elems := [];
                    lazy := negb root || Ascii.eqb c Separator |} in
      let out := render root (rev (elems b)) in
      let '(out, lz) :=
        match out with
        | EmptyString => (".", lazy b && Ascii.eqb c ".")
        | _ => (out, lazy b)
        end in
      FromSlash (upto volLen path ++ postClean volLen lz out)
  end.

(** The leading separators of [e] removed. *)
Fixpoint stripSlashes (e : string) : string :=
  match e with
  | String c e' => if IsPathSeparator c then stripSlashes e' else e
  | EmptyString => EmptyString
  end.

Fixpoint lastByte (s : string) (d : ascii) : ascii :=
  match s with
  | EmptyString => d
  | String c s' => lastByte s' c
  end.

(** One round of the loop of [join]: [b] is the text built so far and
    [lastChar] its last byte. *)
Definition joinStep (st : string * ascii) (e : string) : string * ascii :=
  let '(b, lastChar) := st in
  let '(b, lastChar, e) :=
    if (String.length b =? 0)%nat then (b, lastChar, e)
    else if IsPathSeparator lastChar then
      let e := stripSlashes e in
      (if (String.length b =? 1)%nat && pathHasPrefixFold e "??"
       then (b ++ ".\")%string else b,
       lastChar, e)
    else if Ascii.eqb lastChar ":" then (b, lastChar, e)
    else ((b ++ String Separator EmptyString)%string, Separator, e) in
  match e with
  | EmptyString => (b, lastChar)
  | _ => ((b ++ e)%string, lastByte e lastChar)
  end.

(** [filepath.Join]. *)
Definition Join (elem : list string) : string :=
  let b := fst (fold_left joinStep elem (EmptyString, Ascii.zero)) in
  match b with
  | EmptyString => EmptyString
  | _ => Clean b
  end.

(** A path without its trailing separators. *)
Fixpoint trimSeparators (s : string) : string :=
  match s with
  | EmptyString => EmptyString
  | String c s' =>
      match trimSeparators s' with
      | EmptyString => if IsPathSeparator c then EmptyString
                       else String c EmptyString
      | t => String c t
      end
  end.

(** [filepath.Base]. *)
Definition Base (path : string) : string :=
  match path with
  | EmptyString => "."
  | _ =>
      let path := trimSeparators path in
      let path := from (String.length (VolumeName path)) path in
      match last (split path) EmptyString with
      | EmptyString => String Separator EmptyString
      | e => e
      end
  end.

Fixpoint extScan (r : list ascii) (acc : string) : string :=
  match r with
  | [] => EmptyString
  | c :: r' =>
      if IsPathSeparator c then EmptyString
      else if Ascii.eqb c "." then String c acc
      else extScan r' (String c acc)
  end.

Definition Ext (path : string) : string :=
  extScan (rev (list_ascii_of_string path)) EmptyString.

End filepath.

(* ================================================================== *)
(** * The data the functions exchange *)
(* ================================================================== *)

(** Modelled from the spec: the struct declarations ([AppService],
    [WechatMessage], [MatrixMessage], [BlobData], [LocationData],
    [ReplyInfo]) live in files other than [util.go]; each record has the
    fields that [util.go] reads or writes, with the types the uses
    require. *)
Record AppService : Type := {
  Workdir : string;
  Docdir : string
}.

Record WechatMessage : Type := {
  Self : string;
  Message : string;
  ExtraInfo : string;
  FilePath : string;
  Thumbnail : string
}.

Record MatrixMessage : Type := {
  Data : list byte
}.

Module BlobData.
Record t : Type := mk {
  Name : string;
  Binary : list byte
}.
End BlobData.

Module LocationData.
Record t : Type := mk {
  Name : string;
  Address : string;
  Latitude : float;
  Longitude : float
}.
End LocationData.

Record ReplyInfo : Type := {
  ID : Z;
  Sender : string
}.

(* ================================================================== *)
(** * The outside world: clock, disk, network *)
(* ================================================================== *)

(** Go's [error] values that matter to [util.go]. *)
Inductive error : Type :=
| ErrNotExist
| ErrExist
| ErrPermission.

(** [errors.Is] on these sentinel values. *)
Definition errorsIs (err target : error) : bool :=
  match err, target with
  | ErrNotExist, ErrNotExist => true
  | ErrExist, ErrExist => true
  | ErrPermission, ErrPermission => true
  | _, _ => false
  end.

(** What a path holds at some instant: nothing, something that [os.Stat]
    sees but [os.ReadFile] cannot read (a directory, a file the writer
    still locks), or a readable file. *)
Inductive FileState : Type :=
| Missing
| Unreadable
| Contents (data : list byte).

(** What the program does to the world, in the order it does it.  Times
    are nanoseconds, the unit of Go's [time.Duration]. *)
Inductive Event : Type :=
| EvStat (t : Z) (path : string)
| EvReadFile (t : Z) (path : string)
| EvTimer (t : Z)
| EvDone (t : Z)
| EvGet (url : string)
| EvWriteFile (path : string) (data : list byte).

Record World : Type := {
  now : Z;
  events : list Event
}.

Definition tick (t : Z) (e : Event) (w : World) : World :=
  {| now := t; events := events w ++ [e] |}.

Definition record (e : Event) (w : World) : World :=
  tick (now w) e w.

(** A computation over the world.  [None] is the embedding running out
    of fuel, never an outcome of the program. *)
Definition M (A : Type) : Type := World -> option (A * World).

Definition ret {A : Type} (a : A) : M A :=
  fun w => Some (a, w).

Definition bind {A B : Type} (m : M A) (k : A -> M B) : M B :=
  fun w =>
    match m w with
    | Some (a, w') => k a w'
    | None => None
    end.

Definition outOfFuel {A : Type} : M A :=
  fun _ => None.

Declare Scope world_scope.
Delimit Scope world_scope with world.
Notation "x <- m ;; k" := (bind m (fun x => k))
  (at level 61, m at next level, right associativity) : world_scope.
Notation "' pat <- m ;; k" := (bind m (fun x => match x with pat => k end))
  (at level 61, pat pattern, m at next level, right associativity)
  : world_scope.
Local Open Scope world_scope.

Local Open Scope Z_scope.

(** [time.Second], in nanoseconds. *)
Definition Second : Z := 1000000000.

(** [const MediaDownloadTiemout = 30 * time.Second] *)
Definition MediaDownloadTiemout : Z := 30 * Second.

(** More rounds than any poll loop can make before its deadline. *)
Definition pollFuel : nat := Z.to_nat (MediaDownloadTiemout / Second) + 2.

(** [fmt.Sprintf("%x", ...)] on a byte array: two lowercase hexadecimal
    digits per byte. *)
Definition hexDigit (n : nat) : ascii :=
  match n with
  | 0 => "0" | 1 => "1" | 2 => "2" | 3 => "3" | 4 => "4" | 5 => "5"
  | 6 => "6" | 7 => "7" | 8 => "8" | 9 => "9" | 10 => "a" | 11 => "b"
  | 12 => "c" | 13 => "d" | 14 => "e" | _ => "f"
  end%char%nat.

Fixpoint sprintf_x (bs : list byte) : string :=
  match bs with
  | [] => EmptyString
  | b :: bs' =>
      let n := Byte.to_nat b in
      String (hexDigit (Nat.div n 16))
             (String (hexDigit (Nat.modulo n 16)) (sprintf_x bs'))
  end.

(** Go's [len] on a string, as a number to compare with [0]. *)
Definition len (s : string) : Z := Z.of_nat (String.length s).

(* ================================================================== *)
(** * [internal/util.go] *)
(* ================================================================== *)

Section Agent.

(** ** External collaborators *)

(** [xmlquery.Parse] on the text of a reader; [None] is a parse error. *)
Variable Parse : string -> option Document.

(** [strconv.ParseFloat(s, 64)]; [None] is an error. *)
Variable ParseFloat : string -> option float.

(** The disk through time: what each path holds at each instant. *)
Variable disk : Z -> string -> FileState.

(** A round of a poll loop takes no time here, so the timer armed by
    the round 29 seconds after the start and the deadline come due at
    the same instant, and Go's [select] may take either ready case:
    this is the one taken at such a tie.  In a run whose rounds take
    any time at all the timer is armed after the deadline and the
    deadline comes first, which is [timerFirst = false]. *)
Variable timerFirst : bool.

(** The body of the response to a GET of a URL, gzip undone
    ([HTTPGetReadCloser] followed by [io.ReadAll]); [None] is an
    error. *)
Variable httpGet : string -> option (list byte).

(** [json.Unmarshal] into a [BlobData]; [None] is an error. *)
Variable Unmarshal : list byte -> option BlobData.t.

(** [md5.Sum]. *)
Variable md5_Sum : list byte -> list byte.

(** Does [os.WriteFile] succeed on this path with this content? *)
Variable writable : string -> list byte -> bool.

(** ** Operations on the world *)

(** [os.Stat], its error only. *)
Definition Stat (path : string) : M (option error) :=
  fun w =>
    Some (match disk (now w) path with
          | Missing => Some ErrNotExist
          | _ => None
          end,
          record (EvStat (now w) path) w).

(** [os.ReadFile]: the data ([None] is a nil slice) and the error. *)
Definition ReadFile (path : string) : M (option (list byte) * option error) :=
  fun w =>
    Some (match disk (now w) path with
          | Contents data => (Some data, None)
          | Unreadable => (None, Some ErrPermission)
          | Missing => (None, Some ErrNotExist)
          end,
          record (EvReadFile (now w) path) w).

(** [os.WriteFile]. *)
Definition WriteFile (path : string) (data : list byte) : M (option error) :=
  fun w =>
    Some (if writable path data then None else Some ErrPermission,
          record (EvWriteFile path data) w).

(** [context.WithTimeout(context.Background(), d)]: the deadline. *)
Definition WithTimeout (d : Z) : M Z :=
  fun w => Some (now w + d, w).

(** [select { case <-time.After(d): case <-ctx.Done(): }]: [true] when
    the timer fires first, [false] when the context is done first.
    The clock moves to the instant of whichever happens. *)
Definition selectAfter (d : Z) (deadline : Z) : M bool :=
  fun w =>
    let fire := now w + d in
    if (fire <? deadline) || ((fire =? deadline) && timerFirst)
    then Some (true, tick fire (EvTimer fire) w)
    else
      let t := Z.max (now w) deadline in
      Some (false, tick t (EvDone t) w).

(** ** [PathExists] *)

Definition PathExists (path : string) : M bool :=
  err <- Stat path ;;
  ret (match err with
       | None => true
       | Some e => errorsIs e ErrExist
       end).

(** ** [GetBytes] *)

Definition GetBytes (url : string) : M (option (list byte)) :=
  fun w => Some (httpGet url, record (EvGet url) w).

(** ** The idiom [node == nil || len(node.InnerText()) == 0] *)

Definition nilOrEmpty (node : option Node) : bool :=
  match node with
  | None => true
  | Some n => len (InnerText n) =? 0
  end.

(** [node.InnerText()] for a node that is not nil; the zero string for
    nil, as in [var name string; if nameNode != nil { name = ... }]. *)
Definition text (node : option Node) : string :=
  match node with
  | Some n => InnerText n
  | None => EmptyString
  end.

(** ** [getMentions] *)

(** The result is [None] for Go's nil slice and [Some l] for a non-nil
    slice, which may be empty. *)
Definition getMentions (as_ : AppService) (msg : WechatMessage)
  : option (list string) :=
  if len (ExtraInfo msg) =? 0 then None
  else
    match Parse (ExtraInfo msg) with
    | None => None
    | Some doc =>
        let atuserNode := FindOne doc (Path ["msgsource"; "atuserlist"]) in
        if nilOrEmpty atuserNode then None
        else
          Some (strings.FieldsFunc (strings.TrimSpace (text atuserNode))
                  (fun r => Ascii.eqb r ","))
    end.

(** ** The poll loop shared by the four disk-backed resolvers *)

(** [for { body; select { case <-time.After(1 * time.Second):
    case <-ctx.Done(): return nil } }], where [body] returns a blob
    when it has one.  The four loops of [downloadImage],
    [downloadVoice], [downloadVideo] and [downloadFile] differ in
    [body] only. *)
Fixpoint pollLoop (fuel : nat) (body : M (option BlobData.t)) (deadline : Z)
  : M (option BlobData.t) :=
  match fuel with
  | O => outOfFuel
  | S fuel' =>
      found <- body ;;
      match found with
      | Some blob => ret (Some blob)
      | None =>
          fired <- selectAfter (1 * Second) deadline ;;
          if fired then pollLoop fuel' body deadline
          else ret None
      end
  end.

(** [if err == nil && data != nil { return &BlobData{name, data} }] *)
Definition blobIfRead (name : string)
           (r : option (list byte) * option error) : option BlobData.t :=
  match r with
  | (Some data, None) => Some (BlobData.mk name data)
  | _ => None
  end.

(** The body of the loops of [downloadVoice], [downloadVideo] and
    [downloadFile]. *)
Definition tryFile (file : string) : M (option BlobData.t) :=
  found <- PathExists file ;;
  if found then
    r <- ReadFile file ;;
    ret (blobIfRead (filepath.Base file) r)
  else ret None.

(** ** [downloadImage] *)

Definition imageFile (as_ : AppService) (msg : WechatMessage) : string :=
  filepath.Join [Workdir as_; Self msg; filepath.Base (FilePath msg)].

Definition baseFile (as_ : AppService) (msg : WechatMessage) : string :=
  strings.TrimSuffix (imageFile as_ msg) (filepath.Ext (imageFile as_ msg)).

(** The [switch] of the loop: the first case whose path exists is read,
    and no other; with no case taken, [data] and [err] stay nil. *)
Definition tryImage (as_ : AppService) (msg : WechatMessage)
  : M (option BlobData.t) :=
  let baseFile := baseFile as_ msg in
  let pngFile := (baseFile ++ ".png")%string in
  let gifFile := (baseFile ++ ".gif")%string in
  let jpgFile := (baseFile ++ ".jpg")%string in
  r <- (b <- PathExists baseFile ;;
        if b then ReadFile baseFile
        else
          p <- PathExists pngFile ;;
          if p then ReadFile pngFile
          else
            g <- PathExists gifFile ;;
            if g then ReadFile gifFile
            else
              j <- PathExists jpgFile ;;
              if j then ReadFile jpgFile
              else ret (None, None)) ;;
  ret (blobIfRead (filepath.Base (FilePath msg)) r).

Definition downloadImage (as_ : AppService) (msg : WechatMessage)
  : M (option BlobData.t) :=
  ctx <- WithTimeout MediaDownloadTiemout ;;
  pollLoop pollFuel (tryImage as_ msg) ctx.

(** ** [downloadVoice] *)

Definition voiceFile (as_ : AppService) (msg : WechatMessage) (path : string)
  : string :=
  filepath.Join [Workdir as_; Self msg; (path ++ ".amr")%string].

Definition downloadVoice (as_ : AppService) (msg : WechatMessage)
  : M (option BlobData.t) :=
  match Parse (Message msg) with
  | None => ret None
  | Some doc =>
      let node := FindOne doc (PathAttr ["msg"; "voicemsg"] "clientmsgid") in
      if nilOrEmpty node then ret None
      else
        let path := text node in
        ctx <- WithTimeout MediaDownloadTiemout ;;
        pollLoop pollFuel (tryFile (voiceFile as_ msg path)) ctx
  end.

(** ** [downloadVideo] *)

Definition videoFile (as_ : AppService) (msg : WechatMessage) : string :=
  if 0 <? len (FilePath msg) then
    filepath.Join [Docdir as_; FilePath msg]
  else
    let videoFile := filepath.Join [Docdir as_; Thumbnail msg] in
    (strings.TrimSuffix videoFile (filepath.Ext videoFile) ++ ".mp4")%string.

Definition downloadVideo (as_ : AppService) (msg : WechatMessage)
  : M (option BlobData.t) :=
  ctx <- WithTimeout MediaDownloadTiemout ;;
  pollLoop pollFuel (tryFile (videoFile as_ msg)) ctx.

(** ** [downloadSticker] *)

Definition downloadSticker (as_ : AppService) (msg : WechatMessage)
  : M (option BlobData.t) :=
  match Parse (Message msg) with
  | None => ret None
  | Some doc =>
      let urlNode := FindOne doc (AnyAttr "cdnurl") in
      if nilOrEmpty urlNode then ret None
      else
        let url := text urlNode in
        let hashNode := FindOne doc (AnyAttr "aeskey") in
        if nilOrEmpty hashNode then ret None
        else
          let hash := text hashNode in
          r <- GetBytes url ;;
          match r with
          | Some data => ret (Some (BlobData.mk hash data))
          | None => ret None
          end
  end.

(** ** [parseLocation] *)

Definition parseLocation (as_ : AppService) (msg : WechatMessage)
  : option LocationData.t :=
  match Parse (Message msg) with
  | None => None
  | Some doc =>
      let latitudeNode := FindOne doc (PathAttr ["msg"; "location"] "x") in
      if nilOrEmpty latitudeNode then None
      else
        match ParseFloat (text latitudeNode) with
        | None => None
        | Some latitude =>
            let longitudeNode :=
              FindOne doc (PathAttr ["msg"; "location"] "y") in
            if nilOrEmpty longitudeNode then None
            else
              match ParseFloat (text longitudeNode) with
              | None => None
              | Some longitude =>
                  let nameNode :=
                    FindOne doc (PathAttr ["msg"; "location"] "poiname") in
                  let name := text nameNode in
                  let labelNode :=
                    FindOne doc (PathAttr ["msg"; "location"] "label") in
                  let label := text labelNode in
                  Some (LocationData.mk name label latitude longitude)
              end
        end
  end.

(** ** [parseReply] *)

(** The Go function returns [("", nil)] for no match; here that is
    [None], and a match is the title with the reply record. *)
Definition parseReply (as_ : AppService) (msg : WechatMessage)
  : option (string * ReplyInfo) :=
  match Parse (Message msg) with
  | None => None
  | Some doc =>
      let titleNode := FindOne doc (Path ["msg"; "appmsg"; "title"]) in
      if nilOrEmpty titleNode then None
      else
        let svridNode :=
          FindOne doc (Path ["msg"; "appmsg"; "refermsg"; "svrid"]) in
        if nilOrEmpty svridNode then None
        else
          let userNode :=
            FindOne doc (Path ["msg"; "appmsg"; "refermsg"; "chatusr"]) in
          let userNode :=
            if nilOrEmpty userNode
            then FindOne doc (Path ["msg"; "appmsg"; "refermsg"; "fromusr"])
            else userNode in
          if nilOrEmpty userNode then None
          else
            match strconv.ParseUint (text svridNode) with
            | None => None
            | Some msgId =>
                Some (text titleNode,
                      {| ID := msgId; Sender := text userNode |})
            end
  end.

(** ** [parsePrivateVoIP] *)

Definition parsePrivateVoIP (as_ : AppService) (msg : WechatMessage)
  : string :=
  match Parse (Message msg) with
  | None => EmptyString
  | Some doc =>
      let bubble :=
        match FindOne doc (Path ["voipmsg"]) with
        | Some _ =>
            match FindOne doc (AnyElement "msg") with
            | Some msgNode => ("VoIP: " ++ InnerText msgNode)%string
            | None => EmptyString
            end
        | None => EmptyString
        end in
      match FindOne doc (Path ["voipinvitemsg"]) with
      | Some _ =>
          match FindOne doc (Path ["voipinvitemsg"; "status"]) with
          | Some statusNode =>
              if String.eqb (InnerText statusNode) "1"
              then "VoIP: Started a call"
              else if String.eqb (InnerText statusNode) "2"
              then "VoIP: Call ended"
              else ("VoIP: Unknown status " ++ InnerText statusNode)%string
          | None => bubble
          end
      | None => bubble
      end
  end.

(** ** [downloadFile] *)

Definition downloadFile (as_ : AppService) (msg : WechatMessage)
  : M (option BlobData.t) :=
  ctx <- WithTimeout MediaDownloadTiemout ;;
  let file := filepath.Join [Docdir as_; FilePath msg] in
  pollLoop pollFuel (tryFile file) ctx.

(** ** [saveBlob] *)

(** The path that [saveBlob] writes to. *)
Definition blobPath (as_ : AppService) (data : BlobData.t) : string :=
  if 0 <? len (BlobData.Name data) then
    filepath.Join [Workdir as_; BlobData.Name data]
  else
    filepath.Join [Workdir as_; sprintf_x (md5_Sum (BlobData.Binary data))].

Definition saveBlob (as_ : AppService) (msg : MatrixMessage) : M string :=
  match Unmarshal (Data msg) with
  | None => ret EmptyString
  | Some data =>
      let path := blobPath as_ data in
      err <- WriteFile path (BlobData.Binary data) ;;
      match err with
      | Some _ => ret EmptyString
      | None => ret path
      end
  end.


(* ================================================================ *)
(** * Facts about the library functions *)
(* ================================================================ *)

Lemma append_nil_r (s : string) : (s ++ EmptyString)%string = s.
Proof. induction s as [|c s IH]; simpl; [|rewrite IH]; reflexivity. Qed.

Lemma append_assoc (a b c : string) :
  ((a ++ b) ++ c)%string = (a ++ (b ++ c))%string.
Proof. induction a as [|x a IH]; simpl; [|rewrite IH]; reflexivity. Qed.

Lemma len_zero_iff (s : string) : (len s =? 0) = true <-> s = EmptyString.
Proof.
  unfold len. destruct s as [|c s]; simpl; split; intro H;
    try reflexivity; discriminate.
Qed.

Lemma nilOrEmpty_false (node : option Node) :
  nilOrEmpty node = false <->
  exists n, node = Some n /\ InnerText n <> EmptyString.
Proof.
  destruct node as [n|]; simpl.
  - split.
    + intro H. exists n. split; [reflexivity|].
      intro E. apply len_zero_iff in E. congruence.
    + intros (n' & E & Hne). inversion E; subst n'.
      destruct (len (InnerText n) =? 0) eqn:Hl; [|reflexivity].
      apply len_zero_iff in Hl. contradiction.
  - split; [discriminate|]. intros (n & E & _). discriminate.
Qed.

Lemma nilOrEmpty_true (node : option Node) :
  nilOrEmpty node = true <-> text node = EmptyString.
Proof.
  destruct node as [n|]; simpl.
  - apply len_zero_iff.
  - split; reflexivity.
Qed.

(** A node found by a two-step path has its parent found by the first
    step. *)
Lemma FindOne_parent (doc : Document) (a b : string) (n : Node) :
  FindOne doc (Path [a; b]) = Some n ->
  exists e, FindOne doc (Path [a]) = Some e.
Proof.
  unfold FindOne. simpl.
  destruct (filter (isElement a) doc) as [|e es]; simpl.
  - discriminate.
  - intros _. exists e. reflexivity.
Qed.

(** [fieldsScan] over a run of characters that [f] rejects. *)
Lemma fieldsScan_run (f : ascii -> bool) (x rest : string) (cur : string) :
  strings.existsb f x = false ->
  strings.fieldsScan f (x ++ rest) (Some cur) =
  strings.fieldsScan f rest (Some (cur ++ x)%string).
Proof.
  revert cur. induction x as [|c x IH]; intros cur Hx; simpl in *.
  - rewrite append_nil_r. reflexivity.
  - apply orb_false_iff in Hx. destruct Hx as [Hc Hx].
    rewrite Hc. rewrite IH by assumption.
    rewrite append_assoc. reflexivity.
Qed.

Lemma fieldsScan_first (f : ascii -> bool) (x rest : string) :
  x <> EmptyString ->
  strings.existsb f x = false ->
  strings.fieldsScan f (x ++ rest) None = strings.fieldsScan f rest (Some x).
Proof.
  destruct x as [|c x]; [congruence|]. intros _ Hx. simpl in *.
  apply orb_false_iff in Hx. destruct Hx as [Hc Hx].
  rewrite Hc. rewrite fieldsScan_run by assumption. reflexivity.
Qed.

(** An identifier of a mention list: not empty, and without a comma. *)
Definition identifier (s : string) : Prop :=
  s <> EmptyString /\
  strings.existsb (fun r => Ascii.eqb r ",") s = false.

(** Splitting the comma-joined identifiers gives the identifiers back. *)
Lemma FieldsFunc_Join (ids : list string) :
  Forall identifier ids ->
  strings.FieldsFunc (strings.Join ids ",") (fun r => Ascii.eqb r ",") = ids.
Proof.
  unfold strings.FieldsFunc, strings.Join.
  induction 1 as [|x ids [Hne Hx] Hids IH]; [reflexivity|].
  simpl. destruct ids as [|y ids].
  - rewrite <- (append_nil_r x) at 1.
    rewrite fieldsScan_first by assumption. reflexivity.
  - rewrite fieldsScan_first by assumption.
    simpl. simpl in IH. rewrite IH. reflexivity.
Qed.

Lemma Join_identifiers_nonempty (ids : list string) :
  ids <> [] -> Forall identifier ids ->
  strings.Join ids "," <> EmptyString.
Proof.
  intros Hne Hids. destruct ids as [|x ids]; [congruence|].
  inversion Hids as [|? ? [Hx _] _]; subst.
  unfold strings.Join. simpl.
  destruct x as [|c x]; [congruence|].
  destruct ids; simpl; discriminate.
Qed.

(** The decimal digits of a string, read as a number after [n]. *)
Fixpoint decimalValue (s : string) (n : Z) : Z :=
  match s with
  | EmptyString => n
  | String c s' =>
      match strconv.digit c with
      | Some d => decimalValue s' (n * 10 + d)
      | None => n
      end
  end.

Fixpoint allDigits (s : string) : bool :=
  match s with
  | EmptyString => true
  | String c s' =>
      match strconv.digit c with
      | Some _ => allDigits s'
      | None => false
      end
  end.

Lemma digit_range (c : ascii) (d : Z) :
  strconv.digit c = Some d -> 0 <= d <= 9.
Proof.
  unfold strconv.digit.
  destruct ((48 <=? Z.of_nat (nat_of_ascii c))
            && (Z.of_nat (nat_of_ascii c) <=? 57)) eqn:E; [|discriminate].
  intro H. inversion H; subst. apply andb_true_iff in E.
  destruct E as [E1 E2]. apply Z.leb_le in E1, E2. lia.
Qed.

Lemma decimalValue_ge (s : string) (n : Z) :
  0 <= n -> n <= decimalValue s n.
Proof.
  revert n. induction s as [|c s IH]; intros n Hn; simpl; [lia|].
  destruct (strconv.digit c) as [d|] eqn:E; [|lia].
  apply digit_range in E. specialize (IH (n * 10 + d)). lia.
Qed.

Lemma parseDigits_spec (s : string) (n m : Z) :
  0 <= n <= strconv.maxUint64 ->
  (strconv.parseDigits s n = Some m <->
   allDigits s = true /\ decimalValue s n = m /\ m <= strconv.maxUint64).
Proof.
  revert n. induction s as [|c s IH]; intros n Hn;
    cbn [strconv.parseDigits allDigits decimalValue].
  - split.
    + intro H. inversion H; subst. repeat split; lia.
    + intros (_ & H & _). congruence.
  - destruct (strconv.digit c) as [d|] eqn:E.
    2:{ split; [discriminate|]. intros (H & _). discriminate. }
    pose proof (digit_range c d E) as Hd.
    assert (Hmax : strconv.maxUint64 = 18446744073709551615) by reflexivity.
    assert (Hcut : strconv.maxUint64 / 10 + 1 = 1844674407370955162)
      by reflexivity.
    pose proof (decimalValue_ge s (n * 10 + d)) as Hge.
    rewrite Hcut.
    destruct (1844674407370955162 <=? n) eqn:C.
    { apply Z.leb_le in C. split; [discriminate|].
      intros (_ & Hv & Hm). lia. }
    apply Z.leb_gt in C.
    destruct (strconv.maxUint64 <? n * 10 + d) eqn:R.
    { apply Z.ltb_lt in R. split; [discriminate|].
      intros (_ & Hv & Hm). lia. }
    apply Z.ltb_ge in R. apply IH. lia.
Qed.

(** [ParseUint] accepts exactly the non-empty strings of decimal digits
    whose value fits 64 bits, and returns that value. *)
Lemma ParseUint_spec (s : string) (m : Z) :
  strconv.ParseUint s = Some m <->
  s <> EmptyString /\ allDigits s = true /\
  decimalValue s 0 = m /\ 0 <= m <= strconv.maxUint64.
Proof.
  assert (H0 : 0 <= 0 <= strconv.maxUint64) by (split; [lia|discriminate]).
  pose proof (decimalValue_ge s 0) as Hge.
  destruct s as [|c s].
  - simpl. split; [discriminate|]. intros (H & _). congruence.
  - unfold strconv.ParseUint. rewrite (parseDigits_spec _ 0 m H0). split.
    + intros (Ha & Hv & Hm). repeat split; try assumption; try discriminate.
      lia.
    + intros (_ & Ha & Hv & Hm). repeat split; try assumption. lia.
Qed.

(* ================================================================ *)
(** * Facts about strings *)
(* ================================================================ *)

Lemma length_append (a b : string) :
  String.length (a ++ b) = (String.length a + String.length b)%nat.
Proof. induction a as [|c a IH]; simpl; [|rewrite IH]; reflexivity. Qed.

Lemma append_inj_l (p a b : string) :
  (p ++ a)%string = (p ++ b)%string -> a = b.
Proof.
  induction p as [|c p IH]; simpl; intro H; [exact H|].
  inversion H. auto.
Qed.

Lemma list_ascii_of_string_app (a b : string) :
  list_ascii_of_string (a ++ b)
  = list_ascii_of_string a ++ list_ascii_of_string b.
Proof. induction a as [|c a IH]; simpl; [|rewrite IH]; reflexivity. Qed.

Lemma string_of_list_ascii_app (l m : list ascii) :
  string_of_list_ascii (l ++ m)
  = (string_of_list_ascii l ++ string_of_list_ascii m)%string.
Proof. induction l as [|c l IH]; simpl; [|rewrite IH]; reflexivity. Qed.

Lemma strRev_app (a b : string) :
  strings.strRev (a ++ b) = (strings.strRev b ++ strings.strRev a)%string.
Proof.
  unfold strings.strRev.
  rewrite list_ascii_of_string_app, rev_app_distr.
  apply string_of_list_ascii_app.
Qed.

Lemma substring_whole (s : string) : substring 0 (String.length s) s = s.
Proof. induction s as [|c s IH]; simpl; [|rewrite IH]; reflexivity. Qed.

Lemma substring_prefix (a e : string) :
  substring 0 (String.length a) (a ++ e) = a.
Proof.
  induction a as [|c a IH]; simpl.
  - destruct e; reflexivity.
  - rewrite IH. reflexivity.
Qed.

Lemma HasPrefix_app (p a b : string) :
  strings.HasPrefix (p ++ a) (p ++ b) = strings.HasPrefix a b.
Proof.
  induction p as [|c p IH]; simpl; [reflexivity|].
  rewrite Ascii.eqb_refl. exact IH.
Qed.

Lemma HasPrefix_sound (s p : string) :
  strings.HasPrefix s p = true -> exists r, s = (p ++ r)%string.
Proof.
  revert s. induction p as [|c p IH]; intros s H.
  - exists s. reflexivity.
  - destruct s as [|x s]; simpl in H; [discriminate|].
    apply andb_true_iff in H. destruct H as [Hc Hp].
    apply Ascii.eqb_eq in Hc. subst x.
    destruct (IH s Hp) as [r ->]. exists r. reflexivity.
Qed.

Lemma HasPrefix_self_app (p r : string) : strings.HasPrefix (p ++ r) p = true.
Proof.
  induction p as [|c p IH]; simpl.
  - destruct r; reflexivity.
  - rewrite Ascii.eqb_refl. exact IH.
Qed.

Lemma existsb_app (f : ascii -> bool) (a b : string) :
  strings.existsb f (a ++ b) = strings.existsb f a || strings.existsb f b.
Proof.
  induction a as [|c a IH]; simpl; [reflexivity|].
  rewrite IH, orb_assoc. reflexivity.
Qed.

Lemma TrimSuffix_empty (s : string) : strings.TrimSuffix s EmptyString = s.
Proof.
  unfold strings.TrimSuffix, strings.HasSuffix. cbn.
  replace (strings.HasPrefix (strings.strRev s) EmptyString) with true
    by (destruct (strings.strRev s); reflexivity).
  rewrite Nat.sub_0_r. apply substring_whole.
Qed.

(** Trimming a suffix that is there leaves what is before it. *)
Lemma TrimSuffix_app (a e : string) : strings.TrimSuffix (a ++ e) e = a.
Proof.
  unfold strings.TrimSuffix, strings.HasSuffix.
  rewrite strRev_app, HasPrefix_self_app, length_append.
  replace (String.length a + String.length e - String.length e)%nat
    with (String.length a) by lia.
  apply substring_prefix.
Qed.

(* ================================================================ *)
(** * Facts about paths *)
(* ================================================================ *)

(** A string without a separator. *)
Definition sepFree (e : string) : Prop :=
  strings.existsb filepath.IsPathSeparator e = false.

(** A path element as [Clean] leaves it: not empty, no separator. *)
Definition element (e : string) : Prop :=
  e <> EmptyString /\ sepFree e.

(** A string without a colon. *)
Definition colonFree (e : string) : Prop :=
  strings.existsb (Ascii.eqb ":") e = false.

(** An ordinary name: an element other than [.] and [..], without the
    colon, which Windows keeps for drives and streams. *)
Definition plainName (e : string) : Prop :=
  element e /\ colonFree e /\ e <> "." /\ e <> "..".

(** A drive letter. *)
Definition letter (c : ascii) : bool :=
  let n := nat_of_ascii c in
  ((65 <=? n) && (n <=? 90) || (97 <=? n) && (n <=? 122))%nat.

(** The volume name of the drive [c]. *)
Definition drive (c : ascii) : string := String c ":".

Definition sepString : string := String filepath.Separator EmptyString.

(** [dir] is the directory of the ordinary names [es] on the drive
    [c], from the root of the drive ([C:\a\b]) or from its current
    directory ([C:a\b]). *)
Definition onDrive (dir : string) (c : ascii) (root : bool)
           (es : list string) : Prop :=
  letter c = true /\ Forall plainName es /\ es <> [] /\
  dir = (drive c ++ filepath.render root es)%string.

(** Is [path] the directory [dir] or a path below it? *)
Definition inside (dir path : string) : bool :=
  String.eqb path dir || strings.HasPrefix path (dir ++ sepString).

(** What one round of the loop of [Clean] does to the elements. *)
Definition cleanList (root : bool) (out : list string) (e : string)
  : list string :=
  if String.eqb e EmptyString || String.eqb e "." then out
  else if String.eqb e ".." then
    match out with
    | top :: below => if String.eqb top ".." then e :: out else below
    | [] => if root then [] else [e]
    end
  else e :: out.

(** The text that [Clean] returns for the text of its buffer. *)
Definition orDot (out : string) : string :=
  match out with
  | EmptyString => "."
  | _ => out
  end.

(** The text of a rendered path before its last element. *)
Fixpoint dirPrefix (ds : list string) : string :=
  match ds with
  | [] => EmptyString
  | d :: ds' => (d ++ sepString ++ dirPrefix ds')%string
  end.

(** Can [Join] put a separator and the next element after [dir]?  It
    does when [dir] is not empty and ends neither with a separator nor
    with a colon. *)
Definition joinable (dir : string) : Prop :=
  dir <> EmptyString /\
  filepath.IsPathSeparator (filepath.lastByte dir Ascii.zero) = false /\
  Ascii.eqb (filepath.lastByte dir Ascii.zero) ":" = false.

Lemma Separator_separates :
  filepath.IsPathSeparator filepath.Separator = true.
Proof. reflexivity. Qed.

Lemma plainName_element (e : string) : plainName e -> element e.
Proof. intros [H _]. exact H. Qed.

Lemma plainName_sepFree (e : string) : plainName e -> sepFree e.
Proof. intros [[_ H] _]. exact H. Qed.

(** An ordinary name, by evaluation. *)
Lemma plainName_literal (name : string) :
  name <> EmptyString ->
  strings.existsb filepath.IsPathSeparator name = false ->
  strings.existsb (Ascii.eqb ":") name = false ->
  String.eqb name "." = false ->
  String.eqb name ".." = false ->
  plainName name.
Proof.
  intros H1 H2 H3 H4 H5. split; [split; assumption|].
  split; [exact H3|]. split; apply String.eqb_neq; assumption.
Qed.

Lemma letter_not_separator (c : ascii) :
  letter c = true ->
  filepath.IsPathSeparator c = false /\ Ascii.eqb c "/" = false /\
  Ascii.eqb c "." = false.
Proof.
  destruct c as [[] [] [] [] [] [] [] []]; cbv; intro H;
    try discriminate H; repeat split; reflexivity.
Qed.

(** ** Splitting into elements *)

Lemma split_not_nil (p : string) : filepath.split p <> [].
Proof.
  destruct p as [|c p]; simpl; [discriminate|].
  destruct (filepath.IsPathSeparator c); [discriminate|].
  destruct (filepath.split p); discriminate.
Qed.

Lemma split_app_sep (a : string) (c : ascii) (b : string) :
  filepath.IsPathSeparator c = true ->
  filepath.split (a ++ String c b) = filepath.split a ++ filepath.split b.
Proof.
  intro Hc. induction a as [|x a IH]; simpl.
  - rewrite Hc. reflexivity.
  - destruct (filepath.IsPathSeparator x).
    + rewrite IH. reflexivity.
    + rewrite IH. destruct (filepath.split a) as [|e es] eqn:E.
      * exfalso. exact (split_not_nil a E).
      * reflexivity.
Qed.

Lemma split_sepFree (x : string) : sepFree x -> filepath.split x = [x].
Proof.
  unfold sepFree. induction x as [|c x IH]; simpl; intro H; [reflexivity|].
  apply orb_false_iff in H. destruct H as [Hc Hx].
  rewrite Hc, (IH Hx). reflexivity.
Qed.

Lemma split_elements_sepFree (p : string) : Forall sepFree (filepath.split p).
Proof.
  induction p as [|c p IH]; simpl.
  - constructor; [reflexivity|constructor].
  - destruct (filepath.IsPathSeparator c) eqn:Hc.
    + constructor; [reflexivity|exact IH].
    + destruct (filepath.split p) as [|e es].
      * constructor; [|constructor]. unfold sepFree. simpl.
        rewrite Hc. reflexivity.
      * inversion IH as [|? ? He Hes]; subst. constructor; [|exact Hes].
        unfold sepFree in *. simpl. rewrite Hc. exact He.
Qed.

Lemma split_concat (l : list string) :
  Forall sepFree l -> l <> [] ->
  filepath.split (String.concat sepString l) = l.
Proof.
  induction 1 as [|x l Hx Hl IH]; intro Hne; [congruence|].
  destruct l as [|y l].
  - simpl. apply split_sepFree. exact Hx.
  - change (String.concat sepString (x :: y :: l))
      with (x ++ String filepath.Separator
                   (String.concat sepString (y :: l)))%string.
    rewrite split_app_sep by apply Separator_separates.
    rewrite (split_sepFree x Hx), IH by discriminate. reflexivity.
Qed.

(** Appending text without a separator extends the last element. *)
Lemma split_app_sepFree (a b : string) :
  sepFree b ->
  exists init x,
    filepath.split a = init ++ [x] /\
    filepath.split (a ++ b) = init ++ [(x ++ b)%string].
Proof.
  intro Hb. induction a as [|c a (init & x & Ha & Hab)].
  - exists [], EmptyString. split; [reflexivity|].
    simpl. apply split_sepFree. exact Hb.
  - cbn [append filepath.split]. rewrite Ha, Hab.
    destruct (filepath.IsPathSeparator c).
    + exists (EmptyString :: init), x. split; reflexivity.
    + destruct init as [|e init].
      * exists [], (String c x). split; reflexivity.
      * exists (String c e :: init), x. split; reflexivity.
Qed.

Lemma split_render (root : bool) (es : list string) :
  Forall sepFree es -> es <> [] ->
  filepath.split (filepath.render root es)
  = (if root then [EmptyString] else []) ++ es.
Proof.
  intros Hes Hne. unfold filepath.render. fold sepString. destruct root.
  - simpl. rewrite split_concat by assumption. reflexivity.
  - simpl. apply split_concat; assumption.
Qed.

(** ** The text of a rendered path *)

Lemma concat_snoc (ds : list string) (e : string) :
  String.concat sepString (ds ++ [e]) = (dirPrefix ds ++ e)%string.
Proof.
  induction ds as [|d ds IH]; [reflexivity|].
  change (String.concat sepString ((d :: ds) ++ [e]))
    with (String.concat sepString (d :: (ds ++ [e]))).
  destruct (ds ++ [e]) as [|y l] eqn:E.
  - destruct ds; discriminate.
  - change (String.concat sepString (d :: y :: l))
      with (d ++ sepString ++ String.concat sepString (y :: l))%string.
    rewrite IH. cbn [dirPrefix]. rewrite !append_assoc. reflexivity.
Qed.

Lemma concat_app (es l : list string) :
  es <> [] -> l <> [] ->
  String.concat sepString (es ++ l)
  = (String.concat sepString es ++ sepString
       ++ String.concat sepString l)%string.
Proof.
  intros Hes Hl. induction es as [|e es IH]; [congruence|].
  destruct es as [|e' es].
  - destruct l as [|y l]; [congruence|]. reflexivity.
  - change (String.concat sepString ((e :: e' :: es) ++ l))
      with (e ++ sepString ++ String.concat sepString ((e' :: es) ++ l))%string.
    rewrite IH by discriminate.
    change (String.concat sepString (e :: e' :: es))
      with (e ++ sepString ++ String.concat sepString (e' :: es))%string.
    rewrite !append_assoc. reflexivity.
Qed.

Lemma render_snoc (root : bool) (ds : list string) (e : string) :
  filepath.render root (ds ++ [e])
  = ((if root then sepString else EmptyString) ++ dirPrefix ds ++ e)%string.
Proof.
  unfold filepath.render. fold sepString. rewrite concat_snoc. reflexivity.
Qed.

Lemma dirPrefix_snoc (ds : list string) (e : string) :
  dirPrefix (ds ++ [e]) = (dirPrefix ds ++ e ++ sepString)%string.
Proof.
  induction ds as [|d ds IH]; cbn [app dirPrefix append].
  - unfold sepString. reflexivity.
  - rewrite IH, !append_assoc. reflexivity.
Qed.

(** A path below a rendered directory is the directory, a separator
    and the rest. *)
Lemma render_app (root : bool) (es l : list string) :
  es <> [] -> l <> [] ->
  filepath.render root (es ++ l)
  = (filepath.render root es ++ sepString
       ++ String.concat sepString l)%string.
Proof.
  intros Hes Hl. unfold filepath.render. fold sepString.
  rewrite concat_app by assumption. rewrite !append_assoc. reflexivity.
Qed.

Lemma render_not_empty (root : bool) (es : list string) :
  Forall element es -> es <> [] ->
  filepath.render root es <> EmptyString.
Proof.
  intros Hes Hne E. unfold filepath.render in E.
  destruct root; [discriminate|].
  destruct es as [|e es]; [congruence|].
  inversion Hes as [|? ? [He _] _]; subst.
  destruct e as [|c e]; [congruence|].
  destruct es; simpl in E; discriminate.
Qed.

Lemma orDot_render (root : bool) (es : list string) :
  Forall element es -> es <> [] ->
  orDot (filepath.render root es) = filepath.render root es.
Proof.
  intros Hes Hne. pose proof (render_not_empty root es Hes Hne) as H.
  destruct (filepath.render root es); [congruence|reflexivity].
Qed.

(** The first byte of a rendered path tells whether it is rooted. *)
Lemma render_first (root : bool) (es : list string) (tail : string) :
  Forall element es -> es <> [] ->
  exists c0 rest',
    (filepath.render root es ++ tail)%string = String c0 rest' /\
    filepath.IsPathSeparator c0 = root.
Proof.
  intros Hes Hne. unfold filepath.render. destruct root.
  - eexists _, _. split; reflexivity.
  - destruct es as [|e es]; [congruence|].
    inversion Hes as [|? ? [He Hfree] _]; subst.
    destruct e as [|c e]; [congruence|].
    unfold sepFree in Hfree. simpl in Hfree.
    apply orb_false_iff in Hfree. destruct Hfree as [Hc _].
    exists c. destruct es; simpl; eexists; (split; [reflexivity|exact Hc]).
Qed.

(** ** [FromSlash] *)

Lemma FromSlash_app (a b : string) :
  filepath.FromSlash (a ++ b)
  = (filepath.FromSlash a ++ filepath.FromSlash b)%string.
Proof. induction a as [|c a IH]; simpl; [|rewrite IH]; reflexivity. Qed.

Lemma FromSlash_sepFree (s : string) :
  sepFree s -> filepath.FromSlash s = s.
Proof.
  unfold sepFree. induction s as [|c s IH]; simpl; intro H; [reflexivity|].
  apply orb_false_iff in H. destruct H as [Hc Hs].
  unfold filepath.IsPathSeparator in Hc. apply orb_false_iff in Hc.
  destruct Hc as [_ Hc]. rewrite Hc, (IH Hs). reflexivity.
Qed.

Lemma FromSlash_concat (es : list string) :
  Forall sepFree es ->
  filepath.FromSlash (String.concat sepString es)
  = String.concat sepString es.
Proof.
  induction 1 as [|e es He Hes IH]; [reflexivity|].
  destruct es as [|e' es].
  - simpl. apply FromSlash_sepFree. exact He.
  - change (String.concat sepString (e :: e' :: es))
      with (e ++ sepString ++ String.concat sepString (e' :: es))%string.
    rewrite !FromSlash_app, IH, (FromSlash_sepFree e He). reflexivity.
Qed.

Lemma FromSlash_render (root : bool) (es : list string) :
  Forall sepFree es ->
  filepath.FromSlash (filepath.render root es) = filepath.render root es.
Proof.
  intro Hes. unfold filepath.render. fold sepString.
  rewrite FromSlash_app, FromSlash_concat by assumption.
  destruct root; reflexivity.
Qed.

(** ** The elements that [Clean] keeps *)

Lemma elems_cleanStep (path : string) (root : bool) (b : filepath.lazybuf)
      (e : string) :
  filepath.elems (filepath.cleanStep path root b e)
  = cleanList root (filepath.elems b) e.
Proof.
  destruct b as [out lz]. unfold filepath.cleanStep, cleanList.
  cbn [filepath.elems].
  destruct (String.eqb e EmptyString || String.eqb e "."); [reflexivity|].
  destruct (String.eqb e "..").
  - destruct out as [|top below].
    + destruct root; reflexivity.
    + destruct (String.eqb top ".."); reflexivity.
  - reflexivity.
Qed.

Lemma elems_fold (path : string) (root : bool) (l : list string)
      (b : filepath.lazybuf) :
  filepath.elems (fold_left (filepath.cleanStep path root) l b)
  = fold_left (cleanList root) l (filepath.elems b).
Proof.
  revert b. induction l as [|e l IH]; intro b; [reflexivity|].
  simpl. rewrite IH, elems_cleanStep. reflexivity.
Qed.

Lemma cleanList_elements (root : bool) (out : list string) (e : string) :
  Forall element out -> sepFree e ->
  Forall element (cleanList root out e).
Proof.
  intros Hout He. unfold cleanList.
  destruct (String.eqb e EmptyString) eqn:E0; [exact Hout|].
  destruct (String.eqb e ".") eqn:E1; [exact Hout|]. simpl.
  assert (Helem : element e).
  { split; [|exact He]. apply String.eqb_neq. exact E0. }
  destruct (String.eqb e "..") eqn:E2.
  - destruct out as [|top below].
    + destruct root; [constructor|]. constructor; [exact Helem|constructor].
    + destruct (String.eqb top "..").
      * constructor; assumption.
      * inversion Hout; assumption.
  - constructor; assumption.
Qed.

Lemma fold_cleanList_elements (root : bool) (l out : list string) :
  Forall sepFree l -> Forall element out ->
  Forall element (fold_left (cleanList root) l out).
Proof.
  revert out. induction l as [|e l IH]; intros out Hl Hout; simpl.
  - exact Hout.
  - inversion Hl; subst. apply IH; [assumption|].
    apply cleanList_elements; assumption.
Qed.

(** An element that is neither empty nor [.] nor [..] is kept. *)
Lemma cleanList_kept (root : bool) (out : list string) (e : string) :
  e <> EmptyString -> e <> "." -> e <> ".." ->
  cleanList root out e = e :: out.
Proof.
  intros Hne Hdot Hdotdot. unfold cleanList.
  apply String.eqb_neq in Hne, Hdot, Hdotdot.
  rewrite Hne, Hdot, Hdotdot. reflexivity.
Qed.

Lemma cleanList_plainName (root : bool) (out : list string) (e : string) :
  plainName e -> cleanList root out e = e :: out.
Proof.
  intros [[Hne _] [_ [Hdot Hdotdot]]]. apply cleanList_kept; assumption.
Qed.

Lemma fold_cleanList_plainNames (root : bool) (l out : list string) :
  Forall plainName l ->
  fold_left (cleanList root) l out = rev l ++ out.
Proof.
  revert out. induction l as [|e l IH]; intros out Hl; [reflexivity|].
  inversion Hl; subst. simpl.
  rewrite cleanList_plainName by assumption.
  rewrite IH by assumption. rewrite <- app_assoc. reflexivity.
Qed.

(** ** [Clean] on a drive *)

(** On a path with a drive letter, [Clean] keeps the drive and cleans
    the rest element by element: [postClean] has nothing to do. *)
Lemma Clean_drive (c c0 : ascii) (rest' : string) :
  letter c = true ->
  let rest := String c0 rest' in
  let root := filepath.IsPathSeparator c0 in
  filepath.Clean (drive c ++ rest)
  = (drive c
       ++ orDot (filepath.render root
                   (rev (fold_left (cleanList root)
                                   (filepath.split rest) []))))%string.
Proof.
  intros Hc rest root.
  destruct (letter_not_separator c Hc) as (_ & Hslash & _).
  unfold filepath.Clean.
  change (filepath.volumeNameLen (drive c ++ rest)) with 2%nat.
  change (filepath.from 2 (drive c ++ rest)) with (String c0 rest').
  cbv iota beta. fold rest root.
  rewrite elems_fold. cbn [filepath.elems].
  set (out := fold_left (cleanList root) (filepath.split rest) []).
  assert (Hout : Forall sepFree (rev out)).
  { apply Forall_rev. unfold out.
    eapply Forall_impl;
      [|apply fold_cleanList_elements;
        [apply split_elements_sepFree|constructor]].
    intros e [_ H]. exact H. }
  change (filepath.upto 2 (drive c ++ rest)) with (drive c).
  assert (Hpost : forall lz o, filepath.postClean 2 lz o = o)
    by reflexivity.
  destruct (filepath.render root (rev out)) eqn:E.
  - rewrite Hpost. unfold drive. simpl. rewrite Hslash. reflexivity.
  - rewrite Hpost, <- E, FromSlash_app, FromSlash_render by exact Hout.
    unfold drive. simpl filepath.FromSlash. rewrite Hslash.
    rewrite E. reflexivity.
Qed.

(** Cleaning a path that goes on below a directory on a drive: the
    elements of the directory are kept, and those that follow are
    cleaned after them. *)
Lemma Clean_under (dir : string) (c : ascii) (root : bool)
      (es : list string) (t : string) :
  onDrive dir c root es ->
  filepath.Clean (dir ++ String filepath.Separator t)
  = (drive c
       ++ orDot (filepath.render root
                   (rev (fold_left (cleanList root) (filepath.split t)
                                   (rev es)))))%string.
Proof.
  intros (Hc & Hes & Hne & ->).
  assert (Helems : Forall element es).
  { eapply Forall_impl; [|exact Hes]. apply plainName_element. }
  assert (Hfree : Forall sepFree es).
  { eapply Forall_impl; [|exact Hes]. apply plainName_sepFree. }
  destruct (render_first root es (String filepath.Separator t) Helems Hne)
    as (c0 & rest' & Hrest & Hroot).
  rewrite append_assoc, Hrest.
  rewrite (Clean_drive c c0 rest' Hc). cbv zeta. rewrite Hroot, <- Hrest.
  rewrite split_app_sep by apply Separator_separates.
  rewrite split_render by assumption.
  do 2 rewrite fold_left_app.
  replace (fold_left (cleanList root)
                     (if root then [EmptyString] else []) [])
    with (@nil string) by (destruct root; reflexivity).
  rewrite (fold_cleanList_plainNames root es [] Hes), app_nil_r.
  reflexivity.
Qed.

(** ** [Join] *)

Lemma lastByte_app (a b : string) (d : ascii) :
  filepath.lastByte (a ++ b) d
  = filepath.lastByte b (filepath.lastByte a d).
Proof. revert d. induction a as [|c a IH]; intro d; simpl; auto. Qed.

(** The last byte of a string that is not empty is one of its bytes. *)
Lemma lastByte_existsb (f : ascii -> bool) (s : string) (d : ascii) :
  s <> EmptyString -> strings.existsb f s = false ->
  f (filepath.lastByte s d) = false.
Proof.
  revert d. induction s as [|c s IH]; intros d Hne H; [congruence|].
  simpl in H. apply orb_false_iff in H. destruct H as [Hc Hs].
  destruct s as [|c' s]; [exact Hc|].
  apply (IH c); [discriminate|exact Hs].
Qed.

Lemma plainName_joinable (e : string) : plainName e -> joinable e.
Proof.
  intros [[Hne Hfree] [Hcolon _]]. split; [exact Hne|]. split.
  - apply lastByte_existsb; assumption.
  - rewrite Ascii.eqb_sym. apply (lastByte_existsb (Ascii.eqb ":"));
      assumption.
Qed.

Lemma joinable_app (a b : string) : joinable b -> joinable (a ++ b).
Proof.
  intros (Hne & Hsep & Hcolon). split; [|split].
  - destruct a; [exact Hne|discriminate].
  - rewrite lastByte_app. destruct b as [|c b]; [congruence|]. exact Hsep.
  - rewrite lastByte_app. destruct b as [|c b]; [congruence|]. exact Hcolon.
Qed.

Lemma onDrive_joinable (dir : string) (c : ascii) (root : bool)
      (es : list string) :
  onDrive dir c root es -> joinable dir.
Proof.
  intros (_ & Hes & Hne & ->).
  destruct (exists_last Hne) as (ds & e & ->).
  rewrite render_snoc, <- !append_assoc. apply joinable_app.
  apply plainName_joinable. apply Forall_app in Hes.
  destruct Hes as [_ He]. apply Forall_inv in He. exact He.
Qed.

(** One round of the loop of [join] after text that can take a
    separator. *)
Lemma joinStep_joinable (b : string) (lastChar : ascii) (e : string) :
  b <> EmptyString ->
  filepath.IsPathSeparator lastChar = false ->
  Ascii.eqb lastChar ":" = false ->
  filepath.joinStep (b, lastChar) e
  = ((b ++ String filepath.Separator e)%string,
     filepath.lastByte e filepath.Separator).
Proof.
  intros Hne Hsep Hcolon. unfold filepath.joinStep.
  destruct b as [|c b]; [congruence|].
  cbn [String.length Nat.eqb]. rewrite Hsep, Hcolon.
  destruct e as [|x e].
  - reflexivity.
  - rewrite append_assoc. reflexivity.
Qed.

Lemma lastByte_cons (c : ascii) (s : string) (d d' : ascii) :
  filepath.lastByte (String c s) d = filepath.lastByte (String c s) d'.
Proof. reflexivity. Qed.

(** [Join] of two elements, the first of which can take a separator:
    the second is cleaned after the first and a separator. *)
Lemma Join_two (dir t : string) :
  joinable dir ->
  filepath.Join [dir; t]
  = filepath.Clean (dir ++ String filepath.Separator t).
Proof.
  intros (Hne & Hsep & Hcolon). unfold filepath.Join.
  destruct dir as [|c dir]; [congruence|].
  cbn [fold_left].
  change (filepath.joinStep (EmptyString, Ascii.zero) (String c dir))
    with (String c dir, filepath.lastByte (String c dir) Ascii.zero).
  rewrite joinStep_joinable by (assumption || discriminate).
  reflexivity.
Qed.

(** [Join] of three elements, the first two of which can take a
    separator. *)
Lemma Join_three (dir a t : string) :
  joinable dir -> joinable a ->
  filepath.Join [dir; a; t]
  = filepath.Clean
      (dir ++ String filepath.Separator (a ++ String filepath.Separator t)).
Proof.
  intros (Hne & Hsep & Hcolon) (Hane & Hasep & Hacolon).
  unfold filepath.Join.
  destruct dir as [|c dir]; [congruence|].
  destruct a as [|y a]; [congruence|].
  cbn [fold_left].
  change (filepath.joinStep (EmptyString, Ascii.zero) (String c dir))
    with (String c dir, filepath.lastByte (String c dir) Ascii.zero).
  rewrite joinStep_joinable by (assumption || discriminate).
  rewrite joinStep_joinable;
    [|discriminate
     |rewrite (lastByte_cons y a _ Ascii.zero); exact Hasep
     |rewrite (lastByte_cons y a _ Ascii.zero); exact Hacolon].
  cbn [fst append]. rewrite !append_assoc. reflexivity.
Qed.

(** Joining a directory on a drive with an ordinary name puts the name
    below it. *)
Lemma Join_plain (dir : string) (c : ascii) (root : bool)
      (es : list string) (x : string) :
  onDrive dir c root es -> plainName x ->
  filepath.Join [dir; x] = (dir ++ String filepath.Separator x)%string /\
  filepath.Join [dir; x]
  = (drive c ++ filepath.render root (es ++ [x]))%string.
Proof.
  intros Hdir Hx.
  rewrite (Join_two dir x (onDrive_joinable _ _ _ _ Hdir)).
  rewrite (Clean_under dir c root es x Hdir).
  destruct Hdir as (Hc & Hes & Hne & ->).
  rewrite (split_sepFree x (plainName_sepFree x Hx)). cbn [fold_left].
  rewrite cleanList_plainName by exact Hx. cbn [rev].
  rewrite rev_involutive.
  rewrite orDot_render.
  - split; [|reflexivity].
    rewrite render_app by (assumption || discriminate).
    rewrite append_assoc. reflexivity.
  - apply Forall_app. split.
    + eapply Forall_impl; [|exact Hes]. apply plainName_element.
    + constructor; [apply plainName_element; exact Hx|constructor].
  - destruct es; discriminate.
Qed.

(** Joining a directory on a drive with [..\x] replaces the last
    element of the directory by [x]. *)
Lemma Join_dotdot (dir : string) (c : ascii) (root : bool)
      (ds : list string) (top x : string) (s : ascii) :
  onDrive dir c root (ds ++ [top]) ->
  plainName x ->
  filepath.IsPathSeparator s = true ->
  filepath.Join [dir; (".." ++ String s x)%string]
  = (drive c ++ filepath.render root (ds ++ [x]))%string.
Proof.
  intros Hdir Hx Hs.
  rewrite (Join_two dir _ (onDrive_joinable _ _ _ _ Hdir)).
  rewrite (Clean_under dir c root _ _ Hdir).
  destruct Hdir as (Hc & Hes & Hne & ->).
  rewrite (split_app_sep ".." s x Hs).
  rewrite (split_sepFree x (plainName_sepFree x Hx)).
  change (filepath.split "..") with [".."].
  rewrite rev_app_distr. cbn [rev app fold_left].
  assert (Htop : String.eqb top ".." = false).
  { apply String.eqb_neq. apply Forall_app in Hes.
    destruct Hes as [_ Ht]. apply Forall_inv in Ht.
    destruct Ht as (_ & _ & _ & H). exact H. }
  change (cleanList root (top :: rev ds) "..")
    with (if String.eqb top ".." then ".." :: top :: rev ds else rev ds).
  rewrite Htop. rewrite cleanList_plainName by exact Hx.
  cbn [rev]. rewrite rev_involutive.
  rewrite orDot_render; [reflexivity| |destruct ds; discriminate].
  apply Forall_app in Hes. destruct Hes as [Hds _].
  apply Forall_app. split.
  - eapply Forall_impl; [|exact Hds]. apply plainName_element.
  - constructor; [apply plainName_element; exact Hx|constructor].
Qed.

(** Joining a directory on a drive with a path of ordinary names
    appends the elements of the path. *)
Lemma Join_plain_path (dir : string) (c : ascii) (root : bool)
      (es : list string) (name : string) :
  onDrive dir c root es ->
  Forall plainName (filepath.split name) ->
  filepath.Join [dir; name]
  = (drive c ++ filepath.render root (es ++ filepath.split name))%string.
Proof.
  intros Hdir Hname.
  rewrite (Join_two dir _ (onDrive_joinable _ _ _ _ Hdir)).
  rewrite (Clean_under dir c root _ _ Hdir).
  destruct Hdir as (Hc & Hes & Hne & ->).
  rewrite (fold_cleanList_plainNames root _ _ Hname).
  rewrite rev_app_distr, !rev_involutive.
  rewrite orDot_render; [reflexivity| |destruct es; [congruence|discriminate]].
  apply Forall_app. split;
    (eapply Forall_impl; [|eassumption]; apply plainName_element).
Qed.

(** ** [Base] on a drive *)

Lemma trimSeparators_app (a x : string) :
  element x ->
  filepath.trimSeparators (a ++ x) = (a ++ x)%string.
Proof.
  intros [Hne Hfree]. induction a as [|c a IH].
  - cbn [append]. clear -Hne Hfree. unfold sepFree in Hfree.
    induction x as [|c x IH]; [congruence|].
    simpl in Hfree. apply orb_false_iff in Hfree. destruct Hfree as [Hc Hx].
    cbn [filepath.trimSeparators]. destruct x as [|c' x].
    + cbn. rewrite Hc. reflexivity.
    + rewrite IH by (discriminate || exact Hx). reflexivity.
  - cbn [append filepath.trimSeparators]. rewrite IH.
    destruct (a ++ x)%string eqn:E; [|reflexivity].
    destruct a; [simpl in E; congruence|discriminate].
Qed.

(** What follows the volume name of a path on a drive. *)
Lemma from_VolumeName_drive (c : ascii) (s : string) :
  filepath.from (String.length (filepath.VolumeName (drive c ++ s)))
                (drive c ++ s) = s.
Proof. reflexivity. Qed.

(** The base name of a path on a drive that ends with text without a
    separator ends with that text. *)
Lemma Base_drive_suffix (c : ascii) (a s : string) :
  element s ->
  exists x,
    filepath.Base (drive c ++ a ++ s) = (x ++ s)%string /\
    exists init, filepath.split a = init ++ [x].
Proof.
  intros Hs. pose proof Hs as [Hne Hfree].
  destruct (split_app_sepFree a s Hfree) as (init & x & Ha & Hab).
  exists x. split; [|exists init; exact Ha].
  unfold filepath.Base. rewrite <- append_assoc.
  rewrite trimSeparators_app by exact Hs. rewrite append_assoc.
  rewrite from_VolumeName_drive, Hab, last_last.
  destruct (x ++ s)%string eqn:E; [|reflexivity].
  destruct x; [simpl in E; congruence|discriminate].
Qed.

(** The base name of a rendered path on a drive is its last
    element. *)
Lemma Base_drive_render (c : ascii) (root : bool) (ds : list string)
      (x : string) :
  element x ->
  filepath.Base (drive c ++ filepath.render root (ds ++ [x])) = x.
Proof.
  intro Hx.
  replace (filepath.render root (ds ++ [x]))
    with (((if root then sepString else EmptyString) ++ dirPrefix ds)
            ++ x)%string
    by (rewrite render_snoc, append_assoc; reflexivity).
  destruct (Base_drive_suffix c
              ((if root then sepString else EmptyString) ++ dirPrefix ds)
              x Hx) as (x0 & -> & init & Hinit).
  assert (x0 = EmptyString); [|subst x0; reflexivity].
  destruct ds as [|d ds].
  - cbn [dirPrefix] in Hinit. rewrite append_nil_r in Hinit.
    destruct root.
    + change (filepath.split sepString) with ([EmptyString] ++ [EmptyString])
        in Hinit.
      apply app_inj_tail in Hinit. symmetry. exact (proj2 Hinit).
    + change (filepath.split EmptyString) with ([] ++ [EmptyString])
        in Hinit.
      apply app_inj_tail in Hinit. symmetry. exact (proj2 Hinit).
  - destruct (exists_last (l := d :: ds) ltac:(discriminate))
      as (ds' & e & E).
    rewrite E, dirPrefix_snoc in Hinit. unfold sepString in Hinit.
    rewrite <- !append_assoc in Hinit.
    rewrite split_app_sep in Hinit by apply Separator_separates.
    cbn [filepath.split] in Hinit. apply app_inj_tail in Hinit.
    symmetry. exact (proj2 Hinit).
Qed.

(** ** Inside a directory *)

(** A path that continues below a directory is inside it. *)
Lemma inside_render_app (vol : string) (root : bool) (es l : list string) :
  es <> [] ->
  inside (vol ++ filepath.render root es)
         (vol ++ filepath.render root (es ++ l)) = true.
Proof.
  intro Hes. unfold inside. destruct l as [|y l].
  - rewrite app_nil_r, String.eqb_refl. reflexivity.
  - apply orb_true_iff. right.
    rewrite render_app by (assumption || discriminate).
    rewrite <- !append_assoc. apply HasPrefix_self_app.
Qed.

(** A sibling of a directory is not inside it. *)
Lemma sibling_not_inside (vol : string) (root : bool) (ds : list string)
      (top x : string) :
  sepFree x -> x <> top ->
  inside (vol ++ filepath.render root (ds ++ [top]))
         (vol ++ filepath.render root (ds ++ [x])) = false.
Proof.
  intros Hx Hne. unfold inside. rewrite !render_snoc.
  rewrite <- !append_assoc.
  set (pre := ((vol ++ (if root then sepString else EmptyString))
                 ++ dirPrefix ds)%string).
  apply orb_false_iff. split.
  - apply String.eqb_neq. intro E. apply append_inj_l in E. contradiction.
  - rewrite append_assoc, HasPrefix_app.
    destruct (strings.HasPrefix x (top ++ sepString)) eqn:H; [|reflexivity].
    apply HasPrefix_sound in H. destruct H as [r Hr].
    unfold sepFree in Hx. rewrite Hr, !existsb_app in Hx.
    simpl in Hx. rewrite orb_true_r in Hx. discriminate.
Qed.

(** ** [Ext] *)




(** The scan of [Ext] returns nothing, or the text from a dot on. *)
Lemma extScan_shape (r : list ascii) :
  forall acc,
    filepath.extScan r acc = EmptyString \/
    exists r1 r2,
      r = r1 ++ "."%char :: r2 /\
      filepath.extScan r acc
      = (String "." (string_of_list_ascii (rev r1)) ++ acc)%string.
Proof.
  induction r as [|c r IH]; intro acc; simpl; [left; reflexivity|].
  destruct (filepath.IsPathSeparator c); [left; reflexivity|].
  destruct (Ascii.eqb c ".") eqn:E.
  - right. apply Ascii.eqb_eq in E. subst c. exists [], r.
    split; reflexivity.
  - destruct (IH (String c acc)) as [H|(r1 & r2 & Hr & H)]; [left; exact H|].
    right. exists (c :: r1), r2. split; [rewrite Hr; reflexivity|].
    rewrite H. cbn [rev]. rewrite string_of_list_ascii_app.
    cbn [append string_of_list_ascii]. rewrite append_assoc. reflexivity.
Qed.

(** The extension of a path is empty or begins at a dot, and the path
    ends with it. *)
Lemma Ext_shape (p : string) :
  filepath.Ext p = EmptyString \/
  exists stem tail,
    p = (stem ++ String "." tail)%string /\
    filepath.Ext p = String "." tail.
Proof.
  unfold filepath.Ext.
  destruct (extScan_shape (rev (list_ascii_of_string p)) EmptyString)
    as [H|(r1 & r2 & Hr & H)]; [left; exact H|].
  right. exists (string_of_list_ascii (rev r2)),
                (string_of_list_ascii (rev r1)).
  rewrite H, append_nil_r. split; [|reflexivity].
  rewrite <- (string_of_list_ascii_of_string p) at 1.
  rewrite <- (rev_involutive (list_ascii_of_string p)), Hr.
  rewrite rev_app_distr. cbn [rev]. rewrite <- app_assoc.
  rewrite string_of_list_ascii_app. reflexivity.
Qed.

(** A path ends with its extension. *)
Lemma Ext_is_suffix (p : string) :
  exists stem, p = (stem ++ filepath.Ext p)%string.
Proof.
  destruct (Ext_shape p) as [H|(stem & tail & Hp & H)].
  - rewrite H. exists p. symmetry. apply append_nil_r.
  - rewrite H. exists stem. exact Hp.
Qed.

(** Trimming the extension of a path leaves the path as it is exactly
    when the extension is empty. *)
Lemma TrimSuffix_Ext (p : string) :
  strings.TrimSuffix p (filepath.Ext p) = p <-> filepath.Ext p = EmptyString.
Proof.
  split.
  - intro H. destruct (Ext_is_suffix p) as [stem Hp].
    rewrite Hp in H at 1. rewrite TrimSuffix_app in H.
    assert (L : String.length p
                = (String.length p + String.length (filepath.Ext p))%nat).
    { rewrite Hp at 1. rewrite length_append, H. reflexivity. }
    destruct (filepath.Ext p); [reflexivity|simpl in L; lia].
  - intro H. rewrite H. apply TrimSuffix_empty.
Qed.

Lemma Ext_amr (a : string) : filepath.Ext (a ++ ".amr") = ".amr".
Proof.
  unfold filepath.Ext. rewrite list_ascii_of_string_app, rev_app_distr.
  reflexivity.
Qed.




(** Joining a bare drive with an ordinary name puts no separator
    between them: the path stays relative to the current directory of
    the drive. *)
Lemma Join_bare_drive (c : ascii) (x : string) :
  letter c = true -> plainName x ->
  filepath.Join [drive c; x] = (drive c ++ x)%string /\
  filepath.Base (filepath.Join [drive c; x]) = x.
Proof.
  intros Hc Hx. pose proof Hx as [[Hne Hfree] [_ [Hdot Hdotdot]]].
  assert (Hj : filepath.Join [drive c; x] = (drive c ++ x)%string).
  { unfold filepath.Join. destruct x as [|c0 x']; [congruence|].
    cbn [fold_left].
    change (fst (filepath.joinStep
                   (filepath.joinStep (EmptyString, Ascii.zero) (drive c))
                   (String c0 x')))
      with (drive c ++ String c0 x')%string.
    change (match (drive c ++ String c0 x')%string with
            | EmptyString => EmptyString
            | String _ _ => filepath.Clean (drive c ++ String c0 x')
            end)
      with (filepath.Clean (drive c ++ String c0 x')).
    rewrite (Clean_drive c c0 x' Hc). cbv zeta.
    assert (Hroot : filepath.IsPathSeparator c0 = false).
    { unfold sepFree in Hfree. simpl in Hfree.
      apply orb_false_iff in Hfree. exact (proj1 Hfree). }
    rewrite Hroot, (split_sepFree _ Hfree). cbn [fold_left].
    rewrite cleanList_kept by assumption.
    reflexivity. }
  split; [exact Hj|]. rewrite Hj.
  exact (Base_drive_render c false [] x (conj Hne Hfree)).
Qed.


(* ================================================================ *)
(** * The extractors *)
(* ================================================================ *)

(** C1, as amended.  [getMentions] trims the text of the mention-list
    node as a whole and splits it on commas: when the trimmed text is
    N comma-separated identifiers (N >= 1), the result is exactly those
    N identifiers in their order -- white space is removed at the two
    ends of the text only, not around each identifier.  When the node
    is absent or its text is empty the result is nil. *)
Theorem getMentions_splits_trimmed_text
  (as_ : AppService) (msg : WechatMessage) (doc : Document) :
  Parse (ExtraInfo msg) = Some doc ->
  let atuserNode := FindOne doc (Path ["msgsource"; "atuserlist"]) in
  (forall ids : list string,
      ExtraInfo msg <> EmptyString ->
      ids <> [] ->
      Forall identifier ids ->
      strings.TrimSpace (text atuserNode) = strings.Join ids "," ->
      getMentions as_ msg = Some ids) /\
  (text atuserNode = EmptyString -> getMentions as_ msg = None).
Proof.
  intros Hdoc atuserNode. unfold getMentions. split.
  - intros ids Hex Hne Hids Htrim.
    destruct (len (ExtraInfo msg) =? 0) eqn:Hl.
    { apply len_zero_iff in Hl. contradiction. }
    rewrite Hdoc. fold atuserNode.
    destruct (nilOrEmpty atuserNode) eqn:Hn.
    + apply nilOrEmpty_true in Hn. rewrite Hn in Htrim.
      exfalso. apply (Join_identifiers_nonempty ids Hne Hids).
      rewrite <- Htrim. reflexivity.
    + rewrite Htrim. rewrite FieldsFunc_Join by assumption. reflexivity.
  - intro Hempty. apply nilOrEmpty_true in Hempty.
    destruct (len (ExtraInfo msg) =? 0); [reflexivity|].
    rewrite Hdoc. fold atuserNode. rewrite Hempty. reflexivity.
Qed.

(** C4.  When the [x] and [y] attributes of the location element are
    present, not empty, and parse as 64-bit floating point,
    [parseLocation] returns a record whose latitude and longitude are
    exactly the parsed values, with name and label the texts of the
    [poiname] and [label] attributes, the empty string when absent.
    When [x] or [y] is absent, empty or does not parse, there is no
    match. *)
Theorem parseLocation_coordinates
  (as_ : AppService) (msg : WechatMessage) (doc : Document) :
  Parse (Message msg) = Some doc ->
  let x := FindOne doc (PathAttr ["msg"; "location"] "x") in
  let y := FindOne doc (PathAttr ["msg"; "location"] "y") in
  let poiname := FindOne doc (PathAttr ["msg"; "location"] "poiname") in
  let label := FindOne doc (PathAttr ["msg"; "location"] "label") in
  (forall latitude longitude : float,
      text x <> EmptyString ->
      text y <> EmptyString ->
      ParseFloat (text x) = Some latitude ->
      ParseFloat (text y) = Some longitude ->
      exists loc,
        parseLocation as_ msg = Some loc /\
        LocationData.Latitude loc = latitude /\
        LocationData.Longitude loc = longitude /\
        LocationData.Name loc =
          match poiname with
          | Some n => InnerText n
          | None => EmptyString
          end /\
        LocationData.Address loc =
          match label with
          | Some n => InnerText n
          | None => EmptyString
          end) /\
  (text x = EmptyString \/ ParseFloat (text x) = None \/
   text y = EmptyString \/ ParseFloat (text y) = None ->
   parseLocation as_ msg = None).
Proof.
  intros Hdoc x y poiname label. unfold parseLocation. rewrite Hdoc.
  fold x y poiname label. split.
  - intros latitude longitude Hx Hy Hlat Hlon.
    destruct (nilOrEmpty x) eqn:Ex.
    { apply nilOrEmpty_true in Ex. contradiction. }
    destruct (nilOrEmpty y) eqn:Ey.
    { apply nilOrEmpty_true in Ey. contradiction. }
    rewrite Hlat, Hlon. eexists. split; [reflexivity|]. simpl.
    repeat split; reflexivity.
  - intros H.
    destruct (nilOrEmpty x) eqn:Ex; [reflexivity|].
    destruct (ParseFloat (text x)) as [latitude|] eqn:Hlat; [|reflexivity].
    destruct (nilOrEmpty y) eqn:Ey; [reflexivity|].
    destruct (ParseFloat (text y)) as [longitude|] eqn:Hlon; [|reflexivity].
    destruct H as [H|[H|[H|H]]]; try discriminate.
    + apply nilOrEmpty_true in H. congruence.
    + apply nilOrEmpty_true in H. congruence.
Qed.

(** The sender field that [parseReply] reads: the primary field
    [chatusr], or the fallback [fromusr] when the primary is absent or
    empty. *)
Definition referencedSender (doc : Document) : option Node :=
  let chatusr := FindOne doc (Path ["msg"; "appmsg"; "refermsg"; "chatusr"]) in
  if nilOrEmpty chatusr
  then FindOne doc (Path ["msg"; "appmsg"; "refermsg"; "fromusr"])
  else chatusr.

(** C5.  [parseReply] returns a record if and only if the payload
    parses and holds a title that is not empty, a referenced-message
    ID that [ParseUint] accepts (base 10, 64 bits), and a sender that
    is not empty, read from [chatusr] or else from [fromusr]; the
    record then carries that title, ID and sender.  With any one of
    the three missing there is no match. *)
Theorem parseReply_iff
  (as_ : AppService) (msg : WechatMessage) (r : string * ReplyInfo) :
  parseReply as_ msg = Some r <->
  exists doc title msgId sender,
    Parse (Message msg) = Some doc /\
    text (FindOne doc (Path ["msg"; "appmsg"; "title"])) = title /\
    title <> EmptyString /\
    strconv.ParseUint
      (text (FindOne doc (Path ["msg"; "appmsg"; "refermsg"; "svrid"])))
      = Some msgId /\
    text (referencedSender doc) = sender /\
    sender <> EmptyString /\
    r = (title, {| ID := msgId; Sender := sender |}).
Proof.
  unfold parseReply, referencedSender. split.
  - destruct (Parse (Message msg)) as [doc|]; [|discriminate].
    set (titleNode := FindOne doc (Path ["msg"; "appmsg"; "title"])).
    set (svridNode := FindOne doc (Path ["msg"; "appmsg"; "refermsg"; "svrid"])).
    set (chatusr := FindOne doc (Path ["msg"; "appmsg"; "refermsg"; "chatusr"])).
    set (fromusr := FindOne doc (Path ["msg"; "appmsg"; "refermsg"; "fromusr"])).
    destruct (nilOrEmpty titleNode) eqn:Et; [discriminate|].
    destruct (nilOrEmpty svridNode) eqn:Es; [discriminate|].
    destruct (nilOrEmpty (if nilOrEmpty chatusr then fromusr else chatusr))
      eqn:Eu; [discriminate|].
    destruct (strconv.ParseUint (text svridNode)) as [msgId|] eqn:Ep;
      [|discriminate].
    intro H. inversion H; subst r; clear H.
    exists doc, (text titleNode), msgId,
      (text (if nilOrEmpty chatusr then fromusr else chatusr)).
    repeat split; try reflexivity.
    + intro E. apply nilOrEmpty_true in E. congruence.
    + exact Ep.
    + intro E. apply nilOrEmpty_true in E. congruence.
  - intros (doc & title & msgId & sender & Hdoc & Ht & Htne & Hid & Hs & Hsne & Hr).
    rewrite Hdoc.
    set (titleNode := FindOne doc (Path ["msg"; "appmsg"; "title"])) in *.
    set (svridNode := FindOne doc (Path ["msg"; "appmsg"; "refermsg"; "svrid"])) in *.
    set (chatusr := FindOne doc (Path ["msg"; "appmsg"; "refermsg"; "chatusr"])) in *.
    set (fromusr := FindOne doc (Path ["msg"; "appmsg"; "refermsg"; "fromusr"])) in *.
    destruct (nilOrEmpty titleNode) eqn:Et.
    { apply nilOrEmpty_true in Et. congruence. }
    destruct (nilOrEmpty svridNode) eqn:Es.
    { apply nilOrEmpty_true in Es. rewrite Es in Hid. discriminate. }
    destruct (nilOrEmpty (if nilOrEmpty chatusr then fromusr else chatusr))
      eqn:Eu.
    { apply nilOrEmpty_true in Eu. congruence. }
    rewrite Hid, Ht, Hs. subst r. reflexivity.
Qed.

(** C6.  When the payload holds an invitation with a status node whose
    text is C, [parsePrivateVoIP] returns the call-started string for
    C = "1", the call-ended string for C = "2", and for every other C
    the unknown-status string followed by C itself. *)
Theorem parsePrivateVoIP_status
  (as_ : AppService) (msg : WechatMessage) (doc : Document)
  (statusNode : Node) :
  Parse (Message msg) = Some doc ->
  FindOne doc (Path ["voipinvitemsg"; "status"]) = Some statusNode ->
  let C := InnerText statusNode in
  (C = "1" -> parsePrivateVoIP as_ msg = "VoIP: Started a call") /\
  (C = "2" -> parsePrivateVoIP as_ msg = "VoIP: Call ended") /\
  (C <> "1" -> C <> "2" ->
   parsePrivateVoIP as_ msg = ("VoIP: Unknown status " ++ C)%string).
Proof.
  intros Hdoc Hstatus C. unfold parsePrivateVoIP. rewrite Hdoc.
  destruct (FindOne_parent _ _ _ _ Hstatus) as [invite Hinvite].
  rewrite Hinvite, Hstatus. fold C.
  repeat split.
  - intro E. rewrite E. reflexivity.
  - intro E. rewrite E. reflexivity.
  - intros H1 H2.
    apply String.eqb_neq in H1. apply String.eqb_neq in H2.
    rewrite H1, H2. reflexivity.
Qed.

(* ================================================================ *)
(** * The sticker *)
(* ================================================================ *)

(** C7.  With a [cdnurl] and an [aeskey] attribute in the tree, both
    not empty, [downloadSticker] does one thing to the world, a GET of
    the CDN URL -- no [os.Stat], no [os.ReadFile], no wait -- and, when
    the GET succeeds, returns the blob named by the [aeskey] value
    with the fetched bytes.  With either attribute absent or empty it
    returns nil and does nothing to the world. *)
Theorem downloadSticker_fetches
  (as_ : AppService) (msg : WechatMessage) (doc : Document) (w : World) :
  Parse (Message msg) = Some doc ->
  let url := text (FindOne doc (AnyAttr "cdnurl")) in
  let hash := text (FindOne doc (AnyAttr "aeskey")) in
  (url <> EmptyString -> hash <> EmptyString ->
   exists blob,
     downloadSticker as_ msg w = Some (blob, record (EvGet url) w) /\
     (forall data, httpGet url = Some data ->
                   blob = Some (BlobData.mk hash data)) /\
     (httpGet url = None -> blob = None)) /\
  (url = EmptyString \/ hash = EmptyString ->
   downloadSticker as_ msg w = Some (None, w)).
Proof.
  intros Hdoc url hash. unfold downloadSticker. rewrite Hdoc. split.
  - intros Hu Hh.
    destruct (nilOrEmpty (FindOne doc (AnyAttr "cdnurl"))) eqn:Eu.
    { apply nilOrEmpty_true in Eu. contradiction. }
    destruct (nilOrEmpty (FindOne doc (AnyAttr "aeskey"))) eqn:Eh.
    { apply nilOrEmpty_true in Eh. contradiction. }
    fold url hash. unfold bind, GetBytes, ret.
    destruct (httpGet url) as [data|] eqn:Eg.
    + eexists. split; [reflexivity|]. split.
      * intros data' E. inversion E. reflexivity.
      * discriminate.
    + eexists. split; [reflexivity|]. split.
      * discriminate.
      * reflexivity.
  - intros [Hu|Hh].
    + apply nilOrEmpty_true in Hu. rewrite Hu. reflexivity.
    + apply nilOrEmpty_true in Hh. rewrite Hh.
      destruct (nilOrEmpty (FindOne doc (AnyAttr "cdnurl"))); reflexivity.
Qed.


(* ================================================================ *)
(** * The poll loop *)
(* ================================================================ *)

Ltac zsec := unfold Second in *; lia.

(** The world after the events [evs], the clock unmoved. *)
Definition after (evs : list Event) (w : World) : World :=
  {| now := now w; events := events w ++ evs |}.

(** [n] rounds that find nothing, each followed by the one-second
    timer, the first round at instant [t]. *)
Fixpoint rounds (evs : Z -> list Event) (t : Z) (n : nat) : list Event :=
  match n with
  | O => []
  | S n' => evs t ++ EvTimer (t + Second) :: rounds evs (t + Second) n'
  end.

Section Loop.

(** A loop body that takes no time: at instant [t] it yields
    [res t] and does [evs t]. *)
Variable body : M (option BlobData.t).
Variable res : Z -> option BlobData.t.
Variable evs : Z -> list Event.
Hypothesis body_instant :
  forall w, body w = Some (res (now w), after (evs (now w)) w).

Lemma pollLoop_round (fuel : nat) (deadline : Z) (w : World) :
  pollLoop (S fuel) body deadline w =
  match res (now w) with
  | Some blob => Some (Some blob, after (evs (now w)) w)
  | None =>
      let w1 := after (evs (now w)) w in
      let fire := now w + Second in
      if (fire <? deadline) || ((fire =? deadline) && timerFirst)
      then pollLoop fuel body deadline (tick fire (EvTimer fire) w1)
      else Some (None, tick (Z.max (now w) deadline)
                            (EvDone (Z.max (now w) deadline)) w1)
  end.
Proof.
  cbn [pollLoop]. unfold bind at 1. rewrite body_instant.
  destruct (res (now w)) as [blob|]; [reflexivity|].
  unfold bind, selectAfter. cbn [now after].
  rewrite Z.mul_1_l.
  destruct ((now w + Second <? deadline)
            || ((now w + Second =? deadline) && timerFirst));
    reflexivity.
Qed.

(** The loop returns: with fuel for every second left, it never runs
    out. *)
Lemma pollLoop_returns (fuel : nat) (deadline : Z) (w : World) :
  deadline - now w < Z.of_nat fuel * Second ->
  (0 < fuel)%nat ->
  exists r w', pollLoop fuel body deadline w = Some (r, w').
Proof.
  revert w. induction fuel as [|fuel IH]; intros w Hfuel Hpos; [zsec|].
  rewrite pollLoop_round.
  destruct (res (now w)) as [blob|]; [eauto|].
  cbv zeta.
  destruct ((now w + Second <? deadline)
            || ((now w + Second =? deadline) && timerFirst)) eqn:Hsel;
    [|eauto].
  assert (Hle : now w + Second <= deadline).
  { apply orb_true_iff in Hsel. destruct Hsel as [H|H].
    - apply Z.ltb_lt in H. zsec.
    - apply andb_true_iff in H. destruct H as [H _].
      apply Z.eqb_eq in H. zsec. }
  apply IH; simpl now; zsec.
Qed.

(** A blob that the loop returns is what a round yields at the
    instant the loop returns. *)
Lemma pollLoop_blob (fuel : nat) (deadline : Z) (w w' : World)
      (blob : BlobData.t) :
  pollLoop fuel body deadline w = Some (Some blob, w') ->
  res (now w') = Some blob.
Proof.
  revert w. induction fuel as [|fuel IH]; intros w; [discriminate|].
  rewrite pollLoop_round.
  destruct (res (now w)) as [b|] eqn:Hres.
  - intro H. inversion H; subst. exact Hres.
  - cbv zeta.
    destruct ((now w + Second <? deadline)
              || ((now w + Second =? deadline) && timerFirst)).
    + apply IH.
    + discriminate.
Qed.

(** Nil is returned at the deadline, not before. *)
Lemma pollLoop_nil_at_deadline (fuel : nat) (deadline : Z) (w w' : World) :
  now w <= deadline ->
  pollLoop fuel body deadline w = Some (None, w') ->
  now w' = deadline.
Proof.
  revert w. induction fuel as [|fuel IH]; intros w Hnow; [discriminate|].
  rewrite pollLoop_round.
  destruct (res (now w)) as [b|]; [discriminate|].
  cbv zeta.
  destruct ((now w + Second <? deadline)
            || ((now w + Second =? deadline) && timerFirst)) eqn:Hsel.
  - apply IH. simpl now.
    apply orb_true_iff in Hsel. destruct Hsel as [H|H].
    + apply Z.ltb_lt in H. zsec.
    + apply andb_true_iff in H. destruct H as [H _].
      apply Z.eqb_eq in H. zsec.
  - intro H. inversion H; subst. simpl. zsec.
Qed.

(** The round [k] seconds after the start is reached when the rounds
    before it find nothing and it starts before the deadline; what
    it finds is returned at once. *)
Lemma pollLoop_found (k : nat) :
  forall (fuel : nat) (deadline : Z) (w : World) (blob : BlobData.t),
    (k < fuel)%nat ->
    now w + Z.of_nat k * Second < deadline ->
    (forall j, (j < k)%nat -> res (now w + Z.of_nat j * Second) = None) ->
    res (now w + Z.of_nat k * Second) = Some blob ->
    pollLoop fuel body deadline w =
    Some (Some blob,
          {| now := now w + Z.of_nat k * Second;
             events := events w ++ rounds evs (now w) k
                       ++ evs (now w + Z.of_nat k * Second) |}).
Proof.
  induction k as [|k IH]; intros fuel deadline w blob Hfuel Hk Hnone Hres.
  - destruct fuel as [|fuel]; [zsec|]. rewrite pollLoop_round.
    replace (now w + Z.of_nat 0 * Second) with (now w) in * by zsec.
    rewrite Hres. reflexivity.
  - destruct fuel as [|fuel]; [zsec|]. rewrite pollLoop_round.
    assert (H0 : res (now w) = None).
    { specialize (Hnone 0%nat).
      replace (now w + Z.of_nat 0 * Second) with (now w) in Hnone by zsec.
      apply Hnone. zsec. }
    rewrite H0. cbv zeta.
    assert (Hlt : (now w + Second <? deadline) = true).
    { apply Z.ltb_lt. zsec. }
    rewrite Hlt. simpl orb.
    rewrite (IH fuel deadline _ blob).
    + simpl now. simpl events. f_equal. f_equal.
      f_equal; [zsec|].
      replace (now w + Second + Z.of_nat k * Second)
        with (now w + Z.of_nat (S k) * Second) by zsec.
      simpl rounds. rewrite <- !app_assoc. simpl. reflexivity.
    + zsec.
    + simpl now. zsec.
    + intros j Hj. simpl now.
      replace (now w + Second + Z.of_nat j * Second)
        with (now w + Z.of_nat (S j) * Second) by zsec.
      apply Hnone. zsec.
    + simpl now.
      replace (now w + Second + Z.of_nat k * Second)
        with (now w + Z.of_nat (S k) * Second) by zsec.
      exact Hres.
Qed.

(** When no round ever finds anything and [m] whole seconds are
    left ([m >= 1]), the loop makes a round every second and returns
    nil at the deadline.  The round that would start at the deadline
    itself is made only if the timer wins the tie. *)
Lemma pollLoop_never (m : nat) :
  forall (fuel : nat) (deadline : Z) (w : World),
    (forall t, res t = None) ->
    deadline = now w + Z.of_nat (S m) * Second ->
    (S m < fuel)%nat ->
    let n := (m + if timerFirst then 1 else 0)%nat in
    pollLoop fuel body deadline w =
    Some (None,
          {| now := deadline;
             events := events w ++ rounds evs (now w) n
                       ++ evs (now w + Z.of_nat n * Second)
                       ++ [EvDone deadline] |}).
Proof.
  induction m as [|m IH]; intros fuel deadline w Hnone Hd Hfuel n.
  - destruct fuel as [|fuel]; [zsec|]. rewrite pollLoop_round.
    rewrite Hnone. cbv zeta.
    assert (Hlt : (now w + Second <? deadline) = false).
    { apply Z.ltb_ge. zsec. }
    assert (Heq : (now w + Second =? deadline) = true).
    { apply Z.eqb_eq. zsec. }
    rewrite Hlt, Heq. simpl orb. simpl andb. subst n.
    destruct timerFirst.
    + destruct fuel as [|fuel]; [zsec|]. rewrite pollLoop_round.
      rewrite Hnone. cbv zeta. simpl now.
      assert (Hlt' : (now w + Second + Second <? deadline) = false).
      { apply Z.ltb_ge. zsec. }
      assert (Heq' : (now w + Second + Second =? deadline) = false).
      { apply Z.eqb_neq. zsec. }
      rewrite Hlt', Heq'. simpl orb.
      unfold tick, after. simpl now. simpl events.
      f_equal. f_equal. f_equal; [zsec|].
      rewrite <- !app_assoc. simpl.
      replace (now w + Z.of_nat 1 * Second) with (now w + Second) by zsec.
      replace (Z.max (now w + Second) deadline) with deadline by zsec.
      rewrite <- !app_assoc. reflexivity.
    + unfold tick, after. simpl now. simpl events.
      f_equal. f_equal. f_equal; [zsec|].
      rewrite <- !app_assoc. simpl.
      rewrite ?Z.add_0_r.
      replace (Z.max (now w) deadline) with deadline by zsec.
      reflexivity.
  - destruct fuel as [|fuel]; [zsec|]. rewrite pollLoop_round.
    rewrite Hnone. cbv zeta.
    assert (Hlt : (now w + Second <? deadline) = true).
    { apply Z.ltb_lt. zsec. }
    rewrite Hlt. simpl orb.
    rewrite (IH fuel deadline); [|assumption|simpl now; zsec|zsec].
    simpl now. simpl events. subst n. f_equal. f_equal. f_equal.
    rewrite <- !app_assoc. f_equal.
    replace (S m + (if timerFirst then 1 else 0))%nat
      with (S (m + (if timerFirst then 1 else 0)))%nat by zsec.
    replace (now w + Z.of_nat (S (m + (if timerFirst then 1 else 0)))
                     * Second)
      with (now w + Second
            + Z.of_nat (m + (if timerFirst then 1 else 0)) * Second)
      by zsec.
    cbn [rounds]. rewrite <- !app_assoc. reflexivity.
Qed.

End Loop.


(* ================================================================ *)
(** * One round of each resolver *)
(* ================================================================ *)

(** Does [os.Stat] see the path at instant [t]? *)
Definition present (t : Z) (path : string) : bool :=
  match disk t path with
  | Missing => false
  | _ => true
  end.

(** What a round of [downloadVoice], [downloadVideo] or [downloadFile]
    yields at instant [t]: the blob of the file when it is readable. *)
Definition fileAt (file : string) (t : Z) : option BlobData.t :=
  match disk t file with
  | Contents data => Some (BlobData.mk (filepath.Base file) data)
  | _ => None
  end.

(** What such a round does: a stat, and a read when the path exists. *)
Definition fileEvents (file : string) (t : Z) : list Event :=
  EvStat t file :: if present t file then [EvReadFile t file] else [].

(** The paths that a round of [downloadImage] can look at, in the
    order of the cases of its [switch]. *)
Definition imageCandidates (as_ : AppService) (msg : WechatMessage)
  : list string :=
  let b := baseFile as_ msg in
  [b; (b ++ ".png")%string; (b ++ ".gif")%string; (b ++ ".jpg")%string].

(** The paths up to and including the first that satisfies [ok]. *)
Fixpoint upToFirst (ok : string -> bool) (paths : list string)
  : list string :=
  match paths with
  | [] => []
  | p :: ps => p :: if ok p then [] else upToFirst ok ps
  end.

(** What a round of [downloadImage] yields at instant [t]: the first
    candidate that exists is the only one read. *)
Definition imageAt (as_ : AppService) (msg : WechatMessage) (t : Z)
  : option BlobData.t :=
  match find (present t) (imageCandidates as_ msg) with
  | Some p =>
      match disk t p with
      | Contents data =>
          Some (BlobData.mk (filepath.Base (FilePath msg)) data)
      | _ => None
      end
  | None => None
  end.

Definition imageEvents (as_ : AppService) (msg : WechatMessage) (t : Z)
  : list Event :=
  map (EvStat t) (upToFirst (present t) (imageCandidates as_ msg))
  ++ match find (present t) (imageCandidates as_ msg) with
     | Some p => [EvReadFile t p]
     | None => []
     end.

Lemma tryFile_instant (file : string) (w : World) :
  tryFile file w =
  Some (fileAt file (now w), after (fileEvents file (now w)) w).
Proof.
  unfold tryFile, PathExists, Stat, ReadFile, bind, ret, fileAt,
    fileEvents, present, after, record, tick.
  cbn [now events].
  destruct (disk (now w) file) eqn:E; cbn; rewrite ?E; cbn;
    rewrite <- ?app_assoc; reflexivity.
Qed.

Lemma tryImage_instant (as_ : AppService) (msg : WechatMessage) (w : World) :
  tryImage as_ msg w =
  Some (imageAt as_ msg (now w), after (imageEvents as_ msg (now w)) w).
Proof.
  unfold tryImage, imageAt, imageEvents, imageCandidates.
  generalize (baseFile as_ msg). intro b.
  unfold PathExists, Stat, ReadFile, bind, ret, present, after, record,
    tick.
  cbn [now events find upToFirst map].
  destruct (disk (now w) b) eqn:E1; cbn; rewrite ?E1; cbn;
    rewrite <- ?app_assoc; try reflexivity.
  destruct (disk (now w) (b ++ ".png")) eqn:E2; cbn; rewrite ?E2; cbn;
    rewrite <- ?app_assoc; try reflexivity.
  destruct (disk (now w) (b ++ ".gif")) eqn:E3; cbn; rewrite ?E3; cbn;
    rewrite <- ?app_assoc; try reflexivity.
  destruct (disk (now w) (b ++ ".jpg")) eqn:E4; cbn; rewrite ?E4; cbn;
    rewrite <- ?app_assoc; reflexivity.
Qed.


(* ================================================================ *)
(** * The disk-backed resolvers *)
(* ================================================================ *)

Lemma pollFuel_value : pollFuel = 32%nat.
Proof. reflexivity. Qed.

Lemma timeout_seconds : MediaDownloadTiemout = Z.of_nat 30 * Second.
Proof. reflexivity. Qed.

(** The disk-backed acquisitions, each with what one round of its loop
    yields at an instant and what the round does. *)
Inductive DiskBacked :
  M (option BlobData.t) -> (Z -> option BlobData.t) ->
  (Z -> list Event) -> Prop :=
| ImageKind (as_ : AppService) (msg : WechatMessage) :
    DiskBacked (downloadImage as_ msg)
               (imageAt as_ msg) (imageEvents as_ msg)
| VoiceKind (as_ : AppService) (msg : WechatMessage) (doc : Document)
            (path : string) :
    Parse (Message msg) = Some doc ->
    text (FindOne doc (PathAttr ["msg"; "voicemsg"] "clientmsgid")) = path ->
    path <> EmptyString ->
    DiskBacked (downloadVoice as_ msg)
               (fileAt (voiceFile as_ msg path))
               (fileEvents (voiceFile as_ msg path))
| VideoKind (as_ : AppService) (msg : WechatMessage) :
    DiskBacked (downloadVideo as_ msg)
               (fileAt (videoFile as_ msg))
               (fileEvents (videoFile as_ msg))
| FileKind (as_ : AppService) (msg : WechatMessage) :
    DiskBacked (downloadFile as_ msg)
               (fileAt (filepath.Join [Docdir as_; FilePath msg]))
               (fileEvents (filepath.Join [Docdir as_; FilePath msg])).

(** Each of them is the poll loop, with the deadline thirty seconds
    after its start. *)
Lemma DiskBacked_loop acq res evs :
  DiskBacked acq res evs ->
  exists body,
    (forall w, body w = Some (res (now w), after (evs (now w)) w)) /\
    (forall w,
        acq w = pollLoop pollFuel body (now w + MediaDownloadTiemout) w).
Proof.
  intros [as_ msg|as_ msg doc path Hdoc Hpath Hne|as_ msg|as_ msg].
  - exists (tryImage as_ msg). split.
    + apply tryImage_instant.
    + reflexivity.
  - exists (tryFile (voiceFile as_ msg path)). split.
    + apply tryFile_instant.
    + intro w. unfold downloadVoice. rewrite Hdoc.
      destruct (nilOrEmpty
                  (FindOne doc (PathAttr ["msg"; "voicemsg"] "clientmsgid")))
        eqn:E.
      * apply nilOrEmpty_true in E. congruence.
      * rewrite Hpath. reflexivity.
  - exists (tryFile (videoFile as_ msg)). split.
    + apply tryFile_instant.
    + reflexivity.
  - exists (tryFile (filepath.Join [Docdir as_; FilePath msg])). split.
    + apply tryFile_instant.
    + reflexivity.
Qed.

(** C2, as amended.  Every round of the loop of [downloadImage] looks
    at the same four paths in the same order: the hinted file's base
    name under the per-sender directory with its extension removed,
    then that path with [.png], [.gif] and [.jpg] appended.  A round
    stats them in this order up to the first that exists and reads
    that one only.  The first path is the joined hinted name itself
    exactly when that name has no extension. *)
Theorem downloadImage_candidate_order
  (as_ : AppService) (msg : WechatMessage) (w : World) :
  let image :=
    filepath.Join [Workdir as_; Self msg; filepath.Base (FilePath msg)] in
  let b := strings.TrimSuffix image (filepath.Ext image) in
  let candidates :=
    [b; (b ++ ".png")%string; (b ++ ".gif")%string; (b ++ ".jpg")%string] in
  let t := now w in
  downloadImage as_ msg w =
    pollLoop pollFuel (tryImage as_ msg) (t + MediaDownloadTiemout) w /\
  (exists found,
      tryImage as_ msg w =
      Some (found,
            after (map (EvStat t) (upToFirst (present t) candidates)
                   ++ match find (present t) candidates with
                      | Some p => [EvReadFile t p]
                      | None => []
                      end) w)) /\
  (b = image <-> filepath.Ext image = EmptyString).
Proof.
  cbv zeta. split; [reflexivity|]. split.
  - eexists. rewrite tryImage_instant. reflexivity.
  - apply TrimSuffix_Ext.
Qed.

(** X21.  A blob returned by [downloadVoice], [downloadVideo] or
    [downloadFile] is named by the base name of the file that was
    read, and holds its bytes.  A blob returned by [downloadImage]
    holds the bytes of the first candidate that exists and is named by
    the base name of the hinted path, whichever candidate was read. *)
Theorem blob_name_of_acquisition
  (as_ : AppService) (msg : WechatMessage) (w w' : World)
  (blob : BlobData.t) :
  (downloadImage as_ msg w = Some (Some blob, w') ->
   BlobData.Name blob = filepath.Base (FilePath msg) /\
   exists p,
     find (present (now w')) (imageCandidates as_ msg) = Some p /\
     disk (now w') p = Contents (BlobData.Binary blob)) /\
  (downloadVoice as_ msg w = Some (Some blob, w') ->
   exists doc,
     Parse (Message msg) = Some doc /\
     let file :=
       voiceFile as_ msg
         (text (FindOne doc (PathAttr ["msg"; "voicemsg"] "clientmsgid"))) in
     BlobData.Name blob = filepath.Base file /\
     disk (now w') file = Contents (BlobData.Binary blob)) /\
  (downloadVideo as_ msg w = Some (Some blob, w') ->
   BlobData.Name blob = filepath.Base (videoFile as_ msg) /\
   disk (now w') (videoFile as_ msg) = Contents (BlobData.Binary blob)) /\
  (downloadFile as_ msg w = Some (Some blob, w') ->
   let file := filepath.Join [Docdir as_; FilePath msg] in
   BlobData.Name blob = filepath.Base file /\
   disk (now w') file = Contents (BlobData.Binary blob)).
Proof.
  assert (Hfile : forall file fuel deadline w0,
             pollLoop fuel (tryFile file) deadline w0
             = Some (Some blob, w') ->
             BlobData.Name blob = filepath.Base file /\
             disk (now w') file = Contents (BlobData.Binary blob)).
  { intros file fuel deadline w0 H.
    apply (pollLoop_blob _ _ _ (tryFile_instant file)) in H.
    unfold fileAt in H.
    destruct (disk (now w') file) as [| |data]; try discriminate.
    inversion H; subst blob. split; reflexivity. }
  split; [|split; [|split]].
  - intro H.
    apply (pollLoop_blob _ _ _ (tryImage_instant as_ msg)) in H.
    unfold imageAt in H.
    destruct (find (present (now w')) (imageCandidates as_ msg)) as [p|];
      [|discriminate].
    destruct (disk (now w') p) as [| |data] eqn:Hp; try discriminate.
    inversion H; subst blob. split; [reflexivity|].
    exists p. split; [reflexivity|exact Hp].
  - intro H. unfold downloadVoice in H.
    destruct (Parse (Message msg)) as [doc|]; [|discriminate].
    exists doc. split; [reflexivity|].
    destruct (nilOrEmpty
                (FindOne doc (PathAttr ["msg"; "voicemsg"] "clientmsgid")));
      [discriminate|].
    exact (Hfile _ _ _ _ H).
  - intro H. exact (Hfile _ _ _ _ H).
  - intro H. exact (Hfile _ _ _ _ H).
Qed.

(** C8, as amended.  A disk-backed acquisition makes a round at its
    start and then every second.  If the round [k] seconds after the
    start ([k] from 0 to 29) is the first that finds a readable file,
    the acquisition returns that file's blob at that instant; so a file
    that appears at most 29 seconds after the start, and stays, is
    returned less than a second after it appears.  If no round ever
    finds one, the acquisition makes its rounds one second apart and
    returns nil exactly at the deadline, thirty seconds after the
    start; nil is never returned at another instant.  It always
    returns. *)
Theorem media_poll_deadline acq res evs (w : World) :
  DiskBacked acq res evs ->
  let start := now w in
  let deadline := start + MediaDownloadTiemout in
  (forall (k : nat) (blob : BlobData.t),
      (k < 30)%nat ->
      (forall j, (j < k)%nat -> res (start + Z.of_nat j * Second) = None) ->
      res (start + Z.of_nat k * Second) = Some blob ->
      exists w',
        acq w = Some (Some blob, w') /\
        now w' = start + Z.of_nat k * Second) /\
  (forall (appears : Z) (blob : BlobData.t),
      start <= appears <= start + 29 * Second ->
      (forall t, t < appears -> res t = None) ->
      (forall t, appears <= t -> res t = Some blob) ->
      exists w',
        acq w = Some (Some blob, w') /\
        appears <= now w' < appears + Second) /\
  ((forall t, res t = None) ->
   exists w',
     acq w = Some (None, w') /\
     now w' = deadline /\
     let n := (29 + if timerFirst then 1 else 0)%nat in
     events w' =
       events w ++ rounds evs start n
       ++ evs (start + Z.of_nat n * Second) ++ [EvDone deadline]) /\
  (forall w', acq w = Some (None, w') -> now w' = deadline) /\
  (exists r w', acq w = Some (r, w')).
Proof.
  intros Hacq start deadline.
  destruct (DiskBacked_loop _ _ _ Hacq) as (body & Hbody & Hloop).
  rewrite Hloop. fold start deadline. rewrite pollFuel_value.
  assert (Hfound : forall (k : nat) (blob : BlobData.t),
             (k < 30)%nat ->
             (forall j, (j < k)%nat ->
                        res (start + Z.of_nat j * Second) = None) ->
             res (start + Z.of_nat k * Second) = Some blob ->
             exists w',
               pollLoop 32 body deadline w = Some (Some blob, w') /\
               now w' = start + Z.of_nat k * Second).
  { intros k blob Hk Hnone Hres. eexists. split.
    - apply (pollLoop_found body res evs Hbody k); try assumption.
      + lia.
      + unfold deadline, start. rewrite timeout_seconds. zsec.
    - reflexivity. }
  split; [exact Hfound|]. split; [|split; [|split]].
  - intros appears blob Hrange Hbefore Hafter.
    set (q := (appears - start + Second - 1) / Second).
    assert (Hq : Second * q <= appears - start + Second - 1
                 < Second * q + Second).
    { pose proof (Z.div_mod (appears - start + Second - 1) Second) as Hdm.
      pose proof (Z.mod_pos_bound (appears - start + Second - 1) Second)
        as Hmod.
      fold q in Hdm. unfold Second in *. lia. }
    assert (Hq0 : 0 <= q < 30) by zsec.
    destruct (Hfound (Z.to_nat q) blob) as (w' & Hrun & Hnow).
    + lia.
    + intros j Hj. apply Hbefore. zsec.
    + apply Hafter. zsec.
    + exists w'. split; [exact Hrun|]. rewrite Hnow. zsec.
  - intro Hnone. eexists. split; [|split].
    + apply (pollLoop_never body res evs Hbody 29); try assumption.
      * unfold deadline, start. rewrite timeout_seconds. reflexivity.
      * lia.
    + reflexivity.
    + reflexivity.
  - intros w' H.
    apply (pollLoop_nil_at_deadline body res evs Hbody) in H; [exact H|].
    unfold deadline, start, MediaDownloadTiemout. zsec.
  - apply (pollLoop_returns body res evs Hbody).
    + unfold deadline, start, MediaDownloadTiemout. zsec.
    + lia.
Qed.


(* ================================================================ *)
(** * Blob persistence *)
(* ================================================================ *)








(** C10, as amended.  For a blob with a name that is not empty,
    [saveBlob] writes to the lexical join of the working directory
    with the name as supplied: nothing is removed from the name.  With
    the working directory on a drive, a name [..\x] that steps out of
    it yields a write target beside the working directory, outside
    it; a name made of ordinary names and separators only yields a
    target below the working directory, inside it. *)
Theorem saveBlob_target_unsanitized
  (as_ : AppService) (msg : MatrixMessage) (data : BlobData.t) (w : World) :
  Unmarshal (Data msg) = Some data ->
  BlobData.Name data <> EmptyString ->
  let name := BlobData.Name data in
  let target := filepath.Join [Workdir as_; name] in
  (exists result,
      saveBlob as_ msg w =
      Some (result, record (EvWriteFile target (BlobData.Binary data)) w)) /\
  (forall (c : ascii) (root : bool) (ds : list string) (top x : string)
          (s : ascii),
      onDrive (Workdir as_) c root (ds ++ [top]) ->
      filepath.IsPathSeparator s = true ->
      name = (".." ++ String s x)%string ->
      plainName x ->
      x <> top ->
      target = (drive c ++ filepath.render root (ds ++ [x]))%string /\
      inside (Workdir as_) target = false) /\
  (forall (c : ascii) (root : bool) (es : list string),
      onDrive (Workdir as_) c root es ->
      Forall plainName (filepath.split name) ->
      target
      = (drive c ++ filepath.render root (es ++ filepath.split name))%string /\
      inside (Workdir as_) target = true).
Proof.
  intros Hdata Hname name target. split; [|split].
  - unfold saveBlob. rewrite Hdata. unfold blobPath. fold name.
    assert (L : (0 <? len name) = true).
    { unfold name. destruct (BlobData.Name data); [congruence|].
      apply Z.ltb_lt. unfold len. simpl String.length. lia. }
    rewrite L. fold target. unfold bind, WriteFile, ret.
    destruct (writable target (BlobData.Binary data)); eexists; reflexivity.
  - intros c root ds top x s Hdir Hs Hdots Hx Hsib.
    unfold target. rewrite Hdots.
    rewrite (Join_dotdot _ c root ds top x s Hdir Hx Hs).
    split; [reflexivity|].
    destruct Hdir as (_ & _ & _ & ->).
    apply sibling_not_inside; [|exact Hsib].
    apply plainName_sepFree. exact Hx.
  - intros c root es Hdir Hpath.
    unfold target. rewrite (Join_plain_path _ c root es name Hdir Hpath).
    split; [reflexivity|].
    destruct Hdir as (_ & _ & Hne & ->).
    apply inside_render_app. exact Hne.
Qed.

End Agent.

(* ================================================================== *)
(** * Concrete scenarios *)
(* ================================================================== *)

Definition mentionsExtra : string :=
  "<msgsource><atuserlist> wxid_a,wxid_b </atuserlist></msgsource>".
Definition mentionsDoc : Document :=
  [ElementNode "msgsource" []
     [ElementNode "atuserlist" [] [TextNode " wxid_a,wxid_b "]]].

Definition spacedExtra : string :=
  "<msgsource><atuserlist>a, b</atuserlist></msgsource>".
Definition spacedDoc : Document :=
  [ElementNode "msgsource" []
     [ElementNode "atuserlist" [] [TextNode "a, b"]]].

Definition commasExtra : string :=
  "<msgsource><atuserlist>,</atuserlist></msgsource>".
Definition commasDoc : Document :=
  [ElementNode "msgsource" []
     [ElementNode "atuserlist" [] [TextNode ","]]].

Definition locationPayload : string :=
  "<msg><location x='39.5' y='116.25' label='Beijing'/></msg>".
Definition locationDoc : Document :=
  [ElementNode "msg" []
     [ElementNode "location"
        [("x", "39.5"); ("y", "116.25"); ("label", "Beijing")] []]].

Definition replyPayload : string :=
  "<msg><appmsg><title>Hello</title><refermsg><svrid>12345</svrid><chatusr>alice</chatusr></refermsg></appmsg></msg>".
Definition replyDoc : Document :=
  [ElementNode "msg" []
     [ElementNode "appmsg" []
        [ElementNode "title" [] [TextNode "Hello"];
         ElementNode "refermsg" []
           [ElementNode "svrid" [] [TextNode "12345"];
            ElementNode "chatusr" [] [TextNode "alice"]]]]].

Definition voipPayload : string :=
  "<voipinvitemsg><status>3</status></voipinvitemsg>".
Definition voipDoc : Document :=
  [ElementNode "voipinvitemsg" [] [ElementNode "status" [] [TextNode "3"]]].

Definition stickerPayload : string :=
  "<msg><emoji cdnurl='http://x/y.png' aeskey='deadbeef'/></msg>".
Definition stickerDoc : Document :=
  [ElementNode "msg" []
     [ElementNode "emoji"
        [("cdnurl", "http://x/y.png"); ("aeskey", "deadbeef")] []]].

(** A parser for the payloads of the scenarios: it knows the trees of
    these texts and rejects every other text. *)
Definition scenarioParse (s : string) : option Document :=
  option_map snd
    (find (fun kv => String.eqb (fst kv) s)
       [ (mentionsExtra, mentionsDoc); (spacedExtra, spacedDoc);
         (commasExtra, commasDoc);
         (locationPayload, locationDoc); (replyPayload, replyDoc);
         (voipPayload, voipDoc); (stickerPayload, stickerDoc) ]).

(** A float parser that knows the two coordinates of the scenarios. *)
Definition scenarioParseFloat (s : string) : option float :=
  if String.eqb s "39.5" then Some 39.5%float
  else if String.eqb s "116.25" then Some 116.25%float
  else None.

Definition pixels : list byte := [x89; x50; x4e; x47].

(** A network on which one URL answers. *)
Definition scenarioGet (url : string) : option (list byte) :=
  if String.eqb url "http://x/y.png" then Some pixels else None.

(** A stand-in for the decoder of the inbound blob: one byte for the
    length of the name, the name, then the binary. *)
Definition scenarioUnmarshal (bs : list byte) : option BlobData.t :=
  match bs with
  | [] => None
  | n :: rest =>
      let k := Byte.to_nat n in
      if (List.length rest <? k)%nat then None
      else Some (BlobData.mk (string_of_list_byte (firstn k rest))
                             (skipn k rest))
  end.

(** A stand-in for the hash: sixteen bytes, the same for every input. *)
Definition scenarioSum (_ : list byte) : list byte :=
  [xd4; x1d; x8c; xd9; x8f; x00; xb2; x04;
   xe9; x80; x09; x98; xec; xf8; x42; x7e].

Definition scenarioWritable (_ : string) (_ : list byte) : bool := true.

Definition agent : AppService :=
  {| Workdir := "C:\agent\work"; Docdir := "C:\agent\docs" |}.

(** A message from [alice] with the given payload, extra info and file
    path hint. *)
Definition message (payload extra path : string) : WechatMessage :=
  {| Self := "alice"; Message := payload; ExtraInfo := extra;
     FilePath := path; Thumbnail := EmptyString |}.

(** A disk on which [path] is missing before the instant [since] and
    holds [data] from then on; every other path is missing. *)
Definition diskWith (path : string) (since : Z) (data : list byte)
  : Z -> string -> FileState :=
  fun t p =>
    if String.eqb p path && (since <=? t)%Z then Contents data else Missing.

Definition start : World := {| now := 0; events := [] |}.

(** The directories of the agent are directories on the drive [C]. *)
Lemma agent_workdir : onDrive (Workdir agent) "C" true ["agent"; "work"].
Proof.
  split; [reflexivity|]. split; [|split; [discriminate|reflexivity]].
  repeat constructor; discriminate.
Qed.

Lemma agent_docdir : onDrive (Docdir agent) "C" true ["agent"; "docs"].
Proof.
  split; [reflexivity|]. split; [|split; [discriminate|reflexivity]].
  repeat constructor; discriminate.
Qed.

(** ** The path functions on the cases of Go's own tests *)

(** Pairs of an input and the result that [path_test.go] expects on
    Windows, with the cases of the agent added at the end of each
    table. *)
Definition cleanCases : list (string * string) :=
  [ ("c:", "c:."); ("c:\", "c:\"); ("c:\abc", "c:\abc");
    ("c:abc\..\..\.\.\..\def", "c:..\..\def");
    ("c:\abc\def\..\..", "c:\"); ("c:\..\abc", "c:\abc");
    ("c:..\abc", "c:..\abc"); ("c:\b:\..\..\..\d", "c:\d");
    ("\", "\"); ("/", "\");
    ("\\i\..\c$", "\\i\..\c$"); ("\\i\..\i\c$", "\\i\..\i\c$");
    ("\\host\share\foo\..\bar", "\\host\share\bar");
    ("//host/share/foo/../baz", "\\host\share\baz");
    ("\\host\share\foo\..\..\..\..\bar", "\\host\share\bar");
    ("\\.\C:\a\..\..\..\..\bar", "\\.\C:\bar");
    ("\\.\C:\\\\a", "\\.\C:\a");
    ("\\a\b\..\c", "\\a\b\c"); ("\\a\b", "\\a\b");
    (".\c:", ".\c:"); (".\c:\foo", ".\c:\foo"); (".\c:foo", ".\c:foo");
    ("//abc", "\\abc"); ("///abc", "\\\abc"); ("//abc//", "\\abc\\");
    ("\\?\C:\", "\\?\C:\"); ("\\?\C:\a", "\\?\C:\a");
    ("a/../c:", ".\c:"); ("a\..\c:", ".\c:"); ("a/../c:/a", ".\c:\a");
    ("a/../../c:", "..\c:"); ("foo:bar", "foo:bar");
    ("/a/../??/a", "\.\??\a");
    (EmptyString, "."); ("abc", "abc"); ("abc/def", "abc\def"); ("a/b/c", "a\b\c");
    (".", "."); ("..", ".."); ("../..", "..\.."); ("../../abc", "..\..\abc");
    ("/abc", "\abc"); ("abc/", "abc"); ("abc/def/", "abc\def");
    ("a/b/c/", "a\b\c"); ("./", "."); ("../", ".."); ("../../", "..\..");
    ("/abc/", "\abc"); ("abc//def//ghi", "abc\def\ghi");
    ("abc/./def", "abc\def"); ("/./abc/def", "\abc\def"); ("abc/.", "abc");
    ("abc/def/ghi/../jkl", "abc\def\jkl"); ("abc/def/../ghi/../jkl", "abc\jkl");
    ("abc/def/..", "abc"); ("abc/def/../..", "."); ("/abc/def/../..", "\");
    ("abc/def/../../..", ".."); ("/abc/def/../../..", "\");
    ("abc/def/../../../ghi/jkl/../../../mno", "..\..\mno");
    ("/../abc", "\abc"); ("a/../b:/../../c", "..\c");
    ("abc/./../def", "def"); ("abc//./../def", "def"); ("abc/../../././../def", "..\..\def") ].

Example Clean_cases :
  forallb (fun t => String.eqb (filepath.Clean (fst t)) (snd t)) cleanCases
  = true.
Proof. vm_compute. reflexivity. Qed.

Definition joinCases : list (list string * string) :=
  [ (["directory"; "file"], "directory\file");
    (["C:\Windows\"; "System32"], "C:\Windows\System32");
    (["C:\Windows\"; EmptyString], "C:\Windows");
    (["C:\"; "Windows"], "C:\Windows");
    (["C:"; "a"], "C:a"); (["C:"; "a\b"], "C:a\b"); (["C:"; "a"; "b"], "C:a\b");
    (["C:"; EmptyString; "b"], "C:b"); (["C:"; EmptyString; EmptyString; "b"], "C:b");
    (["C:"; EmptyString], "C:."); (["C:"; EmptyString; EmptyString], "C:.");
    (["C:"; "\a"], "C:\a"); (["C:"; EmptyString; "\a"], "C:\a");
    (["C:."; "a"], "C:a"); (["C:a"; "b"], "C:a\b"); (["C:a"; "b"; "d"], "C:a\b\d");
    (["\\host\share"; "foo"], "\\host\share\foo");
    (["\\host\share\foo"], "\\host\share\foo");
    (["//host/share"; "foo/bar"], "\\host\share\foo\bar");
    (["\"], "\"); (["\"; EmptyString], "\"); (["\"; "a"], "\a");
    (["\\"; "a"], "\\a"); (["\"; "a"; "b"], "\a\b"); (["\\"; "a"; "b"], "\\a\b");
    (["\"; "\\a\b"; "c"], "\a\b\c"); (["\\a"; "b"; "c"], "\\a\b\c");
    (["\\a\"; "b"; "c"], "\\a\b\c"); (["//"; "a"], "\\a");
    (["a:\b\c"; "x\..\y:\..\..\z"], "a:\b\z");
    (["\"; "??\a"], "\.\??\a");
    ([], EmptyString); ([EmptyString], EmptyString); (["a"], "a"); (["a"; EmptyString], "a"); ([EmptyString; "a"], "a");
    ([EmptyString; EmptyString], EmptyString); (["a"; "b"], "a\b"); (["a"; EmptyString; "b"], "a\b");
    (["D:"; "WeChat Files"], "D:WeChat Files");
    (["C:\docs"; "..\..\secret.txt"], "C:\secret.txt");
    (["C:"; "..\x"], "C:..\x") ].

Example Join_cases :
  forallb (fun t => String.eqb (filepath.Join (fst t)) (snd t)) joinCases
  = true.
Proof. vm_compute. reflexivity. Qed.

Definition baseCases : list (string * string) :=
  [ (EmptyString, "."); (".", "."); ("/.", "."); ("/", "\"); ("////", "\"); ("x/", "x");
    ("abc", "abc"); ("abc/def", "def"); ("a/b/.x", ".x"); ("a/b/c.", "c."); ("a/b/c.x", "c.x");
    ("c:\", "\"); ("c:.", "."); ("c:\a\b", "b"); ("c:a\b", "b"); ("c:a\b\c", "c");
    ("\\host\share\", "\"); ("\\host\share\a", "a"); ("\\host\share\a\b", "b");
    ("C:abc.dat", "abc.dat"); ("C:", "\") ].

Example Base_cases :
  forallb (fun t => String.eqb (filepath.Base (fst t)) (snd t)) baseCases
  = true.
Proof. vm_compute. reflexivity. Qed.

Definition volumeCases : list (string * string) :=
  [ ("c:/foo/bar", "c:"); ("c:", "c:"); ("c:\", "c:"); ("2:", "2:"); (EmptyString, EmptyString);
    ("\\\host", "\\\host"); ("\\\host\", "\\\host"); ("\\\host\share", "\\\host");
    ("\\\host\\share", "\\\host"); ("\\host", "\\host"); ("//host", "\\host");
    ("\\host\", "\\host\"); ("//host/", "\\host\");
    ("\\host\share", "\\host\share"); ("//host/share", "\\host\share");
    ("\\host\share\", "\\host\share"); ("//host/share/", "\\host\share");
    ("\\host\share\foo", "\\host\share"); ("//host/share/foo", "\\host\share");
    ("\\host\share\\foo\\\bar\\\\baz", "\\host\share");
    ("//host/share//foo///bar////baz", "\\host\share");
    ("\\host\share\foo\..\bar", "\\host\share");
    ("//host/share/foo/../bar", "\\host\share");
    ("//.", "\\."); ("//./", "\\.\"); ("//./NUL", "\\.\NUL");
    ("//?", "\\?"); ("//?/", "\\?\"); ("//?/NUL", "\\?\NUL");
    ("/??", "\??"); ("/??/", "\??\"); ("/??/NUL", "\??\NUL");
    ("//./a/b", "\\.\a"); ("//./C:", "\\.\C:"); ("//./C:/", "\\.\C:");
    ("//./C:/a/b/c", "\\.\C:"); ("//./UNC/host/share/a/b/c", "\\.\UNC\host\share");
    ("//./UNC/host", "\\.\UNC\host"); ("//./UNC/host\", "\\.\UNC\host\");
    ("//./UNC", "\\.\UNC"); ("//./UNC/", "\\.\UNC\");
    ("\\?\x", "\\?\x"); ("\??\x", "\??\x") ].

Example VolumeName_cases :
  forallb (fun t => String.eqb (filepath.VolumeName (fst t)) (snd t))
          volumeCases
  = true.
Proof. vm_compute. reflexivity. Qed.

(** ** The extractors *)

Lemma getMentions_witness :
  getMentions scenarioParse agent (message EmptyString mentionsExtra EmptyString)
  = Some ["wxid_a"; "wxid_b"].
Proof.
  refine (proj1 (getMentions_splits_trimmed_text scenarioParse agent
                   (message EmptyString mentionsExtra EmptyString)
                   mentionsDoc eq_refl)
                ["wxid_a"; "wxid_b"] _ _ _ _).
  - discriminate.
  - discriminate.
  - repeat constructor; discriminate.
  - reflexivity.
Defined.

(** White space after a comma stays in the identifier that follows. *)
Lemma getMentions_inner_space_kept :
  let msg := message EmptyString spacedExtra EmptyString in
  let ids := ["a"; " b"] in
  scenarioParse (ExtraInfo msg) = Some spacedDoc /\
  text (FindOne spacedDoc (Path ["msgsource"; "atuserlist"]))
  = strings.Join ids "," /\
  getMentions scenarioParse agent msg = Some ["a"; " b"] /\
  getMentions scenarioParse agent msg <> Some (map strings.TrimSpace ids).
Proof.
  cbv zeta. repeat split; try reflexivity. vm_compute. discriminate.
Qed.

(** A list that is not empty and holds no identifier: the result is an
    empty slice that is not nil. *)
Example getMentions_commas_only :
  getMentions scenarioParse agent (message EmptyString commasExtra EmptyString)
  = Some [].
Proof. reflexivity. Qed.

Lemma parseLocation_witness :
  exists loc,
    parseLocation scenarioParse scenarioParseFloat agent
      (message locationPayload EmptyString EmptyString) = Some loc /\
    LocationData.Latitude loc = 39.5%float /\
    LocationData.Longitude loc = 116.25%float /\
    LocationData.Name loc = EmptyString /\
    LocationData.Address loc = "Beijing".
Proof.
  refine (proj1 (parseLocation_coordinates scenarioParse scenarioParseFloat
                   agent (message locationPayload EmptyString EmptyString)
                   locationDoc eq_refl)
                39.5%float 116.25%float _ _ eq_refl eq_refl).
  - discriminate.
  - discriminate.
Defined.

Lemma parseReply_witness :
  parseReply scenarioParse agent (message replyPayload EmptyString EmptyString)
  = Some ("Hello", {| ID := 12345; Sender := "alice" |}).
Proof.
  apply (proj2 (parseReply_iff scenarioParse agent
                  (message replyPayload EmptyString EmptyString) _)).
  exists replyDoc, "Hello", 12345%Z, "alice".
  repeat split; try reflexivity; discriminate.
Defined.

Lemma parsePrivateVoIP_witness :
  parsePrivateVoIP scenarioParse agent
    (message voipPayload EmptyString EmptyString)
  = "VoIP: Unknown status 3".
Proof.
  refine (proj2 (proj2 (parsePrivateVoIP_status scenarioParse agent
                          (message voipPayload EmptyString EmptyString)
                          voipDoc
                          (ElementNode "status" [] [TextNode "3"])
                          eq_refl eq_refl)) _ _).
  - discriminate.
  - discriminate.
Defined.

(** ** The sticker *)

Lemma downloadSticker_witness :
  downloadSticker scenarioParse scenarioGet agent
    (message stickerPayload EmptyString EmptyString) start
  = Some (Some (BlobData.mk "deadbeef" pixels),
          record (EvGet "http://x/y.png") start).
Proof.
  destruct (proj1 (downloadSticker_fetches scenarioParse scenarioGet agent
                     (message stickerPayload EmptyString EmptyString)
                     stickerDoc start eq_refl))
    as (blob & Hrun & Hok & _).
  - discriminate.
  - discriminate.
  - rewrite Hrun, (Hok pixels eq_refl). reflexivity.
Defined.

(** ** The disk-backed resolvers *)

(** The hint names a file on the current directory of a drive: only
    its base name, without the drive and the extension, is looked for
    under the directory of the sender. *)
Lemma downloadImage_candidate_order_witness :
  let msg := message EmptyString EmptyString "C:abc.dat" in
  let plain := message EmptyString EmptyString "abc" in
  imageCandidates agent msg
  = ["C:\agent\work\alice\abc"; "C:\agent\work\alice\abc.png";
     "C:\agent\work\alice\abc.gif"; "C:\agent\work\alice\abc.jpg"] /\
  baseFile agent msg <> imageFile agent msg /\
  baseFile agent plain = imageFile agent plain.
Proof.
  cbv zeta. split; [reflexivity|]. split.
  - intro E.
    apply (proj1 (proj2 (proj2 (downloadImage_candidate_order
                                  (diskWith EmptyString 0 pixels) false agent
                                  (message EmptyString EmptyString "C:abc.dat")
                                  start)))) in E.
    vm_compute in E. discriminate.
  - apply (proj2 (proj2 (proj2 (downloadImage_candidate_order
                                  (diskWith EmptyString 0 pixels) false agent
                                  (message EmptyString EmptyString "abc")
                                  start)))).
    reflexivity.
Defined.

(** The hinted file is on the disk from the start, under the name the
    hint gives it, and [downloadImage] never looks at it: the four paths
    of its rounds all have the extension of the hint removed. *)
Lemma downloadImage_hint_not_probed :
  let msg := message EmptyString EmptyString "abc.dat" in
  let hinted := "C:\agent\work\alice\abc.dat" in
  let disk := diskWith hinted 0 pixels in
  imageFile agent msg = hinted /\
  disk 0%Z hinted = Contents pixels /\
  tryImage disk agent msg start
  = Some (None,
          {| now := 0;
             events := [EvStat 0 "C:\agent\work\alice\abc";
                        EvStat 0 "C:\agent\work\alice\abc.png";
                        EvStat 0 "C:\agent\work\alice\abc.gif";
                        EvStat 0 "C:\agent\work\alice\abc.jpg"] |}) /\
  hd_error (imageCandidates agent msg) <> Some hinted /\
  hd_error (imageCandidates agent msg) <> Some (FilePath msg) /\
  option_map fst (downloadImage disk false agent msg start) = Some None.
Proof.
  cbv zeta. repeat split; try (vm_compute; reflexivity);
    vm_compute; discriminate.
Qed.

(** A first candidate that exists and cannot be read (a directory, say)
    hides the readable [abc.png] behind it: the [switch] reads the first
    path that exists and no other. *)
Example image_hidden_by_unreadable_candidate :
  let msg := message EmptyString EmptyString "abc.dat" in
  let disk := fun (_ : Z) (p : string) =>
                if String.eqb p "C:\agent\work\alice\abc" then Unreadable
                else if String.eqb p "C:\agent\work\alice\abc.png"
                     then Contents pixels
                     else Missing in
  option_map (fun r => (fst r, now (snd r)))
             (downloadImage disk false agent msg start)
  = Some (None, MediaDownloadTiemout).
Proof. vm_compute. reflexivity. Qed.

Lemma blob_name_of_acquisition_witness :
  let file := filepath.Join [Docdir agent; "report.pdf"] in
  BlobData.Name (BlobData.mk "report.pdf" pixels) = filepath.Base file /\
  diskWith "C:\agent\docs\report.pdf" 0 pixels 0%Z file = Contents pixels.
Proof.
  exact (proj2 (proj2 (proj2
           (blob_name_of_acquisition scenarioParse
              (diskWith "C:\agent\docs\report.pdf" 0 pixels) false agent
              (message EmptyString EmptyString "report.pdf") start
              {| now := 0;
                 events := [EvStat 0 "C:\agent\docs\report.pdf";
                            EvReadFile 0 "C:\agent\docs\report.pdf"] |}
              (BlobData.mk "report.pdf" pixels))))
           eq_refl).
Defined.

(** C3.  The hint is [abc.dat] and the only image on the disk is
    [abc.png]: [downloadImage] reads [abc.png] and names the blob
    [abc.dat], the base name of the hint, which is not the base name of
    the file it read.  [downloadFile], given [abc.png] under the
    document directory, names its blob by the file it read. *)
Lemma image_blob_named_by_hint :
  let msg := message EmptyString EmptyString "abc.dat" in
  let png := "C:\agent\work\alice\abc.png" in
  let disk := diskWith png 0 pixels in
  find (present disk 0) (imageCandidates agent msg) = Some png /\
  disk 0%Z png = Contents pixels /\
  option_map fst (downloadImage disk false agent msg start)
  = Some (Some (BlobData.mk "abc.dat" pixels)) /\
  filepath.Base png = "abc.png" /\
  BlobData.Name (BlobData.mk "abc.dat" pixels) <> filepath.Base png /\
  option_map fst
    (downloadFile (diskWith "C:\agent\docs\abc.png" 0 pixels) false agent
       (message EmptyString EmptyString "abc.png") start)
  = Some (Some (BlobData.mk "abc.png" pixels)).
Proof.
  cbv zeta. repeat split; try (vm_compute; reflexivity).
  vm_compute. discriminate.
Qed.

Lemma media_poll_deadline_witness :
  let disk := diskWith "C:\agent\docs\report.pdf" 2000000000 pixels in
  exists w',
    downloadFile disk false agent
      (message EmptyString EmptyString "report.pdf") start
    = Some (Some (BlobData.mk "report.pdf" pixels), w') /\
    now w' = (0 + Z.of_nat 2 * Second)%Z.
Proof.
  refine (proj1 (media_poll_deadline scenarioParse
                   (diskWith "C:\agent\docs\report.pdf" 2000000000 pixels) false
                   _ _ _ start
                   (FileKind scenarioParse _ false agent
                      (message EmptyString EmptyString "report.pdf")))
                2%nat (BlobData.mk "report.pdf" pixels) _ _ _).
  - lia.
  - intros j Hj. destruct j as [|[|j]]; [reflexivity|reflexivity|lia].
  - reflexivity.
Defined.

(** The file appears 29.5 seconds after the start, half a second before
    the deadline and half a second after the last round; the deadline
    wins the tie with the timer and the acquisition returns nil. *)
Lemma late_file_missed :
  let msg := message EmptyString EmptyString "report.pdf" in
  let file := "C:\agent\docs\report.pdf" in
  let appears := 29500000000%Z in
  let disk := diskWith file appears pixels in
  filepath.Join [Docdir agent; FilePath msg] = file /\
  (0 <= appears < MediaDownloadTiemout)%Z /\
  (forall t, (appears <= t)%Z -> disk t file = Contents pixels) /\
  option_map (fun r => (fst r, now (snd r)))
             (downloadFile disk false agent msg start)
  = Some (None, MediaDownloadTiemout).
Proof.
  cbv zeta. repeat split; try (vm_compute; reflexivity).
  - vm_compute. discriminate.
  - intros t Ht. unfold diskWith. rewrite String.eqb_refl.
    apply Z.leb_le in Ht. rewrite Ht. reflexivity.
Qed.

(** ** Blob persistence *)


(** The digest names a blob without a name. *)
Example saveBlob_digest_name :
  saveBlob scenarioUnmarshal scenarioSum scenarioWritable agent
    {| Data := x00 :: pixels |} start
  = Some ("C:\agent\work\d41d8cd98f00b204e9800998ecf8427e",
          record (EvWriteFile
                    "C:\agent\work\d41d8cd98f00b204e9800998ecf8427e"
                    pixels) start).
Proof. reflexivity. Qed.


Lemma saveBlob_target_unsanitized_witness :
  filepath.Join [Workdir agent; "..\evil.txt"] = "C:\agent\evil.txt" /\
  inside (Workdir agent) (filepath.Join [Workdir agent; "..\evil.txt"]) = false.
Proof.
  refine (proj1 (proj2 (saveBlob_target_unsanitized
                          scenarioUnmarshal scenarioSum scenarioWritable agent
                          {| Data := x0b :: list_byte_of_string "..\evil.txt"
                                         ++ pixels |}
                          (BlobData.mk "..\evil.txt" pixels) start
                          eq_refl _))
                "C"%char true ["agent"] "work" "evil.txt" "\"%char
                agent_workdir eq_refl eq_refl _ _).
  - discriminate.
  - apply plainName_literal; reflexivity || discriminate.
  - discriminate.
Defined.

(** A name with a separator and no [..]: the target is below the
    working directory. *)
Lemma separator_name_stays_inside :
  let name := "sub\photo.jpg" in
  let msg := {| Data := x0d :: list_byte_of_string name ++ pixels |} in
  scenarioUnmarshal (Data msg) = Some (BlobData.mk name pixels) /\
  strings.existsb filepath.IsPathSeparator name = true /\
  saveBlob scenarioUnmarshal scenarioSum scenarioWritable agent msg start
  = Some ("C:\agent\work\sub\photo.jpg",
          record (EvWriteFile "C:\agent\work\sub\photo.jpg" pixels) start) /\
  inside (Workdir agent) "C:\agent\work\sub\photo.jpg" = true.
Proof.
  cbv zeta. repeat split; vm_compute; reflexivity.
Qed.

(* ================================================================== *)
(** * The rest of [internal/util.go] *)
(* ================================================================== *)

(** ** More of Go's standard library *)

Module atoi.

(** The bounds of Go's [int] on the 64-bit targets. *)
Definition minInt : Z := - 2 ^ 63.
Definition maxInt : Z := 2 ^ 63 - 1.

(** [strconv.Atoi]: an optional sign, then what [ParseUint] reads in
    base 10; a value outside the range of [int] is an error. *)
Definition Atoi (s : string) : option Z :=
  match s with
  | EmptyString => None
  | String c rest =>
      let neg := Ascii.eqb c "-" in
      let digits := if neg || Ascii.eqb c "+" then rest else s in
      match strconv.ParseUint digits with
      | None => None
      | Some un =>
          if neg then (if 2 ^ 63 <? un then None else Some (- un))
          else (if 2 ^ 63 <=? un then None else Some un)
      end
  end.

End atoi.

Module url.

(** [shouldEscape(c, encodeQueryComponent)]: every byte but the
    unreserved ones, which are the letters, the digits and [-_.~]. *)
Definition shouldEscape (c : ascii) : bool :=
  let n := nat_of_ascii c in
  negb (((97 <=? n) && (n <=? 122)) || ((65 <=? n) && (n <=? 90))
        || ((48 <=? n) && (n <=? 57))
        || (n =? 45) || (n =? 95) || (n =? 46) || (n =? 126))%nat.

(** The digit [n] of the table [upperhex]. *)
Definition upperhex (n : nat) : ascii :=
  match n with
  | 0 => "0" | 1 => "1" | 2 => "2" | 3 => "3" | 4 => "4" | 5 => "5"
  | 6 => "6" | 7 => "7" | 8 => "8" | 9 => "9" | 10 => "A" | 11 => "B"
  | 12 => "C" | 13 => "D" | 14 => "E" | _ => "F"
  end%char%nat.

(** What [QueryEscape] writes for one byte: the byte itself, [+] for a
    space, or [%] and two hexadecimal digits. *)
Definition escapeByte (c : ascii) : string :=
  if shouldEscape c then
    if Ascii.eqb c " " then "+"
    else
      let n := nat_of_ascii c in
      String "%" (String (upperhex (Nat.div n 16))
                         (String (upperhex (Nat.modulo n 16)) EmptyString))
  else String c EmptyString.

(** [url.QueryEscape]. *)
Fixpoint QueryEscape (s : string) : string :=
  match s with
  | EmptyString => EmptyString
  | String c s' => (escapeByte c ++ QueryEscape s')%string
  end.

End url.

Module LinkData.
Record t : Type := mk {
  Title : string;
  Description : string;
  URL : string
}.
End LinkData.

(** How a call ends: it returns, or the goroutine panics. *)
Inductive outcome (A : Type) : Type :=
| Returned (a : A)
| Panicked.
Arguments Returned {A} a.
Arguments Panicked {A}.

Ltac zsecs := unfold Second, MediaDownloadTiemout in *; lia.

Section Rest.

Variable Parse : string -> option Document.
Variable ParseFloat : string -> option float.
Variable disk : Z -> string -> FileState.
Variable timerFirst : bool.
Variable httpGet : string -> option (list byte).
Variable Unmarshal : list byte -> option BlobData.t.
Variable md5_Sum : list byte -> list byte.
Variable writable : string -> list byte -> bool.

(** ** [getAppType] *)

Definition getAppType (as_ : AppService) (msg : WechatMessage) : Z :=
  match Parse (Message msg) with
  | None => 0
  | Some doc =>
      let node := FindOne doc (Path ["msg"; "appmsg"; "type"]) in
      if nilOrEmpty node then 0
      else
        match atoi.Atoi (text node) with
        | Some appType => appType
        | None => 0
        end
  end.

(** ** [parseNotice] *)

Definition parseNotice (as_ : AppService) (msg : WechatMessage) : string :=
  match Parse (Message msg) with
  | None => EmptyString
  | Some doc =>
      match FindOne doc (Path ["msg"; "appmsg"; "textannouncement"]) with
      | None => EmptyString
      | Some noticeNode => InnerText noticeNode
      end
  end.

(** ** [parseApp] *)

Definition parseApp (as_ : AppService) (msg : WechatMessage)
  : option LinkData.t :=
  match Parse (Message msg) with
  | None => None
  | Some doc =>
      let titleNode := FindOne doc (Path ["msg"; "appmsg"; "title"]) in
      if nilOrEmpty titleNode then None
      else
        let urlNode := FindOne doc (Path ["msg"; "appmsg"; "url"]) in
        let url := text urlNode in
        let desNode := FindOne doc (Path ["msg"; "appmsg"; "des"]) in
        let des := text desNode in
        Some (LinkData.mk (text titleNode) des url)
  end.

(** ** [parseRevoke] *)

Definition parseRevoke (as_ : AppService) (msg : WechatMessage) : string :=
  match Parse (Message msg) with
  | None => EmptyString
  | Some doc =>
      match FindOne doc (Path ["revokemsg"]) with
      | None => EmptyString
      | Some revokeNode => InnerText revokeNode
      end
  end.

(** ** [parseSystemMessage] *)

Definition parseSystemMessage (as_ : AppService) (msg : WechatMessage)
  : string :=
  match Parse (Message msg) with
  | None => EmptyString
  | Some doc =>
      match FindOne doc (Path ["sysmsg"; "voipmt"; "invite"]) with
      | Some inviteNode => ("VoIP: " ++ InnerText inviteNode)%string
      | None =>
          match FindOne doc (Path ["sysmsg"; "voipmt"; "banner"]) with
          | Some bannerNode => ("VoIP: " ++ InnerText bannerNode)%string
          | None => EmptyString
          end
      end
  end.


(* ================================================================ *)
(** ** Facts about the rest of the extractors *)
(* ================================================================ *)

Lemma digit_not_sign (c : ascii) (d : Z) :
  strconv.digit c = Some d ->
  Ascii.eqb c "-" = false /\ Ascii.eqb c "+" = false.
Proof.
  intro H. split.
  - destruct (Ascii.eqb c "-") eqn:E; [|reflexivity].
    apply Ascii.eqb_eq in E. subst c. discriminate H.
  - destruct (Ascii.eqb c "+") eqn:E; [|reflexivity].
    apply Ascii.eqb_eq in E. subst c. discriminate H.
Qed.

(** [Atoi] accepts exactly an optional sign followed by decimal digits
    whose signed value fits [int], and returns that value. *)
Lemma Atoi_spec (s : string) (v : Z) :
  atoi.Atoi s = Some v <->
  exists digits,
    digits <> EmptyString /\ allDigits digits = true /\
    (((s = digits \/ s = String "+" digits) /\ v = decimalValue digits 0) \/
     (s = String "-" digits /\ v = - decimalValue digits 0)) /\
    atoi.minInt <= v <= atoi.maxInt.
Proof.
  assert (Hmin : atoi.minInt = - 9223372036854775808) by reflexivity.
  assert (Hmax : atoi.maxInt = 9223372036854775807) by reflexivity.
  assert (Hu : strconv.maxUint64 = 18446744073709551615) by reflexivity.
  assert (Hp : 2 ^ 63 = 9223372036854775808) by reflexivity.
  rewrite Hmin, Hmax. split.
  - destruct s as [|c rest]; [discriminate|].
    unfold atoi.Atoi. rewrite Hp.
    destruct (Ascii.eqb c "-") eqn:Eneg.
    + apply Ascii.eqb_eq in Eneg. subst c. cbn [orb].
      destruct (strconv.ParseUint rest) as [un|] eqn:E; [|discriminate].
      apply ParseUint_spec in E. destruct E as (Hne & Hd & Hv & Hr).
      destruct (9223372036854775808 <? un) eqn:L; [discriminate|].
      apply Z.ltb_ge in L. intro H. inversion H; subst v.
      exists rest. repeat split; try assumption; try lia.
      right. split; [reflexivity|lia].
    + cbn [orb]. destruct (Ascii.eqb c "+") eqn:Epos.
      * apply Ascii.eqb_eq in Epos. subst c.
        destruct (strconv.ParseUint rest) as [un|] eqn:E; [|discriminate].
        apply ParseUint_spec in E. destruct E as (Hne & Hd & Hv & Hr).
        destruct (9223372036854775808 <=? un) eqn:L; [discriminate|].
        apply Z.leb_gt in L. intro H. inversion H; subst v.
        exists rest. repeat split; try assumption; try lia.
        left. split; [right; reflexivity|lia].
      * destruct (strconv.ParseUint (String c rest)) as [un|] eqn:E;
          [|discriminate].
        apply ParseUint_spec in E. destruct E as (Hne & Hd & Hv & Hr).
        destruct (9223372036854775808 <=? un) eqn:L; [discriminate|].
        apply Z.leb_gt in L. intro H. inversion H; subst v.
        exists (String c rest). repeat split; try assumption; try lia.
        left. split; [left; reflexivity|lia].
  - intros (digits & Hne & Hd & Hcase & Hr).
    assert (Hparse : forall m, m = decimalValue digits 0 ->
                               m <= strconv.maxUint64 ->
                               strconv.ParseUint digits = Some m).
    { intros m Hm Hle. apply ParseUint_spec. repeat split; try assumption.
      - congruence.
      - subst m. apply decimalValue_ge. lia. }
    pose proof (decimalValue_ge digits 0 (Z.le_refl 0)) as Hge.
    destruct Hcase as [[[Hs|Hs] Hv]|[Hs Hv]]; subst s.
    + destruct digits as [|c rest]; [congruence|].
      assert (Hc : exists d, strconv.digit c = Some d).
      { simpl in Hd. destruct (strconv.digit c) as [d|]; [eauto|discriminate]. }
      destruct Hc as [d Hc]. destruct (digit_not_sign c d Hc) as [E1 E2].
      unfold atoi.Atoi. rewrite E1, E2. cbn [orb].
      rewrite (Hparse v) by (try assumption; lia). rewrite Hp.
      destruct (9223372036854775808 <=? v) eqn:L; [|reflexivity].
      apply Z.leb_le in L. lia.
    + unfold atoi.Atoi. cbn [Ascii.eqb Bool.eqb orb andb].
      change (Ascii.eqb "+" "-") with false.
      change (Ascii.eqb "+" "+") with true. cbn [orb].
      rewrite (Hparse v) by (try assumption; lia). rewrite Hp.
      destruct (9223372036854775808 <=? v) eqn:L; [|reflexivity].
      apply Z.leb_le in L. lia.
    + unfold atoi.Atoi. change (Ascii.eqb "-" "-") with true. cbn [orb].
      rewrite (Hparse (- v)) by lia. rewrite Hp.
      destruct (9223372036854775808 <? - v) eqn:L.
      * apply Z.ltb_lt in L. lia.
      * f_equal. lia.
Qed.

(** X1.  [getAppType] always returns a value of the 64-bit [int] range.
    A value other than 0 is returned exactly when the payload parses and
    the text of the type node is an optional sign followed by decimal
    digits of that value; in every other case (parse error, absent or
    empty node, anything that is not such a number, overflow) the
    result is 0, the same as for a type node that reads 0. *)
Theorem getAppType_value (as_ : AppService) (msg : WechatMessage) :
  atoi.minInt <= getAppType as_ msg <= atoi.maxInt /\
  (forall v : Z,
      v <> 0 ->
      (getAppType as_ msg = v <->
       exists doc digits,
         Parse (Message msg) = Some doc /\
         digits <> EmptyString /\ allDigits digits = true /\
         (let t := text (FindOne doc (Path ["msg"; "appmsg"; "type"])) in
          ((t = digits \/ t = String "+" digits) /\
           v = decimalValue digits 0) \/
          (t = String "-" digits /\ v = - decimalValue digits 0)) /\
         atoi.minInt <= v <= atoi.maxInt)).
Proof.
  assert (H0 : atoi.minInt <= 0 <= atoi.maxInt) by (split; discriminate).
  unfold getAppType. split.
  - destruct (Parse (Message msg)) as [doc|]; [|exact H0].
    destruct (nilOrEmpty _); [exact H0|].
    destruct (atoi.Atoi _) as [v|] eqn:E; [|exact H0].
    apply Atoi_spec in E. destruct E as (_ & _ & _ & _ & H). exact H.
  - intros v Hv. split.
    + destruct (Parse (Message msg)) as [doc|]; [|congruence].
      destruct (nilOrEmpty _); [congruence|].
      destruct (atoi.Atoi _) as [a|] eqn:E; [|congruence].
      intro H. subst a. apply Atoi_spec in E.
      destruct E as (digits & Hne & Hd & Hcase & Hr).
      exists doc, digits.
      exact (conj eq_refl (conj Hne (conj Hd (conj Hcase Hr)))).
    + intros (doc & digits & Hdoc & Hne & Hd & Hcase & Hr). rewrite Hdoc.
      assert (E : atoi.Atoi (text (FindOne doc (Path ["msg"; "appmsg"; "type"])))
                  = Some v).
      { apply Atoi_spec. exists digits.
        exact (conj Hne (conj Hd (conj Hcase Hr))). }
      destruct (nilOrEmpty _) eqn:En.
      * apply nilOrEmpty_true in En. rewrite En in E. discriminate.
      * rewrite E. reflexivity.
Qed.

(** X2.  [parseApp] returns a link exactly when the payload parses and
    its title is not empty; the link carries that title, and the texts
    of the [des] and [url] nodes, each the empty string when its node is
    absent, whatever the other is. *)
Theorem parseApp_iff
  (as_ : AppService) (msg : WechatMessage) (link : LinkData.t) :
  parseApp as_ msg = Some link <->
  exists doc,
    Parse (Message msg) = Some doc /\
    text (FindOne doc (Path ["msg"; "appmsg"; "title"])) <> EmptyString /\
    LinkData.Title link = text (FindOne doc (Path ["msg"; "appmsg"; "title"])) /\
    LinkData.Description link =
      match FindOne doc (Path ["msg"; "appmsg"; "des"]) with
      | Some n => InnerText n
      | None => EmptyString
      end /\
    LinkData.URL link =
      match FindOne doc (Path ["msg"; "appmsg"; "url"]) with
      | Some n => InnerText n
      | None => EmptyString
      end.
Proof.
  unfold parseApp. split.
  - destruct (Parse (Message msg)) as [doc|]; [|discriminate].
    destruct (nilOrEmpty _) eqn:E; [discriminate|].
    intro H. inversion H; subst link. exists doc.
    repeat split; try reflexivity.
    intro Ht. apply nilOrEmpty_true in Ht. congruence.
  - intros (doc & Hdoc & Hne & Ht & Hd & Hu). rewrite Hdoc.
    destruct (nilOrEmpty _) eqn:E.
    + apply nilOrEmpty_true in E. contradiction.
    + destruct link as [t d u]. simpl in *. subst. reflexivity.
Qed.

(** X3.  Every payload that [parseReply] matches is also matched by
    [parseApp], with the same title: a reply is a link card whose
    title is the quoted text. *)
Theorem parseReply_matches_parseApp
  (as_ : AppService) (msg : WechatMessage) (title : string)
  (info : ReplyInfo) :
  parseReply Parse as_ msg = Some (title, info) ->
  exists link,
    parseApp as_ msg = Some link /\ LinkData.Title link = title.
Proof.
  unfold parseReply, parseApp.
  destruct (Parse (Message msg)) as [doc|]; [|discriminate].
  destruct (nilOrEmpty (FindOne doc (Path ["msg"; "appmsg"; "title"])));
    [discriminate|].
  destruct (nilOrEmpty (FindOne doc (Path ["msg"; "appmsg"; "refermsg"; "svrid"])));
    [discriminate|].
  match goal with
  | |- context [if nilOrEmpty ?n then None else _] =>
      destruct (nilOrEmpty n); [discriminate|]
  end.
  destruct (strconv.ParseUint _); [|discriminate].
  intro H. inversion H; subst. eexists. split; reflexivity.
Qed.

(** X4.  The ID of a reply that [parseReply] returns is the value of the
    decimal digits of the [svrid] node, which holds nothing but digits,
    and fits an unsigned 64-bit integer. *)
Theorem parseReply_id_digits
  (as_ : AppService) (msg : WechatMessage) (title : string)
  (info : ReplyInfo) :
  parseReply Parse as_ msg = Some (title, info) ->
  exists doc,
    Parse (Message msg) = Some doc /\
    let svrid :=
      text (FindOne doc (Path ["msg"; "appmsg"; "refermsg"; "svrid"])) in
    allDigits svrid = true /\
    ID info = decimalValue svrid 0 /\
    0 <= ID info <= 2 ^ 64 - 1.
Proof.
  unfold parseReply.
  destruct (Parse (Message msg)) as [doc|]; [|discriminate].
  destruct (nilOrEmpty (FindOne doc (Path ["msg"; "appmsg"; "title"])));
    [discriminate|].
  destruct (nilOrEmpty (FindOne doc (Path ["msg"; "appmsg"; "refermsg"; "svrid"])));
    [discriminate|].
  match goal with
  | |- context [if nilOrEmpty ?n then None else _] =>
      destruct (nilOrEmpty n); [discriminate|]
  end.
  destruct (strconv.ParseUint _) as [msgId|] eqn:E; [|discriminate].
  intro H. inversion H; subst. exists doc. split; [reflexivity|].
  apply ParseUint_spec in E. destruct E as (_ & Hd & Hv & Hr).
  cbv zeta. cbn [ID].
  split; [exact Hd|]. split; [symmetry; exact Hv|]. exact Hr.
Qed.


(** X5.  An invitation without a status node does not stop
    [parsePrivateVoIP]: when no status node is found and the payload has
    a [voipmsg] root, the result is the fixed prefix followed by the
    text of the first [msg] element of the document, wherever it is. *)
Theorem parsePrivateVoIP_bubble
  (as_ : AppService) (msg : WechatMessage) (doc : Document)
  (bubbleNode msgNode : Node) :
  Parse (Message msg) = Some doc ->
  FindOne doc (Path ["voipinvitemsg"; "status"]) = None ->
  FindOne doc (Path ["voipmsg"]) = Some bubbleNode ->
  FindOne doc (AnyElement "msg") = Some msgNode ->
  parsePrivateVoIP Parse as_ msg = ("VoIP: " ++ InnerText msgNode)%string.
Proof.
  intros Hdoc Hstatus Hbubble Hmsg. unfold parsePrivateVoIP.
  rewrite Hdoc, Hstatus, Hbubble, Hmsg.
  destruct (FindOne doc (Path ["voipinvitemsg"])); reflexivity.
Qed.

(** X6.  [parsePrivateVoIP] returns either the empty string or a string
    that starts with [VoIP: ].  It is empty exactly when the payload
    does not parse, or holds no status node under an invitation and
    lacks either the [voipmsg] root or a [msg] element. *)
Theorem parsePrivateVoIP_empty_iff (as_ : AppService) (msg : WechatMessage) :
  let r := parsePrivateVoIP Parse as_ msg in
  (r = EmptyString <->
   match Parse (Message msg) with
   | None => True
   | Some doc =>
       FindOne doc (Path ["voipinvitemsg"; "status"]) = None /\
       (FindOne doc (Path ["voipmsg"]) = None \/
        FindOne doc (AnyElement "msg") = None)
   end) /\
  (r <> EmptyString -> strings.HasPrefix r "VoIP: " = true).
Proof.
  cbv zeta. unfold parsePrivateVoIP.
  destruct (Parse (Message msg)) as [doc|];
    [|split; [split; [intros _; exact I|reflexivity]|congruence]].
  destruct (FindOne doc (Path ["voipinvitemsg"; "status"])) as [st|] eqn:Es.
  - destruct (FindOne_parent _ _ _ _ Es) as [inv Hinv]. rewrite Hinv.
    destruct (String.eqb (InnerText st) "1");
      [|destruct (String.eqb (InnerText st) "2")];
      (split; [split; [discriminate|intros [H _]; discriminate]
              |intros _; reflexivity]).
  - assert (Hb : forall x : string,
               (match FindOne doc (Path ["voipinvitemsg"]) with
                | Some _ => x
                | None => x
                end) = x)
      by (intro x; destruct (FindOne doc (Path ["voipinvitemsg"]));
          reflexivity).
    rewrite Hb.
    destruct (FindOne doc (Path ["voipmsg"])) as [b|].
    + destruct (FindOne doc (AnyElement "msg")) as [m|].
      * split; [split; [discriminate|]|intros _; apply HasPrefix_self_app].
        intros [_ [H|H]]; discriminate.
      * split; [split; [auto|reflexivity]|congruence].
    + split; [split; [auto|reflexivity]|congruence].
Qed.

(** X7.  [parseSystemMessage] reports the invite when there is one,
    whether or not there is a banner, and the banner otherwise; a node
    with no text still gives the bare prefix.  The result is empty
    exactly when the payload does not parse or holds neither node. *)
Theorem parseSystemMessage_priority (as_ : AppService) (msg : WechatMessage) :
  let r := parseSystemMessage as_ msg in
  (forall doc inviteNode,
      Parse (Message msg) = Some doc ->
      FindOne doc (Path ["sysmsg"; "voipmt"; "invite"]) = Some inviteNode ->
      r = ("VoIP: " ++ InnerText inviteNode)%string) /\
  (forall doc bannerNode,
      Parse (Message msg) = Some doc ->
      FindOne doc (Path ["sysmsg"; "voipmt"; "invite"]) = None ->
      FindOne doc (Path ["sysmsg"; "voipmt"; "banner"]) = Some bannerNode ->
      r = ("VoIP: " ++ InnerText bannerNode)%string) /\
  (r = EmptyString <->
   match Parse (Message msg) with
   | None => True
   | Some doc =>
       FindOne doc (Path ["sysmsg"; "voipmt"; "invite"]) = None /\
       FindOne doc (Path ["sysmsg"; "voipmt"; "banner"]) = None
   end).
Proof.
  cbv zeta. unfold parseSystemMessage. split; [|split].
  - intros doc n Hdoc Hinv. rewrite Hdoc, Hinv. reflexivity.
  - intros doc n Hdoc Hinv Hban. rewrite Hdoc, Hinv, Hban. reflexivity.
  - destruct (Parse (Message msg)) as [doc|];
      [|split; [intros _; exact I|reflexivity]].
    destruct (FindOne doc (Path ["sysmsg"; "voipmt"; "invite"])).
    + split; [discriminate|intros [H _]; discriminate].
    + destruct (FindOne doc (Path ["sysmsg"; "voipmt"; "banner"])).
      * split; [discriminate|intros [_ H]; discriminate].
      * split; auto.
Qed.

(** X8.  A payload that does not parse degrades every extractor to its
    no-match value, and the two resolvers that read the payload return
    nil at once: no disk access, no fetch, no wait. *)
Theorem malformed_payload_is_no_match
  (as_ : AppService) (msg : WechatMessage) (w : World) :
  Parse (Message msg) = None ->
  getAppType as_ msg = 0 /\
  parseNotice as_ msg = EmptyString /\
  parseApp as_ msg = None /\
  parseRevoke as_ msg = EmptyString /\
  parseSystemMessage as_ msg = EmptyString /\
  parsePrivateVoIP Parse as_ msg = EmptyString /\
  parseReply Parse as_ msg = None /\
  parseLocation Parse ParseFloat as_ msg = None /\
  downloadVoice Parse disk timerFirst as_ msg w = Some (None, w) /\
  downloadSticker Parse httpGet as_ msg w = Some (None, w).
Proof.
  intro H.
  unfold getAppType, parseNotice, parseApp, parseRevoke, parseSystemMessage,
    parsePrivateVoIP, parseReply, parseLocation, downloadVoice,
    downloadSticker.
  rewrite H. repeat split.
Qed.

(** The characters of [s] that [f] rejects. *)
Fixpoint dropChars (f : ascii -> bool) (s : string) : string :=
  match s with
  | EmptyString => EmptyString
  | String c s' => if f c then dropChars f s' else String c (dropChars f s')
  end.

Lemma concat_empty_cons (x : string) (l : list string) :
  String.concat EmptyString (x :: l)
  = (x ++ String.concat EmptyString l)%string.
Proof.
  destruct l as [|y l]; simpl; [|reflexivity].
  symmetry. apply append_nil_r.
Qed.

Lemma fieldsScan_fields (f : ascii -> bool) (s : string) :
  forall cur : option string,
    match cur with
    | Some w => w <> EmptyString /\ strings.existsb f w = false
    | None => True
    end ->
    Forall (fun x => x <> EmptyString /\ strings.existsb f x = false)
           (strings.fieldsScan f s cur).
Proof.
  induction s as [|c s IH]; intros cur Hcur; simpl.
  - destruct cur; constructor; [exact Hcur|constructor].
  - destruct (f c) eqn:Hc.
    + destruct cur as [w|].
      * constructor; [exact Hcur|]. apply IH. exact I.
      * apply IH. exact I.
    + apply IH. destruct cur as [w|].
      * destruct Hcur as [_ Hw]. split.
        -- destruct w; discriminate.
        -- rewrite existsb_app, Hw. simpl. rewrite Hc. reflexivity.
      * split; [discriminate|]. simpl. rewrite Hc. reflexivity.
Qed.

Lemma fieldsScan_concat (f : ascii -> bool) (s : string) :
  forall cur : option string,
    String.concat EmptyString (strings.fieldsScan f s cur)
    = (match cur with
       | Some w => w
       | None => EmptyString
       end ++ dropChars f s)%string.
Proof.
  induction s as [|c s IH]; intros cur; simpl.
  - destruct cur; simpl; [symmetry; apply append_nil_r|reflexivity].
  - destruct (f c).
    + destruct cur as [w|].
      * rewrite concat_empty_cons, IH. reflexivity.
      * rewrite IH. reflexivity.
    + rewrite IH. destruct cur as [w|].
      * rewrite append_assoc. reflexivity.
      * reflexivity.
Qed.

(** X9.  Whatever the text of the mention list, no mention that
    [getMentions] returns is empty or holds a comma, and the mentions
    put end to end are the trimmed text with its commas taken out:
    nothing but commas and outer white space is lost. *)
Theorem getMentions_fields
  (as_ : AppService) (msg : WechatMessage) (mentions : list string) :
  getMentions Parse as_ msg = Some mentions ->
  Forall identifier mentions /\
  exists doc,
    Parse (ExtraInfo msg) = Some doc /\
    String.concat EmptyString mentions
    = dropChars (fun r => Ascii.eqb r ",")
        (strings.TrimSpace
           (text (FindOne doc (Path ["msgsource"; "atuserlist"])))).
Proof.
  unfold getMentions.
  destruct (len (ExtraInfo msg) =? 0); [discriminate|].
  destruct (Parse (ExtraInfo msg)) as [doc|]; [|discriminate].
  destruct (nilOrEmpty _); [discriminate|].
  intro H. inversion H; subst mentions. split.
  - apply fieldsScan_fields. exact I.
  - exists doc. split; [reflexivity|].
    unfold strings.FieldsFunc. rewrite fieldsScan_concat. reflexivity.
Qed.


(* ================================================================ *)
(** ** Facts about persistence and polling *)
(* ================================================================ *)

(** X10.  A result of [saveBlob] that is not empty is the path of a
    write that succeeded: the payload decoded, the call did one write,
    of exactly the bytes of the blob, to exactly the returned path.
    When the payload does not decode, nothing is written. *)
Theorem saveBlob_result_sound
  (as_ : AppService) (msg : MatrixMessage) (w : World) :
  (forall path w',
      saveBlob Unmarshal md5_Sum writable as_ msg w = Some (path, w') ->
      path <> EmptyString ->
      exists data,
        Unmarshal (Data msg) = Some data /\
        path = blobPath md5_Sum as_ data /\
        writable path (BlobData.Binary data) = true /\
        w' = record (EvWriteFile path (BlobData.Binary data)) w) /\
  (Unmarshal (Data msg) = None ->
   saveBlob Unmarshal md5_Sum writable as_ msg w = Some (EmptyString, w)).
Proof.
  unfold saveBlob. split.
  - intros path w' H Hne.
    destruct (Unmarshal (Data msg)) as [data|].
    + exists data. unfold bind, WriteFile, ret in H.
      destruct (writable (blobPath md5_Sum as_ data) (BlobData.Binary data))
        eqn:Hw; inversion H; subst; [|congruence].
      repeat split; try reflexivity. exact Hw.
    + inversion H; subst. congruence.
  - intro H. rewrite H. reflexivity.
Qed.

(** Whatever a poll loop returns, it returns a whole number of seconds
    after it started and not after its deadline, and what it did is
    added after what was done before. *)
Lemma pollLoop_elapsed
  (body : M (option BlobData.t)) (res : Z -> option BlobData.t)
  (evs : Z -> list Event) :
  (forall w, body w = Some (res (now w), after (evs (now w)) w)) ->
  forall (fuel m : nat) (deadline : Z) (w w' : World)
         (r : option BlobData.t),
    deadline = now w + Z.of_nat m * Second ->
    pollLoop timerFirst fuel body deadline w = Some (r, w') ->
    exists k added,
      (k <= m)%nat /\
      now w' = now w + Z.of_nat k * Second /\
      events w' = events w ++ added.
Proof.
  intros Hbody fuel. induction fuel as [|fuel IH];
    intros m deadline w w' r Hd H; [discriminate|].
  rewrite (pollLoop_round timerFirst body res evs Hbody) in H.
  destruct (res (now w)) as [blob|].
  - inversion H; subst. exists 0%nat, (evs (now w)).
    repeat split; [lia|simpl; lia].
  - cbv zeta in H.
    destruct ((now w + Second <? deadline)
              || ((now w + Second =? deadline) && timerFirst)) eqn:Hsel.
    + assert (Hle : now w + Second <= deadline).
      { apply orb_true_iff in Hsel. destruct Hsel as [Hs|Hs].
        - apply Z.ltb_lt in Hs. lia.
        - apply andb_true_iff in Hs. destruct Hs as [Hs _].
          apply Z.eqb_eq in Hs. lia. }
      destruct m as [|m]; [zsecs|].
      apply (IH m) in H.
      * destruct H as (k & added & Hk & Hnow & Hev).
        exists (S k), (evs (now w) ++ EvTimer (now w + Second) :: added).
        repeat split; [lia| |].
        -- rewrite Hnow. cbn [now tick]. zsecs.
        -- rewrite Hev. cbn [events tick after].
           rewrite <- !app_assoc. reflexivity.
      * cbn [now tick]. zsecs.
    + inversion H; subst r w'. exists m. eexists.
      split; [lia|]. split.
      * cbn [now tick]. zsecs.
      * cbn [events tick after]. rewrite <- app_assoc. reflexivity.
Qed.

(** X11.  A disk-backed acquisition never outlasts its patience, found
    or not: it returns a whole number of seconds after its start, at
    most thirty, and it only adds to the record of what was done. *)
Theorem acquisition_bounded_wait
  (acq : M (option BlobData.t)) (res : Z -> option BlobData.t)
  (evs : Z -> list Event) (w w' : World) (r : option BlobData.t) :
  DiskBacked Parse disk timerFirst acq res evs ->
  acq w = Some (r, w') ->
  exists k added,
    (k <= 30)%nat /\
    now w' = now w + Z.of_nat k * Second /\
    events w' = events w ++ added.
Proof.
  intros Hacq H.
  destruct (DiskBacked_loop _ _ _ _ _ _ Hacq) as (body & Hbody & Hloop).
  rewrite Hloop in H.
  apply (pollLoop_elapsed body res evs Hbody pollFuel 30
           (now w + MediaDownloadTiemout) w w' r);
    [reflexivity|exact H].
Qed.


(* ================================================================ *)
(** ** Facts about the paths the resolvers poll *)
(* ================================================================ *)

(** Text that ends with a file extension of three letters is an
    element other than [.] and [..]. *)
Lemma with_extension (x ext : string) :
  sepFree x -> sepFree ext -> (3 <= String.length ext)%nat ->
  element (x ++ ext) /\ (x ++ ext)%string <> "." /\ (x ++ ext)%string <> "..".
Proof.
  intros Hx He Hlen.
  assert (L : (3 <= String.length (x ++ ext))%nat)
    by (rewrite length_append; lia).
  repeat split.
  - intro E. rewrite E in L. simpl in L. lia.
  - unfold sepFree in *. rewrite existsb_app, Hx, He. reflexivity.
  - intro E. rewrite E in L. simpl in L. lia.
  - intro E. rewrite E in L. simpl in L. lia.
Qed.

(** Cleaning a path below a directory on a drive whose last element is
    a file name keeps that name as the last element, whatever comes
    between. *)
Lemma Clean_under_last (dir : string) (c : ascii) (root : bool)
      (es : list string) (t last : string) (init : list string) :
  onDrive dir c root es ->
  filepath.split t = init ++ [last] ->
  element last -> last <> "." -> last <> ".." ->
  exists ds,
    filepath.Clean (dir ++ String filepath.Separator t)
    = (drive c ++ filepath.render root (ds ++ [last]))%string.
Proof.
  intros Hdir Hsplit Hlast Hdot Hdotdot.
  rewrite (Clean_under dir c root es t Hdir).
  destruct Hdir as (Hc & Hes & Hne & ->).
  rewrite Hsplit, fold_left_app. cbn [fold_left].
  rewrite cleanList_kept by (assumption || exact (proj1 Hlast)).
  cbn [rev].
  exists (rev (fold_left (cleanList root) init (rev es))).
  rewrite orDot_render; [reflexivity| |].
  - apply Forall_app. split; [|constructor; [exact Hlast|constructor]].
    apply Forall_rev. apply fold_cleanList_elements.
    + pose proof (split_elements_sepFree t) as H. rewrite Hsplit in H.
      apply Forall_app in H. exact (proj1 H).
    + apply Forall_rev. eapply Forall_impl; [|exact Hes].
      apply plainName_element.
  - destruct (rev (fold_left (cleanList root) init (rev es)));
      discriminate.
Qed.

(** The file that [downloadVoice] polls, with the working directory on
    a drive and an ordinary sender: a path on that drive whose last
    element ends with [.amr]. *)
Lemma voiceFile_shape (as_ : AppService) (msg : WechatMessage)
      (c : ascii) (root : bool) (es : list string) (path : string) :
  onDrive (Workdir as_) c root es ->
  plainName (Self msg) ->
  exists ds x,
    sepFree x /\
    voiceFile as_ msg path
    = (drive c ++ filepath.render root (ds ++ [(x ++ ".amr")%string]))%string.
Proof.
  intros Hdir Hself. unfold voiceFile.
  rewrite (Join_three _ _ _ (onDrive_joinable _ _ _ _ Hdir)
                      (plainName_joinable _ Hself)).
  destruct (split_app_sepFree path ".amr" eq_refl) as (init & x & Hp & Hpa).
  assert (Hx : sepFree x).
  { pose proof (split_elements_sepFree path) as H. rewrite Hp in H.
    apply Forall_app in H. destruct H as [_ H]. apply Forall_inv in H.
    exact H. }
  destruct (with_extension x ".amr" Hx eq_refl ltac:(simpl; lia))
    as (Hel & Hdot & Hdotdot).
  destruct (Clean_under_last (Workdir as_) c root es
              (Self msg ++ String filepath.Separator (path ++ ".amr"))
              (x ++ ".amr") (filepath.split (Self msg) ++ init)
              Hdir) as (ds & Hclean); try assumption.
  - rewrite split_app_sep by apply Separator_separates.
    rewrite Hpa, app_assoc. reflexivity.
  - exists ds, x. split; [exact Hx|exact Hclean].
Qed.

(** X12.  With the working directory on a drive and a sender that is
    an ordinary name, whatever the client message ID holds, the one
    file that [downloadVoice] polls has the extension [.amr], and the
    name of a blob it returns ends with [.amr]. *)
Theorem downloadVoice_reads_amr
  (as_ : AppService) (msg : WechatMessage)
  (c : ascii) (root : bool) (es : list string) :
  onDrive (Workdir as_) c root es ->
  plainName (Self msg) ->
  (forall path, filepath.Ext (voiceFile as_ msg path) = ".amr") /\
  (forall w w' blob,
      downloadVoice Parse disk timerFirst as_ msg w = Some (Some blob, w') ->
      exists stem, BlobData.Name blob = (stem ++ ".amr")%string).
Proof.
  intros Hdir Hself. split.
  - intro path.
    destruct (voiceFile_shape as_ msg c root es path Hdir Hself)
      as (ds & x & Hx & ->).
    rewrite render_snoc, <- !append_assoc. apply Ext_amr.
  - intros w w' blob H. unfold downloadVoice in H.
    destruct (Parse (Message msg)) as [doc|]; [|discriminate].
    destruct (nilOrEmpty _); [discriminate|].
    unfold bind, WithTimeout in H.
    apply (pollLoop_blob timerFirst _ _ _ (tryFile_instant disk _)) in H.
    unfold fileAt in H.
    destruct (disk (now w') _) as [| |data]; try discriminate.
    inversion H; subst blob. cbn [BlobData.Name].
    destruct (voiceFile_shape as_ msg c root es
                (text (FindOne doc
                         (PathAttr ["msg"; "voicemsg"] "clientmsgid")))
                Hdir Hself) as (ds & x & Hx & ->).
    exists x. apply Base_drive_render.
    exact (proj1 (with_extension x ".amr" Hx eq_refl ltac:(simpl; lia))).
Qed.



(** X14.  [downloadFile] joins the document directory with the hinted
    path as it comes: with the document directory on a drive and the
    hint [..\x], the file it polls, and returns at once when it is
    readable, is a sibling of the document directory, outside it. *)
Theorem downloadFile_follows_dotdot
  (as_ : AppService) (msg : WechatMessage) (w : World)
  (c : ascii) (root : bool) (ds : list string) (top x : string) (s : ascii)
  (data : list byte) :
  onDrive (Docdir as_) c root (ds ++ [top]) ->
  filepath.IsPathSeparator s = true ->
  FilePath msg = (".." ++ String s x)%string ->
  plainName x ->
  x <> top ->
  let file := (drive c ++ filepath.render root (ds ++ [x]))%string in
  disk (now w) file = Contents data ->
  inside (Docdir as_) file = false /\
  downloadFile disk timerFirst as_ msg w
  = Some (Some (BlobData.mk x data),
          after [EvStat (now w) file; EvReadFile (now w) file] w).
Proof.
  intros Hdir Hs Hhint Hx Hsib file Hdisk. split.
  - destruct Hdir as (_ & _ & _ & ->).
    apply sibling_not_inside; [|exact Hsib].
    apply plainName_sepFree. exact Hx.
  - unfold downloadFile, bind, WithTimeout. rewrite Hhint.
    rewrite (Join_dotdot _ c root ds top x s Hdir Hx Hs). fold file.
    rewrite pollFuel_value.
    rewrite (pollLoop_round timerFirst _ _ _ (tryFile_instant disk file)).
    unfold fileAt, fileEvents, present. rewrite Hdisk.
    unfold file at 1. rewrite Base_drive_render; [reflexivity|].
    apply plainName_element. exact Hx.
Qed.





(* ================================================================ *)
(** ** [GetDocDir] and [GetWechatDocdir] *)
(* ================================================================ *)

(** [user.Current]: the home directory of the current user; [None] is
    an error, which leaves the user nil. *)
Variable userHome : option string.

(** The registry: [registry.OpenKey] under [CURRENT_USER] with
    [QUERY_VALUE], and [GetStringValue] on an open key; [None] is an
    error. *)
Variable Key : Type.
Variable OpenKey : string -> option Key.
Variable GetStringValue : Key -> string -> option string.

(** The error of [user.Current] is dropped, so a nil user is
    dereferenced: the call panics. *)
Definition GetDocDir : M (outcome string) :=
  match userHome with
  | None => ret Panicked
  | Some home =>
      let baseDir := filepath.Join [home; "Documents"] in
      found <- PathExists disk baseDir ;;
      if negb found
      then ret (Returned (filepath.Join [home; "My Documents"]))
      else ret (Returned baseDir)
  end.

Definition GetWechatDocdir : M (outcome string) :=
  r <- GetDocDir ;;
  match r with
  | Panicked => ret Panicked
  | Returned baseDir =>
      let baseDir :=
        match OpenKey "SOFTWARE\Tencent\WeChat" with
        | Some regKey =>
            match GetStringValue regKey "FileSavePath" with
            | Some path =>
                if negb (String.eqb path "MyDocument:")
                   && negb (String.eqb path EmptyString)
                then path
                else baseDir
            | None => baseDir
            end
        | None => baseDir
        end in
      ret (Returned (filepath.Join [baseDir; "WeChat Files"]))
  end.

(** A directory on a drive joined with an ordinary name. *)
Lemma Join_below (dir : string) (c : ascii) (root : bool)
      (es : list string) (x : string) :
  onDrive dir c root es -> plainName x ->
  filepath.Join [dir; x] = (dir ++ sepString ++ x)%string /\
  filepath.Base (filepath.Join [dir; x]) = x.
Proof.
  intros Hdir Hx. destruct (Join_plain dir c root es x Hdir Hx) as [Hj Hr].
  split; [exact Hj|]. rewrite Hr. apply Base_drive_render.
  apply plainName_element. exact Hx.
Qed.

(** X16.  [GetDocDir] looks once at [Documents] under the home
    directory and returns it when it exists; otherwise it returns
    [My Documents] under the home directory without looking at it.
    With the home directory on a drive, the result is the home
    directory, a separator and [Documents] or [My Documents], which is
    its name.  When the user cannot be determined the call panics. *)
Theorem GetDocDir_choice (w : World) :
  (forall home,
      userHome = Some home ->
      let documents := filepath.Join [home; "Documents"] in
      exists dir,
        GetDocDir w
        = Some (Returned dir, record (EvStat (now w) documents) w) /\
        (disk (now w) documents <> Missing -> dir = documents) /\
        (disk (now w) documents = Missing ->
         dir = filepath.Join [home; "My Documents"]) /\
        (forall (c : ascii) (root : bool) (es : list string),
            onDrive home c root es ->
            (dir = (home ++ "\Documents")%string /\
             filepath.Base dir = "Documents") \/
            (dir = (home ++ "\My Documents")%string /\
             filepath.Base dir = "My Documents"))) /\
  (userHome = None -> GetDocDir w = Some (Panicked, w)).
Proof.
  assert (Hdocs : plainName "Documents")
    by (apply plainName_literal; reflexivity || discriminate).
  assert (Hmy : plainName "My Documents")
    by (apply plainName_literal; reflexivity || discriminate).
  unfold GetDocDir. split.
  - intros home Hhome. rewrite Hhome.
    set (documents := filepath.Join [home; "Documents"]).
    unfold bind, PathExists, bind, Stat, ret.
    destruct (disk (now w) documents) eqn:E; cbn.
    + eexists. split; [reflexivity|]. split; [congruence|].
      split; [reflexivity|]. intros c root es Hdir. right.
      exact (Join_below home c root es _ Hdir Hmy).
    + eexists. split; [reflexivity|]. split; [reflexivity|].
      split; [discriminate|]. intros c root es Hdir. left.
      exact (Join_below home c root es _ Hdir Hdocs).
    + eexists. split; [reflexivity|]. split; [reflexivity|].
      split; [discriminate|]. intros c root es Hdir. left.
      exact (Join_below home c root es _ Hdir Hdocs).
  - intro H. rewrite H. reflexivity.
Qed.

(** X17.  A path that [GetWechatDocdir] returns is the join of a
    directory with [WeChat Files]: the registry's [FileSavePath] when
    the key opens and the value is read and is neither empty nor
    [MyDocument:], and the result of [GetDocDir] otherwise.  When that
    directory is on a drive, the path is the directory, a separator and
    [WeChat Files]; when it is a bare drive, the path is the drive and
    [WeChat Files] with no separator; either way it is named
    [WeChat Files].  [GetDocDir] runs first in every case, so a user
    that cannot be determined makes the call panic even when the
    registry has the path. *)
Theorem GetWechatDocdir_location (w w' : World) (p : string) :
  (GetWechatDocdir w = Some (Returned p, w') ->
   exists docs,
     GetDocDir w = Some (Returned docs, w') /\
     (forall regKey path,
         OpenKey "SOFTWARE\Tencent\WeChat" = Some regKey ->
         GetStringValue regKey "FileSavePath" = Some path ->
         path <> "MyDocument:" -> path <> EmptyString ->
         p = filepath.Join [path; "WeChat Files"]) /\
     (OpenKey "SOFTWARE\Tencent\WeChat" = None ->
      p = filepath.Join [docs; "WeChat Files"]) /\
     (forall regKey,
         OpenKey "SOFTWARE\Tencent\WeChat" = Some regKey ->
         GetStringValue regKey "FileSavePath" = None \/
         GetStringValue regKey "FileSavePath" = Some "MyDocument:" \/
         GetStringValue regKey "FileSavePath" = Some EmptyString ->
         p = filepath.Join [docs; "WeChat Files"]) /\
     (forall (base : string) (c : ascii) (root : bool) (es : list string),
         p = filepath.Join [base; "WeChat Files"] ->
         onDrive base c root es ->
         p = (base ++ "\WeChat Files")%string /\
         filepath.Base p = "WeChat Files") /\
     (forall c : ascii,
         p = filepath.Join [drive c; "WeChat Files"] ->
         letter c = true ->
         p = (drive c ++ "WeChat Files")%string /\
         filepath.Base p = "WeChat Files")) /\
  (userHome = None -> GetWechatDocdir w = Some (Panicked, w)).
Proof.
  assert (Hname : plainName "WeChat Files")
    by (apply plainName_literal; reflexivity || discriminate).
  split.
  - unfold GetWechatDocdir, bind at 1.
    destruct (GetDocDir w) as [[[docs|] w1]|] eqn:Hdoc; try discriminate.
    unfold ret. intro H. inversion H as [[Hp Hw]]. subst w1.
    exists docs. split; [reflexivity|]. split; [|split; [|split; [|split]]].
    + intros regKey path Hk Hv H1 H2. rewrite Hk, Hv.
      apply String.eqb_neq in H1, H2. rewrite H1, H2. reflexivity.
    + intro Hk. rewrite Hk. reflexivity.
    + intros regKey Hk [Hv|[Hv|Hv]]; rewrite Hk, Hv; reflexivity.
    + intros base c root es -> Hdir.
      exact (Join_below base c root es _ Hdir Hname).
    + intros c -> Hc. exact (Join_bare_drive c _ Hc Hname).
  - intro H. unfold GetWechatDocdir, GetDocDir. rewrite H. reflexivity.
Qed.


(* ================================================================ *)
(** ** [HTTPGetReadCloserBackgroud]: the URL it requests *)
(* ================================================================ *)

(** Go's [time.Time] and its [Format]. *)
Variable Time : Type.
Variable Format : Time -> string -> string.

(** The URL that the goroutine started by [HTTPGetReadCloserBackgroud]
    requests; the response is dropped and nothing is returned. *)
Definition requestUrl (nickname : string) (time : Time)
           (title urlstring : string) : string :=
  let urlstring := url.QueryEscape urlstring in
  let nickname := url.QueryEscape nickname in
  let name :=
    url.QueryEscape (Format time "20060102" ++ "_" ++ title) in
  ("http://dl2.kerwin.cn:12580?key=" ++ nickname
   ++ "&name=" ++ name ++ "&url=" ++ urlstring)%string.

(** How often the character [c] occurs in [s]. *)
Fixpoint countChar (c : ascii) (s : string) : nat :=
  match s with
  | EmptyString => O
  | String x s' => ((if Ascii.eqb x c then 1 else 0) + countChar c s')%nat
  end.

(** The characters that structure a URL and its query. *)
Definition delimiter (c : ascii) : bool :=
  strings.existsb (Ascii.eqb c) "&=?#/: ".

Lemma countChar_app (c : ascii) (a b : string) :
  countChar c (a ++ b) = (countChar c a + countChar c b)%nat.
Proof. induction a as [|x a IH]; simpl; [|rewrite IH; lia]; reflexivity. Qed.

Lemma escapeByte_no_delimiter (x : ascii) :
  strings.existsb delimiter (url.escapeByte x) = false.
Proof. destruct x as [[] [] [] [] [] [] [] []]; reflexivity. Qed.

Lemma QueryEscape_no_delimiter (s : string) :
  strings.existsb delimiter (url.QueryEscape s) = false.
Proof.
  induction s as [|x s IH]; [reflexivity|].
  cbn [url.QueryEscape]. rewrite existsb_app, escapeByte_no_delimiter, IH.
  reflexivity.
Qed.

Lemma countChar_absent (c : ascii) (s : string) :
  delimiter c = true ->
  strings.existsb delimiter s = false ->
  countChar c s = 0%nat.
Proof.
  intros Hc. induction s as [|x s IH]; simpl; intro H; [reflexivity|].
  apply orb_false_iff in H. destruct H as [Hx Hs].
  destruct (Ascii.eqb x c) eqn:E.
  - apply Ascii.eqb_eq in E. subst x. congruence.
  - rewrite (IH Hs). reflexivity.
Qed.

(** X18.  Whatever the nickname, the title, the date text and the URL
    hold, what [url.QueryEscape] makes of them has no [&], [=], [?],
    [#], [/], [:] or space, so the URL that is requested has exactly
    one [?], two [&] and three [=]: its three parameters cannot be cut
    short or added to by their values. *)
Theorem requestUrl_three_parameters
  (nickname : string) (time : Time) (title urlstring : string) :
  let u := requestUrl nickname time title urlstring in
  countChar "?" u = 1%nat /\
  countChar "&" u = 2%nat /\
  countChar "=" u = 3%nat /\
  countChar "#" u = 0%nat /\
  countChar " " u = 0%nat /\
  u = ("http://dl2.kerwin.cn:12580?key=" ++ url.QueryEscape nickname
       ++ "&name="
       ++ url.QueryEscape (Format time "20060102" ++ "_" ++ title)
       ++ "&url=" ++ url.QueryEscape urlstring)%string /\
  (forall s, strings.existsb delimiter (url.QueryEscape s) = false).
Proof.
  cbv zeta. unfold requestUrl.
  assert (H : forall c s, delimiter c = true ->
                          countChar c (url.QueryEscape s) = 0%nat).
  { intros c s Hc. apply countChar_absent; [exact Hc|].
    apply QueryEscape_no_delimiter. }
  repeat split; try apply QueryEscape_no_delimiter;
    rewrite !countChar_app, !H by reflexivity; reflexivity.
Qed.

(* ================================================================ *)
(** ** [LogMsg] *)
(* ================================================================ *)

(** The flags of [os.OpenFile], with their values on Windows. *)
Definition O_WRONLY : Z := 1.
Definition O_CREATE : Z := 64.
Definition O_TRUNC : Z := 512.
Definition O_APPEND : Z := 1024.

Definition hasFlag (flag bit : Z) : bool :=
  negb (Z.land flag bit =? 0).

(** What [fmt.Println] is given. *)
Inductive Printed : Type :=
| PrintOpenError (e : error)
| PrintShortWrite.

(** [test.txt] as an open for writing finds it: not there, there but
    not to be opened for writing, or there with its content. *)
Inductive LogFile : Type :=
| Absent
| Locked
| Holding (old : list byte).

(** [os.OpenFile] on a file in the state [st]: the error, and the state
    of the file once the call is over.  A missing file is made only
    with [O_CREATE]; an existing one is emptied only with [O_TRUNC]. *)
Definition OpenFile (st : LogFile) (flag : Z) : option error * LogFile :=
  match st with
  | Absent =>
      if hasFlag flag O_CREATE then (None, Holding [])
      else (Some ErrNotExist, Absent)
  | Locked => (Some ErrPermission, Locked)
  | Holding old =>
      (None, if hasFlag flag O_TRUNC then Holding [] else Holding old)
  end.

(** [f.WriteString(s)] on a file just opened with [flag] that holds
    [old], when the system takes [n] bytes: with [O_APPEND] they go
    after [old], without it over its start.  The write reports an error
    exactly when it took fewer bytes than it was given. *)
Definition WriteString (old : list byte) (flag : Z) (s : string) (n : nat)
  : bool * list byte :=
  let data := firstn n (list_byte_of_string s) in
  ((n <? String.length s)%nat,
   if hasFlag flag O_APPEND then old ++ data
   else data ++ skipn (List.length data) old).

Definition newline : string := String (ascii_of_nat 10) EmptyString.

(** The text that [LogMsg] writes: its eight values, one per line, and
    an empty line. *)
Definition logRecord (username nickname : string) (time : Time)
           (title digest summary cover urlstring : string) : string :=
  (username ++ newline ++ nickname ++ newline
   ++ Format time "2006-01-02 15:04:05" ++ newline
   ++ title ++ newline ++ digest ++ newline ++ summary ++ newline
   ++ cover ++ newline ++ urlstring ++ newline ++ newline)%string.

(** [LogMsg], on the state [st] of [test.txt] and the number [taken] of
    bytes that the system takes of the write: the state of [test.txt]
    afterwards and what is printed. *)
Definition LogMsg (username nickname : string) (time : Time)
           (title digest summary cover urlstring : string)
           (st : LogFile) (taken : nat) : LogFile * list Printed :=
  let flag := Z.lor O_APPEND O_WRONLY in
  match OpenFile st flag with
  | (Some err, st') => (st', [PrintOpenError err])
  | (None, Holding old) =>
      let '(short, new) :=
        WriteString old flag
          (logRecord username nickname time title digest summary cover
             urlstring) taken in
      (Holding new, if short then [PrintShortWrite] else [])
  | (None, st') => (st', [])
  end.

Lemma length_list_byte_of_string (s : string) :
  List.length (list_byte_of_string s) = String.length s.
Proof.
  unfold list_byte_of_string. rewrite length_map.
  induction s as [|c s IH]; [reflexivity|].
  cbn [list_ascii_of_string List.length String.length]. rewrite IH.
  reflexivity.
Qed.

(** X19.  [LogMsg] only ever appends: it does not create [test.txt]
    when it is missing (it prints the error and writes nothing), and
    when the file is there its old content stays, in place, before
    whatever part of the record the system takes -- the whole record,
    with nothing printed, exactly when the write is not cut short. *)
Theorem LogMsg_appends
  (username nickname : string) (time : Time)
  (title digest summary cover urlstring : string) (taken : nat) :
  let run := LogMsg username nickname time title digest summary cover
                    urlstring in
  let text := list_byte_of_string
                (logRecord username nickname time title digest summary
                   cover urlstring) in
  run Absent taken = (Absent, [PrintOpenError ErrNotExist]) /\
  run Locked taken = (Locked, [PrintOpenError ErrPermission]) /\
  (forall old,
      fst (run (Holding old) taken) = Holding (old ++ firstn taken text)) /\
  (forall old,
      (List.length text <= taken)%nat <->
      run (Holding old) taken = (Holding (old ++ text), [])).
Proof.
  cbv zeta. unfold LogMsg.
  set (rec := logRecord username nickname time title digest summary cover
                urlstring).
  split; [reflexivity|]. split; [reflexivity|]. split; [reflexivity|].
  intros old.
  change (OpenFile (Holding old) (Z.lor O_APPEND O_WRONLY))
    with (@None error, Holding old).
  unfold WriteString.
  change (hasFlag (Z.lor O_APPEND O_WRONLY) O_APPEND) with true.
  cbv iota beta.
  rewrite length_list_byte_of_string.
  destruct (Nat.ltb taken (String.length rec)) eqn:E.
  - apply Nat.ltb_lt in E. split; [lia|discriminate].
  - apply Nat.ltb_ge in E. split; [|lia]. intros _.
    rewrite firstn_all2
      by (rewrite length_list_byte_of_string; exact E).
    reflexivity.
Qed.

(* ================================================================ *)
(** ** [RegexMatch] *)
(* ================================================================ *)

(** Go's [regexp]: [Compile] gives a program or the text of an error;
    [FindStringSubmatch] gives the whole match followed by one text per
    group, or nil when there is no match. *)
Variable Regexp : Type.
Variable Compile : string -> Regexp + string.
Variable FindStringSubmatch : Regexp -> string -> list string.

(** The result of the call and the lines it prints.  [matches[1]] is
    read as soon as there is a match, so a match without a group
    panics with nothing printed. *)
Definition RegexMatch (input regex : string) : outcome string * list string :=
  match Compile regex with
  | inr err => (Returned EmptyString, [("Error compiling regexp: " ++ err)%string])
  | inl re =>
      match FindStringSubmatch re input with
      | [] => (Returned EmptyString, ["No match found."])
      | [_] => (Panicked, [])
      | _ :: group :: _ =>
          (Returned group, [("First match: " ++ group)%string])
      end
  end.

(** X20.  [RegexMatch] panics exactly when the pattern compiles and
    matches with no group to report.  A result that is not empty is the
    text of the first group of a match, the element that follows the
    whole match, and it is printed as well. *)
Theorem RegexMatch_first_group (input regex : string) :
  let r := RegexMatch input regex in
  (fst r = Panicked <->
   exists re whole,
     Compile regex = inl re /\ FindStringSubmatch re input = [whole]) /\
  (forall s,
      fst r = Returned s -> s <> EmptyString ->
      exists re whole rest,
        Compile regex = inl re /\
        FindStringSubmatch re input = whole :: s :: rest /\
        snd r = [("First match: " ++ s)%string]).
Proof.
  cbv zeta. unfold RegexMatch.
  destruct (Compile regex) as [re|err] eqn:Ec.
  - destruct (FindStringSubmatch re input) as [|whole [|group rest]] eqn:Ef;
      cbn [fst snd].
    + split.
      * split; [discriminate|]. intros (re' & x & H & E).
        injection H as <-. rewrite Ef in E. discriminate.
      * intros s H Hne. injection H as <-. contradiction Hne. reflexivity.
    + split.
      * split; [|reflexivity]. intros _. exists re, whole.
        split; [reflexivity|exact Ef].
      * intros s H. discriminate.
    + split.
      * split; [discriminate|]. intros (re' & x & H & E).
        injection H as <-. rewrite Ef in E. discriminate.
      * intros s H _. injection H as <-.
        exists re, whole, rest.
        split; [reflexivity|]. split; [exact Ef|reflexivity].
  - cbn [fst snd]. split.
    + split; [discriminate|]. intros (re & x & H & _). discriminate.
    + intros s H Hne. injection H as <-. contradiction Hne. reflexivity.
Qed.

End Rest.

(* ================================================================== *)
(** * Concrete scenarios for the rest of the file *)
(* ================================================================== *)

Definition appPayload : string :=
  "<msg><appmsg><title>News</title><des>Daily</des><url>http://n/1</url><type>5</type></appmsg></msg>".
Definition appDoc : Document :=
  [ElementNode "msg" []
     [ElementNode "appmsg" []
        [ElementNode "title" [] [TextNode "News"];
         ElementNode "des" [] [TextNode "Daily"];
         ElementNode "url" [] [TextNode "http://n/1"];
         ElementNode "type" [] [TextNode "5"]]]].

Definition bubblePayload : string :=
  "<voipmsg><VoIPBubbleMsg><msg>Call ended</msg></VoIPBubbleMsg></voipmsg>".
Definition bubbleDoc : Document :=
  [ElementNode "voipmsg" []
     [ElementNode "VoIPBubbleMsg" []
        [ElementNode "msg" [] [TextNode "Call ended"]]]].

Definition systemPayload : string :=
  "<sysmsg><voipmt><invite>incoming</invite><banner>missed</banner></voipmt></sysmsg>".
Definition systemDoc : Document :=
  [ElementNode "sysmsg" []
     [ElementNode "voipmt" []
        [ElementNode "invite" [] [TextNode "incoming"];
         ElementNode "banner" [] [TextNode "missed"]]]].

Definition voicePayload : string :=
  "<msg><voicemsg clientmsgid='abc123'/></msg>".
Definition voiceDoc : Document :=
  [ElementNode "msg" []
     [ElementNode "voicemsg" [("clientmsgid", "abc123")] []]].

(** The parser of the scenarios, with these four payloads added. *)
Definition restParse (s : string) : option Document :=
  match
    find (fun kv => String.eqb (fst kv) s)
      [ (appPayload, appDoc); (bubblePayload, bubbleDoc);
        (systemPayload, systemDoc); (voicePayload, voiceDoc) ]
  with
  | Some kv => Some (snd kv)
  | None => scenarioParse s
  end.

(** A text that the parser rejects. *)
Definition brokenPayload : string := "<msg><appmsg>".


(** The account of the scenarios and its registry. *)
Definition scenarioHome : option string := Some "C:\Users\bob".

Definition scenarioOpenKey (path : string) : option unit :=
  if String.eqb path "SOFTWARE\Tencent\WeChat" then Some tt else None.

Definition scenarioGetStringValue (_ : unit) (name : string)
  : option string :=
  if String.eqb name "FileSavePath" then Some "D:\data\wx" else None.

(** A clock that prints one date, whatever the layout. *)
Definition scenarioFormat (_ : unit) (layout : string) : string :=
  if String.eqb layout "20060102" then "20240101"
  else "2024-01-01 08:00:00".

(** A regular expression library that knows two patterns: one with a
    group and one without. *)
Definition scenarioCompile (regex : string) : bool + string :=
  if String.eqb regex "id=(\d+)" then inl true
  else if String.eqb regex "id=\d+" then inl false
  else inr "missing closing )".

Definition scenarioFind (grouped : bool) (input : string) : list string :=
  if String.eqb input "id=42"
  then (if grouped then ["id=42"; "42"] else ["id=42"])
  else [].

(** ** The extractors *)

Lemma getAppType_value_witness :
  getAppType restParse agent (message appPayload EmptyString EmptyString) = 5.
Proof.
  apply (proj2 (proj2 (getAppType_value restParse agent
                         (message appPayload EmptyString EmptyString))
                      5 ltac:(discriminate))).
  exists appDoc, "5". split; [reflexivity|]. split; [discriminate|].
  split; [reflexivity|]. split.
  - left. split; [left; reflexivity|reflexivity].
  - vm_compute. split; discriminate.
Defined.

Lemma parseApp_iff_witness :
  parseApp restParse agent (message appPayload EmptyString EmptyString)
  = Some (LinkData.mk "News" "Daily" "http://n/1").
Proof.
  apply (proj2 (parseApp_iff restParse agent
                  (message appPayload EmptyString EmptyString) _)).
  exists appDoc. repeat split; try reflexivity. discriminate.
Defined.

Lemma parseReply_matches_parseApp_witness :
  exists link,
    parseApp scenarioParse agent
      (message replyPayload EmptyString EmptyString) = Some link /\
    LinkData.Title link = "Hello".
Proof.
  exact (parseReply_matches_parseApp scenarioParse agent
           (message replyPayload EmptyString EmptyString)
           "Hello" {| ID := 12345; Sender := "alice" |} eq_refl).
Defined.

Lemma parseReply_id_digits_witness :
  exists doc,
    scenarioParse replyPayload = Some doc /\
    let svrid :=
      text (FindOne doc (Path ["msg"; "appmsg"; "refermsg"; "svrid"])) in
    allDigits svrid = true /\
    12345 = decimalValue svrid 0 /\ 0 <= 12345 <= 2 ^ 64 - 1.
Proof.
  exact (parseReply_id_digits scenarioParse agent
           (message replyPayload EmptyString EmptyString)
           "Hello" {| ID := 12345; Sender := "alice" |} eq_refl).
Defined.

Lemma parsePrivateVoIP_bubble_witness :
  parsePrivateVoIP restParse agent
    (message bubblePayload EmptyString EmptyString)
  = "VoIP: Call ended".
Proof.
  exact (parsePrivateVoIP_bubble restParse agent
           (message bubblePayload EmptyString EmptyString) bubbleDoc
           (ElementNode "voipmsg" []
              [ElementNode "VoIPBubbleMsg" []
                 [ElementNode "msg" [] [TextNode "Call ended"]]])
           (ElementNode "msg" [] [TextNode "Call ended"])
           eq_refl eq_refl eq_refl eq_refl).
Defined.

Lemma parsePrivateVoIP_empty_iff_witness :
  parsePrivateVoIP restParse agent
    (message systemPayload EmptyString EmptyString) = EmptyString.
Proof.
  apply (proj2 (proj1 (parsePrivateVoIP_empty_iff restParse agent
                         (message systemPayload EmptyString EmptyString)))).
  split; [reflexivity|]. left. reflexivity.
Defined.

Lemma parseSystemMessage_priority_witness :
  parseSystemMessage restParse agent
    (message systemPayload EmptyString EmptyString)
  = "VoIP: incoming".
Proof.
  exact (proj1 (parseSystemMessage_priority restParse agent
                  (message systemPayload EmptyString EmptyString))
               systemDoc (ElementNode "invite" [] [TextNode "incoming"])
               eq_refl eq_refl).
Defined.

Lemma malformed_payload_is_no_match_witness :
  let msg := message brokenPayload EmptyString EmptyString in
  getAppType restParse agent msg = 0 /\
  parseNotice restParse agent msg = EmptyString /\
  parseApp restParse agent msg = None /\
  parseRevoke restParse agent msg = EmptyString /\
  parseSystemMessage restParse agent msg = EmptyString /\
  parsePrivateVoIP restParse agent msg = EmptyString /\
  parseReply restParse agent msg = None /\
  parseLocation restParse scenarioParseFloat agent msg = None /\
  downloadVoice restParse (diskWith EmptyString 0 pixels) true agent msg start
  = Some (None, start) /\
  downloadSticker restParse scenarioGet agent msg start = Some (None, start).
Proof.
  exact (malformed_payload_is_no_match restParse scenarioParseFloat
           (diskWith EmptyString 0 pixels) true scenarioGet agent
           (message brokenPayload EmptyString EmptyString) start eq_refl).
Defined.

Lemma getMentions_fields_witness :
  Forall identifier ["wxid_a"; "wxid_b"] /\
  exists doc,
    scenarioParse mentionsExtra = Some doc /\
    String.concat EmptyString ["wxid_a"; "wxid_b"]
    = dropChars (fun r => Ascii.eqb r ",")
        (strings.TrimSpace
           (text (FindOne doc (Path ["msgsource"; "atuserlist"])))).
Proof.
  exact (getMentions_fields scenarioParse agent
           (message EmptyString mentionsExtra EmptyString)
           ["wxid_a"; "wxid_b"] eq_refl).
Defined.

(** ** Blobs and acquisitions *)

Lemma saveBlob_result_sound_witness :
  exists data,
    scenarioUnmarshal (x00 :: pixels) = Some data /\
    "C:\agent\work\d41d8cd98f00b204e9800998ecf8427e"
    = blobPath scenarioSum agent data /\
    scenarioWritable "C:\agent\work\d41d8cd98f00b204e9800998ecf8427e"
      (BlobData.Binary data) = true /\
    record (EvWriteFile "C:\agent\work\d41d8cd98f00b204e9800998ecf8427e"
              pixels) start
    = record (EvWriteFile "C:\agent\work\d41d8cd98f00b204e9800998ecf8427e"
                (BlobData.Binary data)) start.
Proof.
  refine (proj1 (saveBlob_result_sound scenarioUnmarshal scenarioSum
                   scenarioWritable agent {| Data := x00 :: pixels |} start)
                _ _ eq_refl _).
  discriminate.
Defined.

(** The report appears two and a half seconds after the start: it is
    read by the round at three seconds. *)
Definition reportRead : World :=
  {| now := 3 * Second;
     events :=
       [EvStat 0 "C:\agent\docs\report.pdf"; EvTimer Second;
        EvStat Second "C:\agent\docs\report.pdf"; EvTimer (2 * Second);
        EvStat (2 * Second) "C:\agent\docs\report.pdf"; EvTimer (3 * Second);
        EvStat (3 * Second) "C:\agent\docs\report.pdf";
        EvReadFile (3 * Second) "C:\agent\docs\report.pdf"] |}.

Lemma acquisition_bounded_wait_witness :
  exists k added,
    (k <= 30)%nat /\
    now reportRead = now start + Z.of_nat k * Second /\
    events reportRead = events start ++ added.
Proof.
  refine (acquisition_bounded_wait scenarioParse
            (diskWith "C:\agent\docs\report.pdf" 2500000000 pixels) true
            _ _ _ start reportRead
            (Some (BlobData.mk "report.pdf" pixels))
            (FileKind scenarioParse _ true agent
               (message EmptyString EmptyString "report.pdf")) _).
  vm_compute. reflexivity.
Defined.

Lemma plainName_alice : plainName "alice".
Proof. apply plainName_literal; reflexivity || discriminate. Qed.

(** A client message ID that climbs out of the working directory still
    names a file with the extension [.amr]. *)
Lemma downloadVoice_reads_amr_witness :
  voiceFile agent (message voicePayload EmptyString EmptyString)
            "..\..\..\Windows\x"
  = "C:\Windows\x.amr" /\
  filepath.Ext (voiceFile agent (message voicePayload EmptyString EmptyString)
                  "..\..\..\Windows\x") = ".amr" /\
  exists stem, "abc123.amr" = (stem ++ ".amr")%string.
Proof.
  destruct (downloadVoice_reads_amr restParse
              (diskWith "C:\agent\work\alice\abc123.amr" 0 pixels) true agent
              (message voicePayload EmptyString EmptyString)
              "C"%char true ["agent"; "work"] agent_workdir plainName_alice)
    as [Hext Hname].
  split; [reflexivity|]. split; [apply Hext|].
  exact (Hname start
           {| now := 0;
              events := [EvStat 0 "C:\agent\work\alice\abc123.amr";
                         EvReadFile 0 "C:\agent\work\alice\abc123.amr"] |}
           (BlobData.mk "abc123.amr" pixels) eq_refl).
Defined.

(** A message without a sender, with the working directory a bare UNC
    host or the root of the local devices: the file polled is the
    volume itself, so the blob is named by a separator, or the path
    ends with a dot. *)
Example downloadVoice_off_drive :
  let msg := {| Self := EmptyString; Message := voicePayload;
                ExtraInfo := EmptyString; FilePath := EmptyString;
                Thumbnail := EmptyString |} in
  let share := {| Workdir := "\\host"; Docdir := EmptyString |} in
  let devices := {| Workdir := "\??"; Docdir := EmptyString |} in
  voiceFile share msg "abc123" = "\\host\abc123.amr" /\
  option_map fst
    (downloadVoice restParse (diskWith "\\host\abc123.amr" 0 pixels) true
       share msg start)
  = Some (Some (BlobData.mk "\" pixels)) /\
  voiceFile devices msg "abc123" = "\??\abc123.amr." /\
  filepath.Ext (voiceFile devices msg "abc123") = ".".
Proof. cbv zeta. repeat split; vm_compute; reflexivity. Qed.


(** With the document directory a bare UNC host, the video polled is
    the volume itself and the blob is named by a separator. *)
Example downloadVideo_off_drive :
  let msg := {| Self := "alice"; Message := EmptyString;
                ExtraInfo := EmptyString; FilePath := EmptyString;
                Thumbnail := "clip.jpg" |} in
  let share := {| Workdir := EmptyString; Docdir := "\\host" |} in
  videoFile share msg = "\\host\clip.mp4" /\
  option_map fst
    (downloadVideo (diskWith "\\host\clip.mp4" 0 pixels) true share msg start)
  = Some (Some (BlobData.mk "\" pixels)).
Proof. cbv zeta. split; vm_compute; reflexivity. Qed.

Lemma downloadFile_follows_dotdot_witness :
  let disk := diskWith "C:\agent\secret.txt" 0 pixels in
  inside (Docdir agent) "C:\agent\secret.txt" = false /\
  downloadFile disk true agent
    (message EmptyString EmptyString "..\secret.txt") start
  = Some (Some (BlobData.mk "secret.txt" pixels),
          after [EvStat 0 "C:\agent\secret.txt";
                 EvReadFile 0 "C:\agent\secret.txt"] start).
Proof.
  refine (downloadFile_follows_dotdot
            (diskWith "C:\agent\secret.txt" 0 pixels) true agent
            (message EmptyString EmptyString "..\secret.txt") start
            "C"%char true ["agent"] "docs" "secret.txt" "\"%char pixels
            agent_docdir eq_refl eq_refl _ _ eq_refl).
  - apply plainName_literal; reflexivity || discriminate.
  - discriminate.
Defined.


(** A hint that is a bare drive has the separator for base name: the
    rounds look at the directory of the sender itself and beside it. *)
Example downloadImage_bare_drive_hint :
  let msg := message EmptyString EmptyString "C:" in
  filepath.Base (FilePath msg) = "\" /\
  imageCandidates agent msg
  = ["C:\agent\work\alice"; "C:\agent\work\alice.png";
     "C:\agent\work\alice.gif"; "C:\agent\work\alice.jpg"].
Proof. cbv zeta. split; reflexivity. Qed.

(** ** The documents directory *)

Lemma home_on_drive : onDrive "C:\Users\bob" "C" true ["Users"; "bob"].
Proof.
  split; [reflexivity|]. split; [|split; [discriminate|reflexivity]].
  repeat constructor; discriminate.
Qed.

Lemma GetDocDir_choice_witness :
  exists dir,
    GetDocDir (diskWith "C:\Users\bob\Pictures" 0 []) scenarioHome start
    = Some (Returned dir, record (EvStat 0 "C:\Users\bob\Documents") start) /\
    dir = "C:\Users\bob\My Documents" /\
    filepath.Base dir = "My Documents".
Proof.
  destruct (proj1 (GetDocDir_choice (diskWith "C:\Users\bob\Pictures" 0 [])
                     scenarioHome start)
                  "C:\Users\bob" eq_refl)
    as (dir & Hrun & _ & Hold & Hdrive).
  exists dir. split; [exact Hrun|]. split; [exact (Hold eq_refl)|].
  destruct (Hdrive "C"%char true ["Users"; "bob"] home_on_drive)
    as [[Hd _]|[_ Hb]]; [|exact Hb].
  rewrite (Hold eq_refl) in Hd. vm_compute in Hd. discriminate.
Defined.

(** With a home directory that is a bare UNC host, [Documents] is a
    share, a volume name: the result has the separator for name. *)
Example GetDocDir_off_drive :
  let disk := diskWith "\\host\Documents" 0 [] in
  GetDocDir disk (Some "\\host") start
  = Some (Returned "\\host\Documents",
          record (EvStat 0 "\\host\Documents") start) /\
  filepath.Base "\\host\Documents" = "\".
Proof. cbv zeta. split; reflexivity. Qed.

Lemma data_on_drive : onDrive "D:\data\wx" "D" true ["data"; "wx"].
Proof.
  split; [reflexivity|]. split; [|split; [discriminate|reflexivity]].
  repeat constructor; discriminate.
Qed.

Lemma GetWechatDocdir_location_witness :
  "D:\data\wx\WeChat Files" = ("D:\data\wx" ++ "\WeChat Files")%string /\
  filepath.Base "D:\data\wx\WeChat Files" = "WeChat Files".
Proof.
  destruct (proj1 (GetWechatDocdir_location
                     (diskWith "C:\Users\bob\Documents" 0 []) scenarioHome
                     unit scenarioOpenKey scenarioGetStringValue start
                     (record (EvStat 0 "C:\Users\bob\Documents") start)
                     "D:\data\wx\WeChat Files")
                  eq_refl)
    as (docs & _ & Hreg & _ & _ & Hdrive & _).
  apply (Hdrive "D:\data\wx" "D"%char true ["data"; "wx"]).
  - apply (Hreg tt "D:\data\wx" eq_refl eq_refl); discriminate.
  - exact data_on_drive.
Defined.

(** The registry names a bare drive: no separator is put after it. *)
Example GetWechatDocdir_bare_drive :
  GetWechatDocdir (diskWith "C:\Users\bob\Documents" 0 []) scenarioHome
    unit scenarioOpenKey (fun _ _ => Some "D:") start
  = Some (Returned "D:WeChat Files",
          record (EvStat 0 "C:\Users\bob\Documents") start) /\
  filepath.Base "D:WeChat Files" = "WeChat Files".
Proof. split; reflexivity. Qed.

(** ** The request, the log and the pattern *)

Lemma requestUrl_three_parameters_witness :
  requestUrl unit scenarioFormat "a b" tt "t&x" "http://x/?a=1"
  = "http://dl2.kerwin.cn:12580?key=a+b&name=20240101_t%26x&url=http%3A%2F%2Fx%2F%3Fa%3D1"
  /\ countChar "&" (requestUrl unit scenarioFormat "a b" tt "t&x"
                      "http://x/?a=1") = 2%nat.
Proof.
  destruct (requestUrl_three_parameters unit scenarioFormat "a b" tt "t&x"
              "http://x/?a=1")
    as (_ & Hamp & _ & _ & _ & Hurl & _).
  split; [rewrite Hurl; reflexivity|exact Hamp].
Defined.

Lemma LogMsg_appends_witness :
  LogMsg unit scenarioFormat "u" "n" tt "t" "d" "s" "c" "l"
         (Holding pixels) 100
  = (Holding (pixels
              ++ list_byte_of_string
                   (logRecord unit scenarioFormat "u" "n" tt "t" "d" "s"
                      "c" "l")), []).
Proof.
  apply (proj1 (proj2 (proj2 (proj2 (LogMsg_appends unit scenarioFormat
                                       "u" "n" tt "t" "d" "s" "c" "l" 100)))
                      pixels)).
  vm_compute. repeat constructor.
Defined.

Lemma RegexMatch_first_group_witness :
  exists re whole,
    scenarioCompile "id=\d+" = inl re /\
    scenarioFind re "id=42" = [whole].
Proof.
  apply (proj1 (proj1 (RegexMatch_first_group bool scenarioCompile
                         scenarioFind "id=42" "id=\d+"))).
  reflexivity.
Defined.
